(** * A shallow embedding of the HTTP handlers of the social-network demo API

    The Go handlers of package [apis] are embedded as pure functions from a
    handler state and a request to a new handler state and an outcome.  Go's
    [int] is the 64-bit signed integer, carried as [Z] with its wrap-around
    written out where a request can reach it; Go strings are byte strings
    ([string]); Go maps are [gmap]s, with the nil map kept apart from the
    allocated empty map where a handler struct can be built as a zero value;
    a run-time panic of a handler is an outcome of its own. *)

From Stdlib Require Import ZArith Lia Ascii String.
From stdpp Require Import base list strings gmap pretty.

Open Scope Z_scope.

(** ** Go's 64-bit [int] *)

Module GoInt.

Definition maxInt : Z := 2 ^ 63 - 1.
Definition minInt : Z := - 2 ^ 63.

(** Two's-complement wrap-around of an arithmetic result. *)
Definition wrap (z : Z) : Z := (z + 2 ^ 63) mod 2 ^ 64 - 2 ^ 63.

(** [a + b] on [int]. *)
Definition add (a b : Z) : Z := wrap (a + b).

(** [len(s)] of a slice. *)
Definition len {A} (s : list A) : Z := Z.of_nat (length s).

End GoInt.

(** ** Slice expressions *)

Module GoSlice.

(** [s[lo:hi]] on a slice whose capacity is not exceeded by [hi]: Go panics
    unless [0 <= lo <= hi <= cap(s)].  Every slice expression of the handlers
    below has clamped [hi] to [len(s)] beforehand, so that the bound that can
    fail there is the one written here against the length. *)
Definition slice {A} (s : list A) (lo hi : Z) : option (list A) :=
  if (0 <=? lo) && (lo <=? hi) && (hi <=? GoInt.len s)
  then Some (take (Z.to_nat (hi - lo)) (drop (Z.to_nat lo) s))
  else None.

(** The tail that [GetUserPosts], [GetOwnPosts] and [SearchUsers] repeat:
    [end := offset + limit], [end] and then [offset] clamped to [len(s)],
    and [s[offset:end]]. *)
Definition clamped {A} (s : list A) (offset limit : Z) : option (list A) :=
  let end_ := GoInt.add offset limit in
  let end_ := if end_ >? GoInt.len s then GoInt.len s else end_ in
  let offset := if offset >? GoInt.len s then GoInt.len s else offset in
  slice s offset end_.

(** [append(s[:i], s[i+1:]...)] for an index [i] of [s]. *)
Definition remove_at {A} (s : list A) (i : nat) : list A :=
  take i s ++ drop (S i) s.

End GoSlice.

(** ** Package strconv (Go standard library), base 10, 64 bits *)

Module Strconv.

Inductive NumError := ErrSyntax | ErrRange.

#[global] Instance NumError_eq_dec : EqDecision NumError.
Proof. solve_decision. Defined.

Definition maxUint64 : Z := 2 ^ 64 - 1.

Definition digit_of (c : ascii) : option Z :=
  let n := Z.of_nat (nat_of_ascii c) in
  if (48 <=? n) && (n <=? 57) then Some (n - 48) else None.

(** The digit loop of [ParseUint(s, 10, 64)]: a byte that is no digit is a
    syntax error; an overflow is a range error at the digit that overflows,
    whatever follows it. *)
Fixpoint ParseUint_loop (n : Z) (s : string) : Z * option NumError :=
  match s with
  | EmptyString => (n, None)
  | String c rest =>
      match digit_of c with
      | None => (0, Some ErrSyntax)
      | Some d =>
          if n >=? maxUint64 / 10 + 1 then (maxUint64, Some ErrRange)
          else
            let n1 := n * 10 + d in
            if n1 >? maxUint64 then (maxUint64, Some ErrRange)
            else ParseUint_loop n1 rest
      end
  end.

Definition ParseUint (s : string) : Z * option NumError :=
  match s with
  | EmptyString => (0, Some ErrSyntax)
  | _ => ParseUint_loop 0 s
  end.

(** [ParseInt(s, 10, 64)]: an optional sign, then [ParseUint]; a value out
    of range is replaced by the nearest bound and reported as [ErrRange]. *)
Definition ParseInt (s : string) : Z * option NumError :=
  match s with
  | EmptyString => (0, Some ErrSyntax)
  | String c rest =>
      let neg := Ascii.eqb c "-"%char in
      let s1 := if Ascii.eqb c "+"%char || neg then rest else s in
      match ParseUint s1 with
      | (_, Some ErrSyntax) => (0, Some ErrSyntax)
      | (un, _) =>
          if negb neg && (un >=? 2 ^ 63) then (GoInt.maxInt, Some ErrRange)
          else if neg && (un >? 2 ^ 63) then (GoInt.minInt, Some ErrRange)
          else (if neg then - un else un, None)
      end
  end.

(** [Atoi(s)] is [ParseInt(s, 10, 0)] with [int] of 64 bits; its fast path
    for short strings computes the same result. *)
Definition Atoi (s : string) : Z * option NumError := ParseInt s.

(** [Itoa(i)] and [FormatInt(i, 10)]: the decimal numeral of [i]. *)
Definition Itoa (i : Z) : string := pretty i.
Definition FormatInt (i : Z) : string := pretty i.

End Strconv.

(** ** What a handler leaves behind: a response, or a panic *)

Module Http.

Inductive Status :=
  | StatusOK                   (* 200 *)
  | StatusCreated              (* 201 *)
  | StatusBadRequest           (* 400 *)
  | StatusForbidden            (* 403 *)
  | StatusNotFound             (* 404 *)
  | StatusInternalServerError. (* 500 *)

#[global] Instance Status_eq_dec : EqDecision Status.
Proof. solve_decision. Defined.

(** [Reply st b]: the handler wrote status [st] and encoded [b];
    [Panic]: the handler panicked (net/http recovers it and drops the
    connection; nothing is encoded). *)
Inductive Outcome (B : Type) :=
  | Reply (st : Status) (body : B)
  | Panic.
Arguments Reply {B} st body.
Arguments Panic {B}.

(** [mux.Vars(r)] and [r.URL.Query()]. *)
Record Request := {
  Vars : gmap string string;
  Query : gmap string (list string);
}.

(** [mux.Vars(r)[k]]: the empty string when [k] is no variable of the route. *)
Definition var (r : Request) (k : string) : string :=
  default EmptyString (Vars r !! k).

(** [r.URL.Query().Get(k)]: the first value of [k], the empty string when
    the parameter is absent. *)
Definition query_get (r : Request) (k : string) : string :=
  match Query r !! k with
  | Some (v :: _) => v
  | _ => EmptyString
  end.

(** The request with the query parameter [k] taken out. *)
Definition without_param (k : string) (r : Request) : Request :=
  {| Vars := Vars r; Query := delete k (Query r) |}.

End Http.

Import Http.

(** ** apis/posts.go: the posts handler backed by the [Posts] map *)

Module Posts.

(** [MediaIDs] is a slice: [None] is the nil slice. [IsDeleted] carries the
    tag [json:"-"]: no member of a JSON body reaches it. *)
Record Post := {
  PostID : Z;
  UserID : Z;
  Content : string;
  CreatedAt : string;
  MediaIDs : option (list Z);
  IsDeleted : bool;
}.

(** [Posts : map[int]Post]; [None] is the nil map of the zero value
    [&PostsHandler{}], which reads as empty and panics on assignment. *)
Record PostsHandler := {
  Posts : option (gmap Z Post);
}.

Definition entries (h : PostsHandler) : gmap Z Post := default ∅ (Posts h).

(** [len(h.Posts)]. A Go map holds fewer than [2 ^ 63] entries, so that
    [len(h.Posts) + 1] is computed without wrap-around. *)
Definition len_Posts (h : PostsHandler) : Z := Z.of_nat (size (entries h)).

(** A JSON object as the decoder of [Post] sees it: the members that have a
    field, and the members that have none ([j_unknown], skipped by the
    decoder), among them any deleted flag. *)
Record PostJSON := {
  j_post_id : Z;
  j_user_id : Z;
  j_content : string;
  j_createdAt : string;
  j_media_ids : option (list Z);
  j_unknown : list (string * string);
}.

(** [var req Post; json.NewDecoder(r.Body).Decode(&req)] on a body that
    decodes. *)
Definition decode (j : PostJSON) : Post :=
  {| PostID := j_post_id j; UserID := j_user_id j; Content := j_content j;
     CreatedAt := j_createdAt j; MediaIDs := j_media_ids j;
     IsDeleted := false |}.

Inductive Body :=
  | ErrorBody (msg : string)
  | PostBody (p : Post)
  | PageBody (posts : list Post) (total : Z)
  | CreatedBody (post_id : Z) (msg : string)
  | MessageBody (msg : string).

(** [postID, _ := strconv.Atoi(vars["post_id"])]. *)
Definition postID_of (r : Request) : Z := (Strconv.Atoi (var r "post_id")).1.

Definition GetPost (h : PostsHandler) (r : Request) : Outcome Body :=
  let postID := postID_of r in
  match entries h !! postID with
  | Some post =>
      if IsDeleted post then Reply StatusNotFound (ErrorBody "Post not found")
      else Reply StatusOK (PostBody post)
  | None => Reply StatusNotFound (ErrorBody "Post not found")
  end.

(** [for _, p := range h.Posts] visits every entry once, in an order Go
    leaves unspecified: [visit] is the sequence of one such iteration. *)
Definition ranges_over (visit : list (Z * Post)) (h : PostsHandler) : Prop :=
  visit ≡ₚ map_to_list (entries h).

Definition posts_of_user (visit : list (Z * Post)) (userID : Z) : list Post :=
  List.filter (fun p => (UserID p =? userID) && negb (IsDeleted p)) visit.*2.

(** The tail shared by [GetUserPosts] and [GetOwnPosts]: the page and the
    total of the response. *)
Definition page_of (userPosts : list Post) (offset limit : Z) : Outcome Body :=
  match GoSlice.clamped userPosts offset limit with
  | Some page => Reply StatusOK (PageBody page (GoInt.len userPosts))
  | None => Panic
  end.

(** [userID, _ := strconv.Atoi(vars["user_id"])], and the two query
    parameters read the same way. *)
Definition userID_of (r : Request) : Z := (Strconv.Atoi (var r "user_id")).1.
Definition offset_of (r : Request) : Z := (Strconv.Atoi (query_get r "offset")).1.
Definition limit_of (r : Request) : Z := (Strconv.Atoi (query_get r "limit")).1.

Definition GetUserPosts (h : PostsHandler) (visit : list (Z * Post))
    (r : Request) : Outcome Body :=
  let userID := userID_of r in
  let offset := offset_of r in
  let limit := limit_of r in
  let userPosts := posts_of_user visit userID in
  if GoInt.len userPosts =? 0
  then Reply StatusNotFound (ErrorBody "User not found")
  else page_of userPosts offset limit.

Definition GetOwnPosts (h : PostsHandler) (visit : list (Z * Post))
    (r : Request) : Outcome Body :=
  let currentUserID := 1 in
  let offset := offset_of r in
  let limit := limit_of r in
  let userPosts := posts_of_user visit currentUserID in
  page_of userPosts offset limit.

(** [now] is [time.Now().Format(time.RFC3339)]; [body] is [None] when
    decoding the request body fails. *)
Definition CreatePost (h : PostsHandler) (now : string)
    (body : option PostJSON) : PostsHandler * Outcome Body :=
  match body with
  | None => (h, Reply StatusBadRequest (ErrorBody "Invalid data"))
  | Some j =>
      let req := decode j in
      if String.eqb (Content req) "" then
        (h, Reply StatusBadRequest (ErrorBody "Invalid data"))
      else
        let newID := len_Posts h + 1 in
        let req := {| PostID := newID; UserID := 1; Content := Content req;
                      CreatedAt := now; MediaIDs := MediaIDs req;
                      IsDeleted := IsDeleted req |} in
        match Posts h with
        | None => (h, Panic)
        | Some m =>
            ({| Posts := Some (<[newID := req]> m) |},
             Reply StatusCreated (CreatedBody newID "Post created"))
        end
  end.

(** The reply of both handlers when the guard fails. *)
Definition forbidden : Outcome Body :=
  Reply StatusForbidden (ErrorBody "Unauthorized or not the author").

(** The guard shared by [UpdatePost] and [DeletePost]:
    [!exists || post.IsDeleted || post.UserID != 1]. *)
Definition editable (h : PostsHandler) (postID : Z) : option Post :=
  match entries h !! postID with
  | Some post =>
      if IsDeleted post || negb (UserID post =? 1) then None else Some post
  | None => None
  end.

(** Writing an entry that [editable] has found: the map is allocated. *)
Definition store (h : PostsHandler) (postID : Z) (post : Post) : PostsHandler :=
  {| Posts := Some (<[postID := post]> (entries h)) |}.

Definition UpdatePost (h : PostsHandler) (r : Request)
    (body : option PostJSON) : PostsHandler * Outcome Body :=
  let postID := postID_of r in
  match editable h postID with
  | None =>
      (h, forbidden)
  | Some post =>
      match body with
      | None => (h, Reply StatusBadRequest (ErrorBody "Invalid data"))
      | Some j =>
          let req := decode j in
          let content :=
            if String.eqb (Content req) "" then Content post else Content req in
          let media :=
            match MediaIDs req with
            | Some ids => Some ids
            | None => MediaIDs post
            end in
          let post := {| PostID := PostID post; UserID := UserID post;
                         Content := content; CreatedAt := CreatedAt post;
                         MediaIDs := media; IsDeleted := IsDeleted post |} in
          (store h postID post, Reply StatusOK (MessageBody "Post updated"))
      end
  end.

Definition DeletePost (h : PostsHandler) (r : Request)
    : PostsHandler * Outcome Body :=
  let postID := postID_of r in
  match editable h postID with
  | None =>
      (h, forbidden)
  | Some post =>
      let post := {| PostID := PostID post; UserID := UserID post;
                     Content := Content post; CreatedAt := CreatedAt post;
                     MediaIDs := MediaIDs post; IsDeleted := true |} in
      (store h postID post, Reply StatusOK (MessageBody "Post soft deleted"))
  end.

(** The requests that write to the store, and a handler serving a sequence
    of them. A panic leaves the store as it was. *)
Inductive Op :=
  | OpCreate (now : string) (body : option PostJSON)
  | OpUpdate (r : Request) (body : option PostJSON)
  | OpDelete (r : Request).

Definition step (h : PostsHandler) (o : Op) : PostsHandler :=
  match o with
  | OpCreate now body => (CreatePost h now body).1
  | OpUpdate r body => (UpdatePost h r body).1
  | OpDelete r => (DeletePost h r).1
  end.

Definition run (ops : list Op) (h : PostsHandler) : PostsHandler :=
  foldl step h ops.

(** The keys of the store are ids from 1 to its size, each the id of the
    post it holds. *)
Definition well_keyed (h : PostsHandler) : Prop :=
  ∀ k p, entries h !! k = Some p → PostID p = k ∧ 1 <= k <= len_Posts h.

(** The store holds a deleted post under [k]. *)
Definition tombstone (h : PostsHandler) (k : Z) : Prop :=
  ∃ p, entries h !! k = Some p ∧ IsDeleted p = true.

(** A handler as it starts: the zero value (nil map), or an allocated
    empty map. *)
Definition initial (h : PostsHandler) : Prop :=
  Posts h = None ∨ Posts h = Some ∅.

End Posts.

(** ** apis/profile.go: the search over the profiles *)

Module Profiles.

Record UserProfile := {
  UserID : Z;
  Username : string;
  Avatar : string;
  Bio : string;
  CreatedAt : string;
  IsPrivate : bool;
}.

(** [Users : map[int]UserProfile]; [None] is the nil map of the zero value
    [&ProfileHandler{}]. *)
Record ProfileHandler := {
  Users : option (gmap Z UserProfile);
}.

Definition entries (h : ProfileHandler) : gmap Z UserProfile :=
  default ∅ (Users h).

Inductive Body :=
  | UsersBody (users : list UserProfile) (total : Z).

Section WithStrings.

(** [strings.ToLower] and [strings.Contains] (Go standard library). *)
Variable ToLower : string → string.
Variable Contains : string → string → bool.

Definition containsIgnoreCase (s substr : string) : bool :=
  (String.length substr =? 0)%nat
  || ((String.length substr <=? String.length s)%nat
      && Contains (ToLower s) (ToLower substr)).

(** [visit] is the sequence of one iteration over [h.Users]. *)
Definition SearchUsers (h : ProfileHandler) (visit : list (Z * UserProfile))
    (r : Request) : Outcome Body :=
  let q := query_get r "search" in
  let offset := (Strconv.Atoi (query_get r "offset")).1 in
  let limit := (Strconv.Atoi (query_get r "limit")).1 in
  let usersList :=
    List.filter (fun u => String.eqb q "" || containsIgnoreCase (Username u) q)
      visit.*2 in
  match GoSlice.clamped usersList offset limit with
  | Some page => Reply StatusOK (UsersBody page (GoInt.len usersList))
  | None => Panic
  end.

End WithStrings.

(** [visit] is an order in which [range h.Users] may yield the map. *)
Definition ranges_over (visit : list (Z * UserProfile)) (h : ProfileHandler)
    : Prop :=
  visit ≡ₚ map_to_list (entries h).

(** The bodies of [GetProfile] and [UpdateProfile]: the JSON object with
    the one member [error] that [http.Error] writes as text, the profile,
    and the object with the one member [message]. *)
Inductive ProfileBody :=
  | ErrorText (error : string)
  | ProfileJSON (user : UserProfile)
  | MessageJSON (message : string).

Definition GetProfile (h : ProfileHandler) (r : Request) : Outcome ProfileBody :=
  let idStr := var r "user_id" in
  match Strconv.Atoi idStr with
  | (_, Some _) => Reply StatusBadRequest (ErrorText "Invalid user ID")
  | (userID, None) =>
      match entries h !! userID with
      | None => Reply StatusNotFound (ErrorText "User not found")
      | Some user =>
          if IsPrivate user then
            Reply StatusForbidden (ErrorText "Private profile")
          else Reply StatusOK (ProfileJSON user)
      end
  end.

(** [body] is the [UserProfile] that the body decodes to, [None] when
    decoding fails. The map has the key 1 when the write is reached, so
    that it is allocated. *)
Definition UpdateProfile (h : ProfileHandler) (body : option UserProfile)
    : ProfileHandler * Outcome ProfileBody :=
  match body with
  | None => (h, Reply StatusBadRequest (ErrorText "Invalid data"))
  | Some req =>
      match entries h !! 1 with
      | None => (h, Reply StatusForbidden (ErrorText "Unauthorized"))
      | Some currentUser =>
          let username :=
            if negb (String.eqb (Username req) "") then Username req
            else Username currentUser in
          let avatar :=
            if negb (String.eqb (Avatar req) "") then Avatar req
            else Avatar currentUser in
          let bio :=
            if negb (String.eqb (Bio req) "") then Bio req
            else Bio currentUser in
          let currentUser :=
            {| UserID := UserID currentUser; Username := username;
               Avatar := avatar; Bio := bio;
               CreatedAt := CreatedAt currentUser;
               IsPrivate := IsPrivate currentUser |} in
          ({| Users := Some (<[1 := currentUser]> (entries h)) |},
           Reply StatusOK (MessageJSON "Profile updated"))
      end
  end.

(** A handler serving a sequence of [UpdateProfile] requests, the only
    ones that write. *)
Definition run (bodies : list (option UserProfile)) (h : ProfileHandler)
    : ProfileHandler :=
  foldl (λ h body, (UpdateProfile h body).1) h bodies.

End Profiles.

(** ** apis/notifications.go *)

Module Notifications.

Record Notification := {
  ID : Z;
  Type_ : string;
  SourceUserID : Z;
  PostID : Z;
  Read : bool;
  CreatedAt : string;
}.

Record NotificationResponse := {
  Notifications : list Notification;
  Total : Z;
  Error : string;
}.

Record NotificationHandler := {
  notifications : list Notification;
}.

Definition NewNotificationHandler : NotificationHandler :=
  {| notifications := [] |}.

(** [offset, _ := strconv.Atoi(offsetStr)]. *)
Definition offset_of (r : Request) : Z :=
  (Strconv.Atoi (query_get r "offset")).1.

(** [limit := 10; if l, err := strconv.Atoi(limitStr); err == nil { limit = l }]. *)
Definition limit_of (r : Request) : Z :=
  match Strconv.Atoi (query_get r "limit") with
  | (l, None) => l
  | (_, Some _) => 10
  end.

Definition GetNotifications (h : NotificationHandler) (r : Request)
    : Outcome NotificationResponse :=
  let offset := offset_of r in
  let limit := limit_of r in
  let total := GoInt.len (notifications h) in
  let end_ := GoInt.add offset limit in
  let end_ := if end_ >? total then total else end_ in
  match GoSlice.slice (notifications h) offset end_ with
  | Some result =>
      Reply StatusOK
        {| Notifications := result; Total := total; Error := "" |}
  | None => Panic
  end.

(** [MarkAsRead] answers with a map of one entry, an error or a message. *)
Inductive MarkBody :=
  | MarkError (msg : string)
  | MarkMessage (msg : string).

(** [h.notifications[i].Read = true]. *)
Definition read (n : Notification) : Notification :=
  {| ID := ID n; Type_ := Type_ n; SourceUserID := SourceUserID n;
     PostID := PostID n; Read := true; CreatedAt := CreatedAt n |}.

(** The loop of [MarkAsRead] over the notifications: the first one with
    the id decides. *)
Inductive Marking :=
  | NoSuchNotification
  | NotTheSource
  | Marked (l : list Notification).

Fixpoint mark (id : Z) (l : list Notification) : Marking :=
  match l with
  | [] => NoSuchNotification
  | n :: rest =>
      if ID n =? id then
        if negb (SourceUserID n =? 1) then NotTheSource
        else Marked (read n :: rest)
      else
        match mark id rest with
        | Marked rest' => Marked (n :: rest')
        | other => other
        end
  end.

Definition MarkAsRead (h : NotificationHandler) (r : Request)
    : NotificationHandler * Outcome MarkBody :=
  match Strconv.Atoi (var r "notification_id") with
  | (_, Some _) =>
      (h, Reply StatusBadRequest (MarkError "Invalid notification ID"))
  | (id, None) =>
      match mark id (notifications h) with
      | Marked l =>
          ({| notifications := l |},
           Reply StatusOK (MarkMessage "Notification marked as read"))
      | NotTheSource => (h, Reply StatusForbidden (MarkError "Forbidden"))
      | NoSuchNotification =>
          (h, Reply StatusNotFound (MarkError "Notification not found"))
      end
  end.

(** Two notifications that differ in the read flag at most. *)
Definition same_but_read (n n' : Notification) : Prop :=
  ID n' = ID n ∧ Type_ n' = Type_ n ∧ SourceUserID n' = SourceUserID n
  ∧ PostID n' = PostID n ∧ CreatedAt n' = CreatedAt n
  ∧ (Read n = true → Read n' = true).

End Notifications.

(** ** apis/follows.go *)

Module Follows.

Record Follow := {
  UserID : Z;
  Username : string;
  Avatar : string;
}.

Record FollowResponse := {
  Followers : list Follow;
  Following : list Follow;
  Total : Z;
  Message : string;
  Error : string;
}.

Definition message (m : string) : FollowResponse :=
  {| Followers := []; Following := []; Total := 0; Message := m; Error := "" |}.
Definition error (e : string) : FollowResponse :=
  {| Followers := []; Following := []; Total := 0; Message := ""; Error := e |}.

(** Both maps are allocated by [NewFollowsHandler], the only way to build a
    handler outside the package's zero value. *)
Record FollowsHandler := {
  followers : gmap Z (list Follow);
  following : gmap Z (list Follow);
}.

Definition NewFollowsHandler : FollowsHandler :=
  {| followers := ∅; following := ∅ |}.

(** [h.following[u]] and [h.followers[u]]: the nil slice for a missing key. *)
Definition following_of (h : FollowsHandler) (u : Z) : list Follow :=
  default [] (following h !! u).
Definition followers_of (h : FollowsHandler) (u : Z) : list Follow :=
  default [] (followers h !! u).

Definition GetFollowersByUserID (h : FollowsHandler) (userID : Z)
    : Outcome FollowResponse :=
  match followers h !! userID with
  | None => Reply StatusNotFound (error "User not found")
  | Some l =>
      Reply StatusOK {| Followers := l; Following := []; Total := GoInt.len l;
                        Message := ""; Error := "" |}
  end.

Definition GetFollowingByUserID (h : FollowsHandler) (userID : Z)
    : Outcome FollowResponse :=
  match following h !! userID with
  | None => Reply StatusNotFound (error "User not found")
  | Some l =>
      Reply StatusOK {| Followers := []; Following := l; Total := GoInt.len l;
                        Message := ""; Error := "" |}
  end.

(** [for i, u := range l { if u.UserID == id { ... break } }]: the index of
    the first element whose id is [id]. *)
Fixpoint index_of (id : Z) (l : list Follow) : option nat :=
  match l with
  | [] => None
  | u :: rest => if UserID u =? id then Some 0%nat else S <$> index_of id rest
  end.

Definition target_of (r : Request) : Z :=
  (Strconv.Atoi (var r "target_user_id")).1.

Definition FollowUser (h : FollowsHandler) (r : Request)
    : FollowsHandler * Outcome FollowResponse :=
  let targetID := target_of r in
  let currentID := 1 in
  match index_of targetID (following_of h currentID) with
  | Some _ => (h, Reply StatusBadRequest (error "Already following"))
  | None =>
      let user := {| UserID := targetID;
                     Username := "user" +:+ Strconv.Itoa targetID;
                     Avatar := "" |} in
      let following' :=
        <[currentID := following_of h currentID ++ [user]]> (following h) in
      let me := {| UserID := currentID; Username := "user1"; Avatar := "" |} in
      let followers' :=
        <[targetID := followers_of h targetID ++ [me]]> (followers h) in
      ({| followers := followers'; following := following' |},
       Reply StatusCreated (message "Followed"))
  end.

Definition UnfollowUser (h : FollowsHandler) (r : Request)
    : FollowsHandler * Outcome FollowResponse :=
  let targetID := target_of r in
  let currentID := 1 in
  let followingList := following_of h currentID in
  match index_of targetID followingList with
  | None => (h, Reply StatusForbidden (error "Unauthorized"))
  | Some i =>
      let following' :=
        <[currentID := GoSlice.remove_at followingList i]> (following h) in
      let followerList := followers_of h targetID in
      let followers' :=
        match index_of currentID followerList with
        | Some j => <[targetID := GoSlice.remove_at followerList j]> (followers h)
        | None => followers h
        end in
      ({| followers := followers'; following := following' |},
       Reply StatusOK (message "Unfollowed"))
  end.

Inductive Op :=
  | OpFollow (r : Request)
  | OpUnfollow (r : Request).

Definition step (h : FollowsHandler) (o : Op) : FollowsHandler :=
  match o with
  | OpFollow r => (FollowUser h r).1
  | OpUnfollow r => (UnfollowUser h r).1
  end.

Definition run (ops : list Op) (h : FollowsHandler) : FollowsHandler :=
  foldl step h ops.

(** The ids of the users in a list of follows. *)
Definition ids (l : list Follow) : list Z := UserID <$> l.

(** What the stores of a handler built by [NewFollowsHandler] satisfy: the
    current user follows nobody twice, no list of followers holds a user
    twice, and the current user is a follower only of the users it follows. *)
Definition consistent (h : FollowsHandler) : Prop :=
  NoDup (ids (following_of h 1))
  ∧ ∀ t, NoDup (ids (followers_of h t))
         ∧ (1 ∈ ids (followers_of h t) → t ∈ ids (following_of h 1)).

(** The four listing routes. *)
Definition GetMyFollowers (h : FollowsHandler) : Outcome FollowResponse :=
  GetFollowersByUserID h 1.
Definition GetMyFollowing (h : FollowsHandler) : Outcome FollowResponse :=
  GetFollowingByUserID h 1.
Definition GetFollowers (h : FollowsHandler) (r : Request)
    : Outcome FollowResponse :=
  GetFollowersByUserID h (Strconv.Atoi (var r "user_id")).1.
Definition GetFollowing (h : FollowsHandler) (r : Request)
    : Outcome FollowResponse :=
  GetFollowingByUserID h (Strconv.Atoi (var r "user_id")).1.

(** The other half of what the stores satisfy: the users that the current
    user follows have it as a follower, nobody but the current user is a
    follower, and nobody but the current user follows. *)
Definition mirrored (h : FollowsHandler) : Prop :=
  (∀ t, t ∈ ids (following_of h 1) → 1 ∈ ids (followers_of h t))
  ∧ (∀ t u, u ∈ ids (followers_of h t) → u = 1)
  ∧ (∀ a, a ≠ 1 → following h !! a = None).

End Follows.

(** ** Package time (Go standard library), as far as the feed uses it *)

Module GoTime.

(** A [time.Time] without monotonic reading: [sec] counts the seconds since
    January 1 of year 1 as an [int64], [nsec] the nanoseconds within the
    second. *)
Record Time := {
  sec : Z;
  nsec : Z;
}.

Definition unixToInternal : Z := 62135596800.

(** [var t time.Time]. *)
Definition zero : Time := {| sec := 0; nsec := 0 |}.

(** [time.Unix(s, 0)]. *)
Definition Unix (s : Z) : Time :=
  {| sec := GoInt.add s unixToInternal; nsec := 0 |}.

(** [t.Unix()]. *)
Definition unix_of (t : Time) : Z := GoInt.wrap (sec t - unixToInternal).

(** [t.Before(u)]. *)
Definition Before (t u : Time) : bool :=
  (sec t <? sec u) || ((sec t =? sec u) && (nsec t <? nsec u)).

(** The times whose Unix time is computed without wrap-around; every time
    that [time.Parse] returns (years 0 to 9999) is one of them. *)
Definition exact (t : Time) : Prop :=
  GoInt.minInt + unixToInternal <= sec t <= GoInt.maxInt ∧ 0 <= nsec t.

(** Days from 1970-01-01 to the civil date [y]-[m]-[d]. *)
Definition days_from_civil (y m d : Z) : Z :=
  let y' := if m <=? 2 then y - 1 else y in
  let era := y' / 400 in
  let yoe := y' - era * 400 in
  let mp := (m + 9) mod 12 in
  let doy := (153 * mp + 2) / 5 + d - 1 in
  let doe := yoe * 365 + yoe / 4 - yoe / 100 + doy in
  era * 146097 + doe - 719468.

Definition is_leap (y : Z) : bool :=
  (y mod 4 =? 0) && (negb (y mod 100 =? 0) || (y mod 400 =? 0)).

Definition days_in (y m : Z) : Z :=
  if m =? 2 then (if is_leap y then 29 else 28)
  else if (m =? 4) || (m =? 6) || (m =? 9) || (m =? 11) then 30 else 31.

(** Exactly [k] decimal digits. *)
Fixpoint digits (k : nat) (s : string) : option (Z * string) :=
  match k with
  | O => Some (0, s)
  | S k' =>
      match s with
      | String c rest =>
          d ← Strconv.digit_of c;
          '(v, rest') ← digits k' rest;
          Some (d * 10 ^ Z.of_nat k' + v, rest')
      | EmptyString => None
      end
  end.

Definition expect (c : ascii) (s : string) : option string :=
  match s with
  | String c' rest => if Ascii.eqb c c' then Some rest else None
  | EmptyString => None
  end.

(** [time.Parse(time.RFC3339, s)] on the strings of the form
    [YYYY-MM-DDThh:mm:ssZ] (UTC, no fraction), the form in which
    [Format(time.RFC3339)] writes a UTC time. Strings of the other forms of
    the layout are not covered by this function: the handlers below take the
    parser as a parameter, and this one serves to run them. *)
Definition ParseUTC (s : string) : option Time :=
  '(y, s) ← digits 4 s; s ← expect "-" s;
  '(m, s) ← digits 2 s; s ← expect "-" s;
  '(d, s) ← digits 2 s; s ← expect "T" s;
  '(hh, s) ← digits 2 s; s ← expect ":" s;
  '(mi, s) ← digits 2 s; s ← expect ":" s;
  '(ss, s) ← digits 2 s; s ← expect "Z" s;
  if String.eqb s "" && (1 <=? m) && (m <=? 12) && (1 <=? d)
     && (d <=? days_in y m) && (hh <? 24) && (mi <? 60) && (ss <? 60)
  then Some {| sec := days_from_civil y m d * 86400 + hh * 3600 + mi * 60 + ss
                       + unixToInternal;
               nsec := 0 |}
  else None.

End GoTime.

(** ** apis/feeds.go *)

Module Feeds.

Record FeedItem := {
  PostID : Z;
  UserID : Z;
  Username : string;
  Avatar : string;
  Content : string;
  MediaURLs : list string;
  CreatedAt : string;
  LikeCount : Z;
  CommentCount : Z;
  IsLiked : bool;
}.

Record FeedResponse := {
  Feeds : list FeedItem;
  NextCursor : string;
  Error : string;
}.

Record FeedsHandler := {
  feeds : list FeedItem;
}.

Definition NewFeedsHandler : FeedsHandler := {| feeds := [] |}.

Section WithParse.

(** [Parse s] is [time.Parse(time.RFC3339, s)], [None] when it fails. *)
Variable Parse : string → option GoTime.Time.

(** [created, _ := time.Parse(time.RFC3339, f.CreatedAt)]: the zero time
    when parsing fails. *)
Definition created (f : FeedItem) : GoTime.Time :=
  default GoTime.zero (Parse (CreatedAt f)).

(** [limit := 10], replaced by a [limit] parameter that [Atoi] accepts. *)
Definition limit_of (r : Request) : Z :=
  let limitStr := query_get r "limit" in
  if String.eqb limitStr "" then 10
  else match Strconv.Atoi limitStr with
       | (l, None) => l
       | (_, Some _) => 10
       end.

(** [beforeTime]: the zero time when [before] is present and is no
    [int64]; [now] when it is absent. *)
Definition beforeTime_of (now : GoTime.Time) (r : Request) : GoTime.Time :=
  let beforeStr := query_get r "before" in
  if negb (String.eqb beforeStr "") then
    match Strconv.ParseInt beforeStr with
    | (t, None) => GoTime.Unix t
    | (_, Some _) => GoTime.zero
    end
  else now.

(** The filter loop over [h.feeds], [result] being what has been appended
    so far; the test against [limit] follows the append. *)
Fixpoint collect (beforeStr : string) (beforeTime : GoTime.Time) (limit : Z)
    (fs : list FeedItem) (result : list FeedItem) : list FeedItem :=
  match fs with
  | [] => result
  | f :: rest =>
      if GoTime.Before (created f) beforeTime || String.eqb beforeStr "" then
        let result := result ++ [f] in
        if GoInt.len result >=? limit then result
        else collect beforeStr beforeTime limit rest result
      else collect beforeStr beforeTime limit rest result
  end.

Definition nextCursor_of (result : list FeedItem) : string :=
  match last result with
  | Some l => Strconv.FormatInt (GoTime.unix_of (created l))
  | None => ""
  end.

Definition GetNewsFeed (h : FeedsHandler) (now : GoTime.Time) (r : Request)
    : Outcome FeedResponse :=
  let beforeStr := query_get r "before" in
  let limit := limit_of r in
  let beforeTime := beforeTime_of now r in
  let result := collect beforeStr beforeTime limit (feeds h) [] in
  Reply StatusOK
    {| Feeds := result; NextCursor := nextCursor_of result; Error := "" |}.

End WithParse.

End Feeds.

(** ** apis/reactions.go *)

Module Reactions.

Record ReactionRequest := {
  ReactionType : string;
}.

Record ReactionResponse := {
  Message : string;
  Error : string;
}.

Definition message (m : string) : ReactionResponse :=
  {| Message := m; Error := "" |}.
Definition error (e : string) : ReactionResponse :=
  {| Message := ""; Error := e |}.

(** [reactions : map[string]map[string]string], post id to user id to
    reaction type; [None] is the nil map of the zero value
    [&ReactionsHandler{}]. The inner maps are all made by [make]. *)
Record ReactionsHandler := {
  reactions : option (gmap string (gmap string string));
}.

Definition NewReactionsHandler : ReactionsHandler :=
  {| reactions := Some ∅ |}.

Definition entries (h : ReactionsHandler) : gmap string (gmap string string) :=
  default ∅ (reactions h).

(** [h.reactions[postID][userID]]: the empty string when either key is
    missing. *)
Definition reaction_of (h : ReactionsHandler) (postID userID : string) : string :=
  default "" (default ∅ (entries h !! postID) !! userID).

(** The reactions stored for a (post, user) key. *)
Definition stored (h : ReactionsHandler) (postID userID : string) : option string :=
  entries h !! postID ≫= (.!! userID).

(** The simulated user of both handlers. *)
Definition userID : string := "user1".

Section WithTrimSpace.

(** [strings.TrimSpace] (Go standard library). *)
Variable TrimSpace : string → string.

Definition ReactToPost (h : ReactionsHandler) (r : Request)
    (body : option ReactionRequest)
    : ReactionsHandler * Outcome ReactionResponse :=
  let postID := var r "post_id" in
  match body with
  | None => (h, Reply StatusBadRequest (error "Invalid reaction type"))
  | Some req =>
      if String.eqb (TrimSpace (ReactionType req)) "" then
        (h, Reply StatusBadRequest (error "Invalid reaction type"))
      else
        match reactions h with
        | None => (h, Panic)
        | Some m =>
            let postReactions := default ∅ (m !! postID) in
            ({| reactions :=
                  Some (<[postID := <[userID := ReactionType req]> postReactions]> m) |},
             Reply StatusCreated (message "Reaction added"))
        end
  end.

End WithTrimSpace.

(** The decoded body is not used; [delete] works on the inner map that the
    outer map holds. *)
Definition RemoveReaction (h : ReactionsHandler) (r : Request)
    (body : option ReactionRequest)
    : ReactionsHandler * Outcome ReactionResponse :=
  let postID := var r "post_id" in
  match entries h !! postID with
  | None => (h, Reply StatusNotFound (error "Reaction not found"))
  | Some postReactions =>
      if String.eqb (default "" (postReactions !! userID)) "" then
        (h, Reply StatusNotFound (error "Reaction not found"))
      else
        ({| reactions :=
              Some (<[postID := delete userID postReactions]> (entries h)) |},
         Reply StatusOK (message "Reaction removed"))
  end.

(** One entry of [users]: [map[string]string{"user_id": userID,
    "username": userID}]. *)
Record ReactingUser := {
  user_id : string;
  username : string;
}.

Record GetReactionsResponse := {
  Count : Z;
  Types : list string;
  Users : list ReactingUser;
  Total : Z;
}.

Inductive GetBody :=
  | Listing (resp : GetReactionsResponse)
  | Failure (resp : ReactionResponse).

(** [typeSet] after the first loop of [GetReactions], which visits the
    reactions of the post in the order [visit]. *)
Definition typeSet (visit : list (string * string)) : gset string :=
  foldl (λ set entry, {[ entry.2 ]} ∪ set) ∅ visit.

(** [visit] is the order in which the first loop ranges over the reactions
    of the post, [visit_types] the order in which the second ranges over
    [typeSet]. *)
Definition GetReactions (h : ReactionsHandler) (visit : list (string * string))
    (visit_types : list string) (r : Request) : Outcome GetBody :=
  let postID := var r "post_id" in
  match entries h !! postID with
  | None => Reply StatusNotFound (Failure (error "Post not found"))
  | Some postReactions =>
      let count := Z.of_nat (size postReactions) in
      let users :=
        foldl (λ users entry,
                 users ++ [{| user_id := entry.1; username := entry.1 |}])
          [] visit in
      let types := foldl (λ types t, types ++ [t]) [] visit_types in
      Reply StatusOK
        (Listing {| Count := count; Types := types; Users := users;
                    Total := count |})
  end.

(** The two orders are orders of the two maps. *)
Definition ranges_over (visit : list (string * string))
    (visit_types : list string) (h : ReactionsHandler) (r : Request) : Prop :=
  visit ≡ₚ map_to_list (default ∅ (entries h !! var r "post_id"))
  ∧ visit_types ≡ₚ elements (typeSet visit).

(** The ASCII part of [strings.TrimSpace]: leading and trailing blanks,
    tabs, line feeds, vertical tabs, form feeds and carriage returns are
    taken off. It serves to run [ReactToPost]. *)
Definition is_space (c : ascii) : bool :=
  let n := nat_of_ascii c in
  (n =? 32)%nat || ((9 <=? n)%nat && (n <=? 13)%nat).

Fixpoint trim_left (s : string) : string :=
  match s with
  | String c rest => if is_space c then trim_left rest else s
  | EmptyString => EmptyString
  end.

Definition TrimSpaceASCII (s : string) : string :=
  String.rev (trim_left (String.rev (trim_left s))).

(** The requests that write to the store, and a handler serving a sequence
    of them. A panic leaves the store as it was. *)
Inductive Op :=
  | OpReact (r : Request) (body : option ReactionRequest)
  | OpRemove (r : Request) (body : option ReactionRequest).

Definition step (TrimSpace : string → string) (h : ReactionsHandler) (o : Op)
    : ReactionsHandler :=
  match o with
  | OpReact r body => (ReactToPost TrimSpace h r body).1
  | OpRemove r body => (RemoveReaction h r body).1
  end.

Definition run (TrimSpace : string → string) (ops : list Op)
    (h : ReactionsHandler) : ReactionsHandler :=
  foldl (step TrimSpace) h ops.

End Reactions.

(** ** apis/media.go *)

Module Medias.

Record Media := {
  ID : Z;
  Type_ : string;
  PostID : Z;
  URL : string;
}.

Record MediaResponse := {
  MediaID : Z;
  Message : string;
  Error : string;
}.

Definition error (e : string) : MediaResponse :=
  {| MediaID := 0; Message := ""; Error := e |}.

Record MediaHandler := {
  nextID : Z;
  medias : list Media;
}.

Definition NewMediaHandler : MediaHandler := {| nextID := 1; medias := [] |}.

(** A request as [UploadMedia] reads it: [BadForm] when
    [ParseMultipartForm] fails; otherwise the form values and, when the part
    [file] is there, the file name of its header. *)
Inductive Upload :=
  | BadForm
  | Form (values : gmap string (list string)) (file : option string).

(** [r.FormValue(k)]. *)
Definition FormValue (values : gmap string (list string)) (k : string) : string :=
  match values !! k with
  | Some (v :: _) => v
  | _ => EmptyString
  end.

Section WithFilesystem.

(** [filepath.Base], [filepath.Join] of two elements (Go standard library),
    and whether [os.Create] succeeds on a path. *)
Variable Base : string → string.
Variable Join : string → string → string.
Variable Create : string → bool.

(** [fmt.Sprintf("%d_%s", id, name)]. *)
Definition filename_of (id : Z) (name : string) : string :=
  Strconv.Itoa id +:+ "_" +:+ name.

Definition UploadMedia (h : MediaHandler) (u : Upload)
    : MediaHandler * Outcome MediaResponse :=
  match u with
  | BadForm => (h, Reply StatusBadRequest (error "Invalid form data"))
  | Form values file =>
      let mediaType := FormValue values "type" in
      if negb (String.eqb mediaType "image") && negb (String.eqb mediaType "video")
      then (h, Reply StatusBadRequest (error "Invalid media type"))
      else
        match Strconv.Atoi (FormValue values "post_id") with
        | (_, Some _) => (h, Reply StatusNotFound (error "Post not found"))
        | (postID, None) =>
            if postID <=? 0
            then (h, Reply StatusNotFound (error "Post not found"))
            else
              match file with
              | None => (h, Reply StatusBadRequest (error "File is required"))
              | Some name =>
                  let uploadDir := "./uploads" in
                  let filename := filename_of (nextID h) (Base name) in
                  let dstPath := Join uploadDir filename in
                  if negb (Create dstPath)
                  then (h, Reply StatusInternalServerError
                              (error "Cannot save file"))
                  else
                    let media := {| ID := nextID h; Type_ := mediaType;
                                    PostID := postID; URL := dstPath |} in
                    ({| nextID := GoInt.add (nextID h) 1;
                        medias := medias h ++ [media] |},
                     Reply StatusCreated
                       {| MediaID := ID media; Message := "Media uploaded";
                          Error := "" |})
              end
        end
  end.

End WithFilesystem.

(** The two checks on the form values, as [UploadMedia] makes them. *)
Definition valid_type (values : gmap string (list string)) : Prop :=
  FormValue values "type" = "image" ∨ FormValue values "type" = "video".

Definition valid_post_id (values : gmap string (list string)) : Prop :=
  ∃ postID, Strconv.Atoi (FormValue values "post_id") = (postID, None)
            ∧ 0 < postID.

(** A handler serving a sequence of uploads; each comes with what
    [os.Create] does at its time. *)
Definition run (Base : string → string) (Join : string → string → string)
    (uploads : list ((string → bool) * Upload)) (h : MediaHandler)
    : MediaHandler :=
  foldl (λ h upload, (UploadMedia Base Join upload.1 h upload.2).1) h uploads.

End Medias.

(** ** apis/auth.go: accounts *)

Module Auth.

Record User := {
  ID : Z;
  Username : string;
  Email : string;
  Password : string;
  IsDeleted : bool;
}.

Record RegisterRequest := {
  reg_username : string;
  reg_email : string;
  reg_password : string;
}.

Record LoginRequest := {
  login : string;
  login_password : string;
}.

Record ChangePasswordRequest := {
  old_password : string;
  new_password : string;
}.

(** [Users : map[string]User], keyed by user name and by e-mail address;
    [None] is the nil map, which [Register] replaces by a new map. *)
Record AuthHandler := {
  Users : option (gmap string User);
}.

Definition entries (h : AuthHandler) : gmap string User := default ∅ (Users h).

(** The status codes of these handlers. *)
Inductive Status :=
  | StatusOK                (* 200 *)
  | StatusBadRequest        (* 400 *)
  | StatusUnauthorized      (* 401 *)
  | StatusForbidden         (* 403 *)
  | StatusMethodNotAllowed. (* 405 *)

Inductive Body :=
  | Text (msg : string)
  | ErrorBody (msg : string)
  | Registered (user_id : Z) (token : string)
  | Token (token : string)
  | MessageBody (msg : string).

Definition Response : Type := Status * Body.

Definition method_not_allowed : Response :=
  (StatusMethodNotAllowed, Text "Method Not Allowed").

(** ["fake-jwt-token-" + time.Now().Format("150405")], [clock] being the
    formatted time. *)
Definition token_of (clock : string) : string := "fake-jwt-token-" +:+ clock.

Section WithToLower.

(** [strings.ToLower] (Go standard library). *)
Variable ToLower : string → string.

(** [method] is [r.Method]; [body] is [None] when decoding fails. *)
Definition Register (h : AuthHandler) (method clock : string)
    (body : option RegisterRequest) : AuthHandler * Response :=
  if negb (String.eqb method "POST") then (h, method_not_allowed)
  else
    match body with
    | None => (h, (StatusBadRequest, ErrorBody "Invalid data"))
    | Some req =>
        if String.eqb (reg_username req) "" || String.eqb (reg_email req) ""
           || String.eqb (reg_password req) ""
        then (h, (StatusBadRequest, ErrorBody "Invalid data"))
        else
          let newID := Z.of_nat (size (entries h)) + 1 in
          let user := {| ID := newID; Username := reg_username req;
                         Email := reg_email req; Password := reg_password req;
                         IsDeleted := false |} in
          let users := <[ToLower (reg_username req) := user]> (entries h) in
          let users := <[ToLower (reg_email req) := user]> users in
          ({| Users := Some users |},
           (StatusOK, Registered newID (token_of clock)))
    end.

Definition Login (h : AuthHandler) (method clock : string)
    (body : option LoginRequest) : Response :=
  if negb (String.eqb method "POST") then method_not_allowed
  else
    match body with
    | None => (StatusBadRequest, ErrorBody "Invalid data")
    | Some req =>
        match entries h !! ToLower (login req) with
        | Some user =>
            if negb (String.eqb (Password user) (login_password req))
               || IsDeleted user
            then (StatusUnauthorized, ErrorBody "Invalid credentials")
            else (StatusOK, Token (token_of clock))
        | None => (StatusUnauthorized, ErrorBody "Invalid credentials")
        end
    end.

End WithToLower.

(** The current user of the two handlers below is the entry under the key
    ["alice"]. Writing it back finds the map allocated. *)
Definition current : string := "alice".

Definition ChangePassword (h : AuthHandler) (method : string)
    (body : option ChangePasswordRequest) : AuthHandler * Response :=
  if negb (String.eqb method "PUT") then (h, method_not_allowed)
  else
    match entries h !! current with
    | None => (h, (StatusForbidden, ErrorBody "Unauthorized"))
    | Some currentUser =>
        match body with
        | None => (h, (StatusBadRequest, ErrorBody "Invalid data"))
        | Some req =>
            if negb (String.eqb (Password currentUser) (old_password req))
            then (h, (StatusForbidden, ErrorBody "Invalid old password"))
            else
              let currentUser :=
                {| ID := ID currentUser; Username := Username currentUser;
                   Email := Email currentUser; Password := new_password req;
                   IsDeleted := IsDeleted currentUser |} in
              ({| Users := Some (<[current := currentUser]> (entries h)) |},
               (StatusOK, MessageBody "Password updated"))
        end
    end.

Definition DeleteAccount (h : AuthHandler) (method : string)
    : AuthHandler * Response :=
  if negb (String.eqb method "DELETE") then (h, method_not_allowed)
  else
    match entries h !! current with
    | None => (h, (StatusForbidden, ErrorBody "Unauthorized"))
    | Some currentUser =>
        let currentUser :=
          {| ID := ID currentUser; Username := Username currentUser;
             Email := Email currentUser; Password := Password currentUser;
             IsDeleted := true |} in
        ({| Users := Some (<[current := currentUser]> (entries h)) |},
         (StatusOK, MessageBody "Account soft deleted"))
    end.

(** The requests that [Register] accepts: no field is empty. *)
Definition valid_registration (req : RegisterRequest) : Prop :=
  reg_username req ≠ "" ∧ reg_email req ≠ "" ∧ reg_password req ≠ "".

End Auth.

(** ** apis/comments.go *)

Module Comments.

Record Comment := {
  CommentID : Z;
  UserID : Z;
  Username : string;
  Avatar : string;
  Content : string;
  CreatedAt : string;
  UpdatedAt : string;
  IsDeleted : bool;
}.

Record CommentRequest := {
  req_content : string;
}.

(** [comments : map[int][]Comment], post id to the comments of the post. *)
Record CommentsHandler := {
  comments : gmap Z (list Comment);
  nextID : Z;
}.

Definition NewCommentsHandler : CommentsHandler :=
  {| comments := ∅; nextID := 1 |}.

Inductive Body :=
  | CommentResponse (comment_id : Z) (message error : string)
  | GetCommentsResponse (listed : list Comment) (total : Z).

Definition message (m : string) : Body := CommentResponse 0 m "".
Definition error (e : string) : Body := CommentResponse 0 "" e.

(** [postID, _ := strconv.Atoi(vars["post_id"])]: the error is dropped, the
    value of a failed conversion is used. *)
Definition postID_of (r : Request) : Z := (Strconv.Atoi (var r "post_id")).1.
Definition commentID_of (r : Request) : Z :=
  (Strconv.Atoi (var r "comment_id")).1.

Definition GetComments (h : CommentsHandler) (r : Request) : Outcome Body :=
  match comments h !! postID_of r with
  | None => Reply StatusNotFound (error "Post not found")
  | Some l => Reply StatusOK (GetCommentsResponse l (GoInt.len l))
  end.

(** The body is what [Decode] made of it, [None] when it failed. *)
Definition CreateComment (h : CommentsHandler) (r : Request)
    (body : option CommentRequest) : CommentsHandler * Outcome Body :=
  let postID := postID_of r in
  match body with
  | Some req =>
      if String.eqb (req_content req) "" then
        (h, Reply StatusBadRequest (error "Invalid content"))
      else
        let comment :=
          {| CommentID := nextID h; UserID := 1; Username := "user1";
             Avatar := ""; Content := req_content req;
             CreatedAt := "2025-08-15T00:00:00Z";
             UpdatedAt := "2025-08-15T00:00:00Z"; IsDeleted := false |} in
        ({| comments :=
              <[postID := default [] (comments h !! postID) ++ [comment]]>
                (comments h);
            nextID := GoInt.add (nextID h) 1 |},
         Reply StatusCreated
           (CommentResponse (CommentID comment) "Comment created" ""))
  | None => (h, Reply StatusBadRequest (error "Invalid content"))
  end.

(** The inner loop of [UpdateComment] and [DeleteComment]: the index and
    the value of the first comment of the list with the id. *)
Fixpoint find_comment (commentID : Z) (l : list Comment)
    : option (nat * Comment) :=
  match l with
  | [] => None
  | c :: rest =>
      if CommentID c =? commentID then Some (0%nat, c)
      else prod_map S id <$> find_comment commentID rest
  end.

(** The outer loop, over the entries of the map in the order [visit] of
    the iteration: [h.comments[postID][i] = c] with the changed copy [c] of
    the comment found, and [found = true]. The slice indexed is the one of
    the map, which is the one the loop ranges over, so that [i] is an index
    of it. *)
Definition rewrite_found (commentID : Z) (change : Comment → Comment)
    (visit : list (Z * list Comment)) (m : gmap Z (list Comment))
    : gmap Z (list Comment) * bool :=
  foldl
    (λ acc entry,
       match find_comment commentID entry.2 with
       | Some (i, c) =>
           (<[entry.1 := <[i := change c]> (default [] (acc.1 !! entry.1))]>
              acc.1,
            true)
       | None => acc
       end)
    (m, false) visit.

(** What one turn of the outer loop makes of the list it visits. *)
Definition rewritten (commentID : Z) (change : Comment → Comment)
    (l : list Comment) : list Comment :=
  match find_comment commentID l with
  | Some (i, c) => <[i := change c]> l
  | None => l
  end.

(** [visit] is an order in which [range h.comments] may yield the map. *)
Definition ranges_over (visit : list (Z * list Comment)) (h : CommentsHandler)
    : Prop :=
  visit ≡ₚ map_to_list (comments h).

(** [c.Content = req.Content; c.UpdatedAt = "2025-08-15T01:00:00Z"]. *)
Definition edited (content : string) (c : Comment) : Comment :=
  {| CommentID := CommentID c; UserID := UserID c; Username := Username c;
     Avatar := Avatar c; Content := content; CreatedAt := CreatedAt c;
     UpdatedAt := "2025-08-15T01:00:00Z"; IsDeleted := IsDeleted c |}.

(** [c.IsDeleted = true]. *)
Definition deleted (c : Comment) : Comment :=
  {| CommentID := CommentID c; UserID := UserID c; Username := Username c;
     Avatar := Avatar c; Content := Content c; CreatedAt := CreatedAt c;
     UpdatedAt := UpdatedAt c; IsDeleted := true |}.

Definition UpdateComment (h : CommentsHandler) (visit : list (Z * list Comment))
    (r : Request) (body : option CommentRequest)
    : CommentsHandler * Outcome Body :=
  let commentID := commentID_of r in
  match body with
  | Some req =>
      if String.eqb (req_content req) "" then
        (h, Reply StatusBadRequest (error "Invalid content"))
      else
        let '(m, found) :=
          rewrite_found commentID (edited (req_content req)) visit
            (comments h) in
        let h' := {| comments := m; nextID := nextID h |} in
        if negb found then
          (h', Reply StatusNotFound (error "Comment not found"))
        else (h', Reply StatusOK (message "Comment updated"))
  | None => (h, Reply StatusBadRequest (error "Invalid content"))
  end.

Definition DeleteComment (h : CommentsHandler) (visit : list (Z * list Comment))
    (r : Request) : CommentsHandler * Outcome Body :=
  let commentID := commentID_of r in
  let '(m, found) := rewrite_found commentID deleted visit (comments h) in
  let h' := {| comments := m; nextID := nextID h |} in
  if negb found then (h', Reply StatusNotFound (error "Comment not found"))
  else (h', Reply StatusOK (message "Comment soft deleted")).

(** The handlers reached from [NewCommentsHandler] by [n] requests. *)
Inductive reachable : nat → CommentsHandler → Prop :=
  | reach_new : reachable 0 NewCommentsHandler
  | reach_get n h : reachable n h → reachable (S n) h
  | reach_create n h r body :
      reachable n h → reachable (S n) (CreateComment h r body).1
  | reach_update n h visit r body :
      reachable n h → ranges_over visit h →
      reachable (S n) (UpdateComment h visit r body).1
  | reach_delete n h visit r :
      reachable n h → ranges_over visit h →
      reachable (S n) (DeleteComment h visit r).1.

(** The ids of a list of comments, and what the ids of every handler
    reached from [NewCommentsHandler] satisfy: they lie below [nextID], and
    no id occurs twice, in one list or in two. *)
Definition ids (l : list Comment) : list Z := CommentID <$> l.

Definition fresh_ids (h : CommentsHandler) : Prop :=
  (∀ p l x, comments h !! p = Some l → x ∈ ids l → 1 <= x < nextID h)
  ∧ (∀ p l, comments h !! p = Some l → NoDup (ids l))
  ∧ (∀ p1 p2 l1 l2 x,
       comments h !! p1 = Some l1 → comments h !! p2 = Some l2 →
       x ∈ ids l1 → x ∈ ids l2 → p1 = p2).

(** The comments of the handler: post, position in the list of the post,
    comment. *)
Definition holds (h : CommentsHandler) (postID : Z) (i : nat) (c : Comment)
    : Prop :=
  ∃ l, comments h !! postID = Some l ∧ l !! i = Some c.

(** What the two loops do to a store in which no id occurs twice: [change]
    on the comments with the id, the rest as it is. *)
Definition changed (commentID : Z) (change : Comment → Comment)
    (m : gmap Z (list Comment)) : gmap Z (list Comment) :=
  fmap (M := list)
    (λ c, if CommentID c =? commentID then change c else c) <$> m.

End Comments.

(** ** apis/user.go: the list of user names *)

Module Usernames.

Record Handler := {
  Usernames : list string;
}.

(** The body of a request: [io.ReadAll] fails, [json.Unmarshal] into a
    [map[string]string] fails, or the map it gives. *)
Inductive RequestBody :=
  | Unreadable
  | InvalidJSON
  | Data (data : gmap string string).

(** What is written: the text of [http.Error], the list of names, or the
    map with the one member [message]. *)
Inductive Body :=
  | Text (text : string)
  | Names (names : list string)
  | Message (message : string).

Definition GetUsername (h : Handler) : Outcome Body :=
  Reply StatusOK (Names (Usernames h)).

(** [visit] is the order in which [range data] yields the map. *)
Definition PostUsername (h : Handler) (visit : list (string * string))
    (body : RequestBody) : Handler * Outcome Body :=
  match body with
  | Unreadable =>
      (h, Reply StatusInternalServerError (Text "Failed to read body"))
  | InvalidJSON => (h, Reply StatusBadRequest (Text "Invalid JSON"))
  | Data data =>
      let usernames :=
        foldl (λ usernames entry,
                 if negb (String.eqb entry.2 "") then usernames ++ [entry.2]
                 else usernames)
          (Usernames h) visit in
      ({| Usernames := usernames |},
       Reply StatusOK (Message "added successfully"))
  end.

Definition ranges_over (visit : list (string * string)) (body : RequestBody)
    : Prop :=
  match body with
  | Data data => visit ≡ₚ map_to_list data
  | _ => True
  end.

End Usernames.

(** ** The words of the specification *)

Module Spec.

(** The sub-sequence [[offset, offset+limit)] of a collection, clamped to
    the collection. *)
Definition window {A} (l : list A) (offset limit : Z) : list A :=
  take (Z.to_nat limit) (drop (Z.to_nat offset) l).

Definition clamp (x lo hi : Z) : Z := Z.max lo (Z.min x hi).

(** A query parameter that is no number: [Atoi] finds a syntax error. *)
Definition non_numeric (s : string) : Prop :=
  (Strconv.Atoi s).2 = Some Strconv.ErrSyntax.

(** The feed of the specification: the posts created strictly before the
    Unix time [t], in the order of the collection, [limit] of them at most,
    and the cursor that goes with them. *)
Definition feed_before (Parse : string → option GoTime.Time) (t limit : Z)
    (fs : list Feeds.FeedItem) : list Feeds.FeedItem :=
  take (Z.to_nat limit)
    (List.filter (fun f => GoTime.unix_of (Feeds.created Parse f) <? t) fs).

Definition cursor_of (Parse : string → option GoTime.Time)
    (result : list Feeds.FeedItem) : string :=
  match last result with
  | Some l => Strconv.FormatInt (GoTime.unix_of (Feeds.created Parse l))
  | None => ""
  end.

End Spec.

(** ** Sample requests and handler states *)

Module Samples.

Definition request (vars : list (string * string))
    (query : list (string * list string)) : Request :=
  {| Vars := list_to_map vars; Query := list_to_map query |}.

Definition post (id user : Z) (content : string) (deleted : bool) : Posts.Post :=
  {| Posts.PostID := id; Posts.UserID := user; Posts.Content := content;
     Posts.CreatedAt := "2025-08-14T12:00:00Z"; Posts.MediaIDs := None;
     Posts.IsDeleted := deleted |}.

Definition posts_handler (l : list (Z * Posts.Post)) : Posts.PostsHandler :=
  {| Posts.Posts := Some (list_to_map l) |}.

(** Post 1 is the current user's, post 2 another user's. *)
Definition two_posts : Posts.PostsHandler :=
  posts_handler [(1, post 1 1 "mine" false); (2, post 2 2 "theirs" false)].

Definition json (content : string) (media : option (list Z)) : Posts.PostJSON :=
  {| Posts.j_post_id := 0; Posts.j_user_id := 0; Posts.j_content := content;
     Posts.j_createdAt := ""; Posts.j_media_ids := media;
     Posts.j_unknown := [] |}.

(** A body that tries to set every field the handler owns. *)
Definition forged_json : Posts.PostJSON :=
  {| Posts.j_post_id := 42; Posts.j_user_id := 7; Posts.j_content := "hello";
     Posts.j_createdAt := "1999-01-01T00:00:00Z"; Posts.j_media_ids := Some [3];
     Posts.j_unknown := [("deleted", "true"); ("IsDeleted", "true")] |}.

Definition notification (id : Z) : Notifications.Notification :=
  {| Notifications.ID := id; Notifications.Type_ := "like";
     Notifications.SourceUserID := 1; Notifications.PostID := 1;
     Notifications.Read := false;
     Notifications.CreatedAt := "2025-08-14T12:00:00Z" |}.

Definition three_notifications : Notifications.NotificationHandler :=
  {| Notifications.notifications :=
       [notification 1; notification 2; notification 3] |}.

(** The entries of a posts handler, in the order of one iteration. *)
Definition visit_of (h : Posts.PostsHandler) : list (Z * Posts.Post) :=
  map_to_list (Posts.entries h).

Definition feed_item (id : Z) (createdAt : string) : Feeds.FeedItem :=
  {| Feeds.PostID := id; Feeds.UserID := 2; Feeds.Username := "user2";
     Feeds.Avatar := ""; Feeds.Content := "post"; Feeds.MediaURLs := [];
     Feeds.CreatedAt := createdAt; Feeds.LikeCount := 0;
     Feeds.CommentCount := 0; Feeds.IsLiked := false |}.

(** Three posts created at the Unix times 100, 90 and 80. *)
Definition at_100 : Feeds.FeedItem := feed_item 1 "1970-01-01T00:01:40Z".
Definition at_90 : Feeds.FeedItem := feed_item 2 "1970-01-01T00:01:30Z".
Definition at_80 : Feeds.FeedItem := feed_item 3 "1970-01-01T00:01:20Z".

Definition three_feeds : Feeds.FeedsHandler :=
  {| Feeds.feeds := [at_100; at_90; at_80] |}.

(** 2025-08-14T12:00:00Z, a value for [time.Now()]. *)
Definition noon : GoTime.Time := GoTime.Unix 1755172800.

(** A posts handler whose map has been allocated, and its zero value. *)
Definition empty_posts : Posts.PostsHandler := {| Posts.Posts := Some ∅ |}.
Definition zero_posts : Posts.PostsHandler := {| Posts.Posts := None |}.

Definition now_str : string := "2025-08-14T12:00:00Z".

Definition follow_request (target : string) : Request :=
  request [("target_user_id", target)] [].

Definition react (t : string) : option Reactions.ReactionRequest :=
  Some {| Reactions.ReactionType := t |}.

Definition post_request (id : string) : Request := request [("post_id", id)] [].

(** An upload form with the three fields of the route. *)
Definition upload (type post_id : string) (file : option string) : Medias.Upload :=
  Medias.Form (list_to_map [("type", [type]); ("post_id", [post_id])]) file.

(** Stand-ins for the file system: the base name is the name, joining puts
    a slash in between, and every file can be created. *)
Definition base_id (name : string) : string := name.
Definition join_slash (dir name : string) : string := dir +:+ "/" +:+ name.
Definition create_ok (path : string) : bool := true.

End Samples.

(** ** Further sample data *)

Module Fixtures.

(** The ASCII part of [strings.ToLower]: the letters A to Z are lowered. *)
Definition lower_ascii_char (c : ascii) : ascii :=
  let n := nat_of_ascii c in
  if ((65 <=? n) && (n <=? 90))%nat then ascii_of_nat (n + 32) else c.

Fixpoint lower_ascii (s : string) : string :=
  match s with
  | EmptyString => EmptyString
  | String c rest => String (lower_ascii_char c) (lower_ascii rest)
  end.

Definition alice_request : Auth.RegisterRequest :=
  {| Auth.reg_username := "Alice"; Auth.reg_email := "alice@example.com";
     Auth.reg_password := "secret" |}.

(** A second registration under the same name, in other letters. *)
Definition mallory_request : Auth.RegisterRequest :=
  {| Auth.reg_username := "ALICE"; Auth.reg_email := "mallory@example.com";
     Auth.reg_password := "hunter2" |}.

Definition login_with (name password : string) : option Auth.LoginRequest :=
  Some {| Auth.login := name; Auth.login_password := password |}.

(** The handler as [main] builds it. *)
Definition new_auth : Auth.AuthHandler := {| Auth.Users := Some ∅ |}.

(** Two notifications of user 1 and one of user 2, all unread. *)
Definition note (id source : Z) : Notifications.Notification :=
  {| Notifications.ID := id; Notifications.Type_ := "like";
     Notifications.SourceUserID := source; Notifications.PostID := 1;
     Notifications.Read := false;
     Notifications.CreatedAt := "2025-08-14T12:00:00Z" |}.

Definition mixed_notifications : Notifications.NotificationHandler :=
  {| Notifications.notifications := [note 1 1; note 2 2; note 3 1] |}.

Definition notification_request (id : string) : Request :=
  Samples.request [("notification_id", id)] [].

Definition comment_request (id : string) : Request :=
  Samples.request [("comment_id", id)] [].

Definition content (s : string) : option Comments.CommentRequest :=
  Some {| Comments.req_content := s |}.

(** Two comments on post 7 and one on post 8. *)
Definition three_comments : Comments.CommentsHandler :=
  let h := Comments.NewCommentsHandler in
  let h :=
    (Comments.CreateComment h (Samples.post_request "7") (content "first")).1 in
  let h :=
    (Comments.CreateComment h (Samples.post_request "8") (content "second")).1 in
  (Comments.CreateComment h (Samples.post_request "7") (content "third")).1.

Definition visit_comments (h : Comments.CommentsHandler)
    : list (Z * list Comments.Comment) :=
  map_to_list (Comments.comments h).

(** Three users have reacted to post 10, two of them with a like. *)
Definition three_reactions : Reactions.ReactionsHandler :=
  {| Reactions.reactions :=
       Some {[ "10" := list_to_map
                         [("user1", "like"); ("user2", "love");
                          ("user3", "like")] ]} |}.

Definition visit_reactions (h : Reactions.ReactionsHandler) (postID : string)
    : list (string * string) :=
  map_to_list (default ∅ (Reactions.entries h !! postID)).

Definition user_request (id : string) : Request :=
  Samples.request [("user_id", id)] [].

Definition profile (id : Z) (name bio : string) (private : bool)
    : Profiles.UserProfile :=
  {| Profiles.UserID := id; Profiles.Username := name; Profiles.Avatar := "";
     Profiles.Bio := bio; Profiles.CreatedAt := "2025-08-14T12:00:00Z";
     Profiles.IsPrivate := private |}.

(** User 1 is public, user 2 private. *)
Definition two_profiles : Profiles.ProfileHandler :=
  {| Profiles.Users :=
       Some (list_to_map [(1, profile 1 "Alice" "hi" false);
                          (2, profile 2 "Bob" "" true)]) |}.

(** User 1 has made its profile private. *)
Definition private_owner : Profiles.ProfileHandler :=
  {| Profiles.Users := Some (list_to_map [(1, profile 1 "Alice" "hi" true)]) |}.

(** [strings.Contains] on bytes: [substr] is a prefix of a suffix of [s]. *)
Fixpoint contains (s substr : string) : bool :=
  String.prefix substr s
  || match s with
     | EmptyString => false
     | String _ rest => contains rest substr
     end.

(** The handlers as [main] builds them. *)
Definition main_profiles : Profiles.ProfileHandler := {| Profiles.Users := None |}.

Definition image_upload (post_id : string) : Medias.Upload :=
  Samples.upload "image" post_id (Some "cat.png").

Definition two_names : gmap string string :=
  list_to_map [("additionalProp1", "carol"); ("additionalProp2", "")].

Definition bob_request : Auth.RegisterRequest :=
  {| Auth.reg_username := "Bob"; Auth.reg_email := "bob@example.com";
     Auth.reg_password := "pass" |}.

Definition main_reactions : Reactions.ReactionsHandler :=
  {| Reactions.reactions := None |}.

End Fixtures.

(** * Properties *)

(** Closing a goal on concrete data by running the definitions. *)
Ltac by_running := vm_compute; repeat split; congruence.

(** ** Integers, slices and windows *)

Lemma wrap_exact z :
  GoInt.minInt <= z <= GoInt.maxInt → GoInt.wrap z = z.
Proof.
  unfold GoInt.wrap, GoInt.minInt, GoInt.maxInt. intros Hz.
  rewrite Z.mod_small; lia.
Qed.

Lemma len_nonneg {A} (l : list A) : 0 <= GoInt.len l.
Proof. unfold GoInt.len. lia. Qed.

Lemma len_lt_maxInt_add offset limit :
  0 <= offset → 0 <= limit → offset + limit <= GoInt.maxInt →
  GoInt.add offset limit = offset + limit.
Proof.
  intros. unfold GoInt.add. apply wrap_exact.
  unfold GoInt.minInt. lia.
Qed.

Lemma window_length {A} (l : list A) offset limit :
  0 <= offset → 0 <= limit →
  GoInt.len (Spec.window l offset limit)
  = Spec.clamp limit 0 (Z.max 0 (GoInt.len l - offset)).
Proof.
  intros Ho Hl. unfold Spec.window, Spec.clamp, GoInt.len.
  rewrite length_take, length_drop. lia.
Qed.

Lemma window_beyond {A} (l : list A) offset limit :
  GoInt.len l <= offset → Spec.window l offset limit = [].
Proof.
  unfold Spec.window, GoInt.len. intros Ho.
  rewrite drop_ge by lia. by rewrite take_nil.
Qed.

(** A slice expression whose bounds are in order is a window. *)
Lemma slice_window {A} (l : list A) lo hi :
  0 <= lo → lo <= hi → hi <= GoInt.len l →
  GoSlice.slice l lo hi = Some (Spec.window l lo (hi - lo)).
Proof.
  intros H0 H1 H2. unfold GoSlice.slice.
  assert ((0 <=? lo) && (lo <=? hi) && (hi <=? GoInt.len l) = true) as ->; [|done].
  rewrite !andb_true_iff, !Z.leb_le. done.
Qed.

Lemma slice_panics {A} (l : list A) lo hi :
  lo < 0 ∨ hi < lo ∨ GoInt.len l < hi → GoSlice.slice l lo hi = None.
Proof.
  intros H. unfold GoSlice.slice.
  assert ((0 <=? lo) && (lo <=? hi) && (hi <=? GoInt.len l) = false) as ->; [|done].
  rewrite !andb_false_iff, !Z.leb_gt. lia.
Qed.

(** Cutting the window at the end of the collection does not change it. *)
Lemma window_cut {A} (l : list A) offset limit :
  0 <= offset → GoInt.len l - offset <= limit →
  Spec.window l offset (GoInt.len l - offset) = Spec.window l offset limit.
Proof.
  unfold Spec.window, GoInt.len. intros Ho Hl.
  rewrite !take_ge; [done | |]; rewrite length_drop; lia.
Qed.

(** ** strconv: the range of [Atoi] and the numerals of [Itoa] *)

Lemma ParseUint_loop_range s n :
  0 <= n <= Strconv.maxUint64 →
  0 <= (Strconv.ParseUint_loop n s).1 <= Strconv.maxUint64.
Proof.
  revert n. induction s as [|c s IH]; intros n Hn; simpl; [done|].
  destruct (Strconv.digit_of c) as [d|] eqn:Hd; [|by vm_compute].
  destruct (Z.geb_spec n (Strconv.maxUint64 / 10 + 1)); [by vm_compute|].
  destruct (Z.gtb_spec (n * 10 + d) Strconv.maxUint64); [by vm_compute|].
  apply IH. split; [|lia].
  unfold Strconv.digit_of in Hd. case_match; [|done].
  injection Hd as <-. lia.
Qed.

Lemma ParseUint_range s :
  0 <= (Strconv.ParseUint s).1 <= Strconv.maxUint64.
Proof.
  unfold Strconv.ParseUint. destruct s; [by vm_compute|].
  by apply ParseUint_loop_range.
Qed.

Lemma Atoi_range s :
  GoInt.minInt <= (Strconv.Atoi s).1 <= GoInt.maxInt.
Proof.
  unfold Strconv.Atoi, Strconv.ParseInt, GoInt.minInt, GoInt.maxInt.
  change (2 ^ 63) with 9223372036854775808.
  destruct s as [|c rest]; [cbn [fst]; lia|].
  match goal with |- context [Strconv.ParseUint ?s1] =>
    pose proof (ParseUint_range s1) as Hun;
    destruct (Strconv.ParseUint s1) as [un [[]|]] end;
    cbn [fst] in Hun; [cbn [fst]; lia|..];
    destruct (Ascii.eqb c "-"); cbn [negb andb];
    try destruct (Z.geb_spec un 9223372036854775808);
    try destruct (Z.gtb_spec un 9223372036854775808);
    cbn [fst]; lia.
Qed.

Lemma digit_of_pretty_N_char (d : N) :
  (d < 10)%N → Strconv.digit_of (pretty_N_char d) = Some (Z.of_N d).
Proof.
  intros Hd.
  assert (d = 0 ∨ d = 1 ∨ d = 2 ∨ d = 3 ∨ d = 4 ∨ d = 5 ∨ d = 6 ∨ d = 7
          ∨ d = 8 ∨ d = 9)%N as Hcases by lia.
  repeat destruct Hcases as [-> | Hcases]; try done. by subst.
Qed.

(** Reading the digits that [pretty_N_go] writes in front of [s]. *)
Lemma ParseUint_loop_pretty (x : N) s :
  Z.of_N x <= 2 ^ 63 →
  Strconv.ParseUint_loop 0 (pretty_N_go x s)
  = Strconv.ParseUint_loop (Z.of_N x) s.
Proof.
  revert s. induction (N.lt_wf_0 x) as [x _ IH]; intros s Hx.
  destruct (decide (x = 0%N)) as [->|Hpos]; [done|].
  rewrite pretty_N_go_step by lia.
  rewrite IH; [| apply N.div_lt; lia | ].
  2:{ rewrite N2Z.inj_div. change (Z.of_N 10) with 10.
      pose proof (Z.div_le_upper_bound (Z.of_N x) 10 (2 ^ 63)). lia. }
  simpl. rewrite digit_of_pretty_N_char by (apply N.mod_lt; lia).
  rewrite N2Z.inj_div, N2Z.inj_mod. change (Z.of_N 10) with 10.
  pose proof (Z.div_mod (Z.of_N x) 10 ltac:(lia)) as Hdm.
  pose proof (Z.mod_pos_bound (Z.of_N x) 10 ltac:(lia)) as Hm.
  destruct (Z.geb_spec (Z.of_N x / 10) (Strconv.maxUint64 / 10 + 1)) as [Hbig|_].
  { change (Strconv.maxUint64 / 10 + 1) with 1844674407370955162 in Hbig.
    change (2 ^ 63) with 9223372036854775808 in Hx. lia. }
  destruct (Z.gtb_spec (Z.of_N x / 10 * 10 + Z.of_N x mod 10) Strconv.maxUint64) as [Hbig|_].
  { change Strconv.maxUint64 with 18446744073709551615 in Hbig.
    change (2 ^ 63) with 9223372036854775808 in Hx. lia. }
  f_equal. lia.
Qed.

(** What [pretty_N_go] writes for a positive number starts with a digit. *)
Lemma pretty_N_go_head (x : N) s :
  (0 < x)%N →
  ∃ c rest, pretty_N_go x s = String c rest ∧ is_Some (Strconv.digit_of c).
Proof.
  revert s. induction (N.lt_wf_0 x) as [x _ IH]; intros s Hx.
  rewrite pretty_N_go_step by done.
  destruct (decide (x `div` 10 = 0)%N) as [->|Hq].
  - rewrite pretty_N_go_0. do 2 eexists. split; [done|].
    rewrite digit_of_pretty_N_char by (apply N.mod_lt; lia). eauto.
  - apply IH; [apply N.div_lt; lia | by apply N.neq_0_lt_0].
Qed.

Lemma ParseInt_pretty_positive (p : positive) :
  Z.pos p <= 2 ^ 63 →
  ∃ c rest, pretty (N.pos p) = String c rest
            ∧ is_Some (Strconv.digit_of c)
            ∧ Strconv.ParseUint (String c rest) = (Z.pos p, None).
Proof.
  intros Hp. unfold pretty, pretty_N. rewrite decide_False by done.
  destruct (pretty_N_go_head (N.pos p) "") as (c & rest & Hs & Hc); [lia|].
  exists c, rest. split; [done|]. split; [done|].
  unfold Strconv.ParseUint. rewrite <- Hs.
  by rewrite ParseUint_loop_pretty.
Qed.

Lemma digit_not_sign c :
  is_Some (Strconv.digit_of c) →
  Ascii.eqb c "+" = false ∧ Ascii.eqb c "-" = false.
Proof.
  intros [d Hd]. split; apply Ascii.eqb_neq; intros ->; by vm_compute in Hd.
Qed.

(** [Atoi] reads back what [Itoa] writes for an [int]. *)
Lemma Atoi_Itoa (i : Z) :
  GoInt.minInt <= i <= GoInt.maxInt → Strconv.Atoi (Strconv.Itoa i) = (i, None).
Proof.
  unfold GoInt.minInt, GoInt.maxInt. intros Hi.
  unfold Strconv.Atoi, Strconv.Itoa.
  destruct i as [|p|p]; [done|..];
    destruct (ParseInt_pretty_positive p) as (c & rest & Hs & Hc & Hu); try lia.
  - change (pretty (Z.pos p)) with (pretty (N.pos p)). rewrite Hs.
    unfold Strconv.ParseInt.
    destruct (digit_not_sign c Hc) as [-> ->]. cbn [orb negb andb].
    rewrite Hu. destruct (Z.geb_spec (Z.pos p) (2 ^ 63)); [lia|done].
  - change (pretty (Z.neg p)) with (String "-" (pretty (N.pos p))).
    unfold Strconv.ParseInt. change (Ascii.eqb "-" "-") with true.
    rewrite orb_true_r. rewrite Hs, Hu. cbn [negb andb].
    destruct (Z.gtb_spec (Z.pos p) (2 ^ 63)); [lia|done].
Qed.

(** Every [int] is the id that some request carries: the handlers read it
    back from its decimal numeral. *)
Lemma every_id_has_a_request (k : Z) :
  GoInt.minInt <= k <= GoInt.maxInt →
  Posts.postID_of (Samples.post_request (Strconv.Itoa k)) = k
  ∧ Follows.target_of (Samples.follow_request (Strconv.Itoa k)) = k.
Proof.
  intros Hk.
  unfold Posts.postID_of, Follows.target_of, var, Samples.post_request,
    Samples.follow_request, Samples.request.
  cbn [Vars list_to_map foldr uncurry]. rewrite !lookup_insert_eq.
  cbn [from_option id snd]. by rewrite Atoi_Itoa.
Qed.

(** ** Pagination of the post listings and of the notifications *)

Lemma clamped_window {A} (l : list A) offset limit :
  0 <= offset → 0 <= limit → offset + limit <= GoInt.maxInt →
  GoSlice.clamped l offset limit = Some (Spec.window l offset limit).
Proof.
  intros Ho Hl Hsum. unfold GoSlice.clamped.
  rewrite len_lt_maxInt_add by done.
  pose proof (len_nonneg l) as Hlen.
  destruct (Z.gtb_spec offset (GoInt.len l)) as [Hbig|Hin].
  - destruct (Z.gtb_spec (offset + limit) (GoInt.len l)); [|lia].
    rewrite slice_window by lia.
    rewrite Z.sub_diag, (window_beyond l offset limit) by lia.
    unfold Spec.window. by rewrite take_0.
  - destruct (Z.gtb_spec (offset + limit) (GoInt.len l)) as [Hcut|Hfit].
    + rewrite slice_window by lia. by rewrite (window_cut l offset limit) by lia.
    + rewrite slice_window by lia. by replace (offset + limit - offset) with limit by lia.
Qed.

Lemma page_of_window (l : list Posts.Post) offset limit :
  0 <= offset → 0 <= limit → offset + limit <= GoInt.maxInt →
  Posts.page_of l offset limit
  = Reply StatusOK (Posts.PageBody (Spec.window l offset limit) (GoInt.len l)).
Proof.
  intros Ho Hl Hsum. unfold Posts.page_of. by rewrite clamped_window.
Qed.

Lemma GetNotifications_window (h : Notifications.NotificationHandler) r :
  let offset := Notifications.offset_of r in
  let limit := Notifications.limit_of r in
  let N := GoInt.len (Notifications.notifications h) in
  0 <= offset <= N → 0 <= limit → offset + limit <= GoInt.maxInt →
  Notifications.GetNotifications h r
  = Reply StatusOK
      {| Notifications.Notifications :=
           Spec.window (Notifications.notifications h) offset limit;
         Notifications.Total := N; Notifications.Error := "" |}.
Proof.
  intros offset limit N Ho Hl Hsum. unfold Notifications.GetNotifications.
  fold offset limit N. rewrite len_lt_maxInt_add by lia.
  destruct (Z.gtb_spec (offset + limit) N) as [Hcut|Hfit].
  - rewrite slice_window by lia. unfold N.
    by rewrite (window_cut _ offset limit) by (fold N; lia).
  - rewrite slice_window by lia. by replace (offset + limit - offset) with limit by lia.
Qed.

(** Past the end of the notifications the slice expression panics. *)
Lemma GetNotifications_beyond (h : Notifications.NotificationHandler) r :
  GoInt.len (Notifications.notifications h) < Notifications.offset_of r →
  0 <= Notifications.limit_of r →
  Notifications.GetNotifications h r = Panic.
Proof.
  intros Ho Hl. unfold Notifications.GetNotifications.
  set (offset := Notifications.offset_of r) in *.
  set (limit := Notifications.limit_of r) in *.
  set (N := GoInt.len (Notifications.notifications h)) in *.
  assert ((if GoInt.add offset limit >? N then N else GoInt.add offset limit) <= N) as Hend.
  { destruct (Z.gtb_spec (GoInt.add offset limit) N); lia. }
  rewrite slice_panics; [done|]. lia.
Qed.

Lemma filter_Permutation_bool {A} (f : A → bool) (l l' : list A) :
  l ≡ₚ l' → List.filter f l ≡ₚ List.filter f l'.
Proof.
  induction 1 as [|x l l' _ IH|x y l|l l' l'' _ IH1 _ IH2]; simpl.
  - done.
  - destruct (f x); [by constructor | done].
  - destruct (f x), (f y); try done. apply perm_swap.
  - by etrans.
Qed.

(** Whatever the order of the iteration, a listing collects the same posts:
    those of the user that are stored and not deleted. *)
Lemma posts_of_user_any_order h visit u :
  Posts.ranges_over visit h →
  Posts.posts_of_user visit u
  ≡ₚ Posts.posts_of_user (map_to_list (Posts.entries h)) u.
Proof.
  unfold Posts.ranges_over, Posts.posts_of_user. intros Hv.
  apply filter_Permutation_bool. by rewrite Hv.
Qed.

Lemma visit_of_ranges_over h : Posts.ranges_over (Samples.visit_of h) h.
Proof. unfold Posts.ranges_over, Samples.visit_of. done. Qed.

(** C1 (as amended). [GetOwnPosts], [GetUserPosts] for a user who has a
    post that is not deleted, and [GetNotifications] for an offset up to the
    number of notifications return, for every offset and limit that are not
    negative and whose sum is an [int], the clamped window
    [[offset, offset+limit)] of the collection, of length
    [clamp(limit, 0, max(0, N-offset))], with total [N]; in the two post
    listings an offset beyond [N] gives the empty page with total [N], and
    the collection holds, in the order of the iteration over the map, the
    posts of the user that are not deleted. [GetUserPosts] for a user
    without such a post replies NotFound. *)
Theorem pagination_returns_clamped_window :
  (∀ (h : Notifications.NotificationHandler) r,
     let offset := Notifications.offset_of r in
     let limit := Notifications.limit_of r in
     let N := GoInt.len (Notifications.notifications h) in
     0 <= offset <= N → 0 <= limit → offset + limit <= GoInt.maxInt →
     ∃ page,
       Notifications.GetNotifications h r
       = Reply StatusOK {| Notifications.Notifications := page;
                           Notifications.Total := N;
                           Notifications.Error := "" |}
       ∧ page = Spec.window (Notifications.notifications h) offset limit
       ∧ GoInt.len page = Spec.clamp limit 0 (Z.max 0 (N - offset)))
  ∧ (∀ (h : Posts.PostsHandler) visit r,
       Posts.ranges_over visit h →
       let offset := Posts.offset_of r in
       let limit := Posts.limit_of r in
       let collection := Posts.posts_of_user visit (Posts.userID_of r) in
       let N := GoInt.len collection in
       0 <= offset → 0 <= limit → offset + limit <= GoInt.maxInt →
       collection
       ≡ₚ Posts.posts_of_user (map_to_list (Posts.entries h)) (Posts.userID_of r)
       ∧ (N = 0 →
          Posts.GetUserPosts h visit r
          = Reply StatusNotFound (Posts.ErrorBody "User not found"))
       ∧ (0 < N →
          ∃ page,
            Posts.GetUserPosts h visit r = Reply StatusOK (Posts.PageBody page N)
            ∧ page = Spec.window collection offset limit
            ∧ GoInt.len page = Spec.clamp limit 0 (Z.max 0 (N - offset))
            ∧ (N < offset → page = [])))
  ∧ (∀ (h : Posts.PostsHandler) visit r,
       Posts.ranges_over visit h →
       let offset := Posts.offset_of r in
       let limit := Posts.limit_of r in
       let collection := Posts.posts_of_user visit 1 in
       let N := GoInt.len collection in
       0 <= offset → 0 <= limit → offset + limit <= GoInt.maxInt →
       ∃ page,
         Posts.GetOwnPosts h visit r = Reply StatusOK (Posts.PageBody page N)
         ∧ collection ≡ₚ Posts.posts_of_user (map_to_list (Posts.entries h)) 1
         ∧ page = Spec.window collection offset limit
         ∧ GoInt.len page = Spec.clamp limit 0 (Z.max 0 (N - offset))
         ∧ (N < offset → page = [])).
Proof.
  split; [|split].
  - intros h r offset limit N Ho Hl Hsum. eexists. split; [|split; [done|]].
    + by apply GetNotifications_window.
    + apply window_length; lia.
  - intros h visit r Hv offset limit collection N Ho Hl Hsum.
    split; [by apply posts_of_user_any_order|]. split.
    + intros HN. unfold Posts.GetUserPosts. fold collection N. by rewrite HN.
    + intros HN. eexists. split; [|split; [done|split]].
      * unfold Posts.GetUserPosts. fold collection N offset limit.
        destruct (Z.eqb_spec N 0); [lia|]. by apply page_of_window.
      * by apply window_length.
      * intros Hbig. apply window_beyond. fold N. lia.
  - intros h visit r Hv offset limit collection N Ho Hl Hsum.
    eexists. split; [|split; [by apply posts_of_user_any_order|]].
    2: split; [done|split].
    + unfold Posts.GetOwnPosts. by apply page_of_window.
    + by apply window_length.
    + intros Hbig. apply window_beyond. fold N. lia.
Qed.

(** Running the three listings: a window of the notifications, a page of
    the current user's posts, and a page asked from another user. *)
Lemma pagination_returns_clamped_window_witness :
  Notifications.GetNotifications Samples.three_notifications
    (Samples.request [] [("offset", ["1"]); ("limit", ["5"])])
  = Reply StatusOK
      {| Notifications.Notifications :=
           [Samples.notification 2; Samples.notification 3];
         Notifications.Total := 3; Notifications.Error := "" |}
  ∧ Posts.GetUserPosts Samples.two_posts (Samples.visit_of Samples.two_posts)
      (Samples.request [("user_id", "2")] [("offset", ["0"]); ("limit", ["10"])])
    = Reply StatusOK (Posts.PageBody [Samples.post 2 2 "theirs" false] 1)
  ∧ Posts.GetOwnPosts Samples.two_posts (Samples.visit_of Samples.two_posts)
      (Samples.request [] [("offset", ["4"]); ("limit", ["10"])])
    = Reply StatusOK (Posts.PageBody [] 1).
Proof.
  destruct pagination_returns_clamped_window as (HN & HU & HO).
  split; [|split].
  - destruct (HN Samples.three_notifications
                (Samples.request [] [("offset", ["1"]); ("limit", ["5"])]))
      as (page & -> & -> & _); [by_running.. | done].
  - destruct (HU Samples.two_posts (Samples.visit_of Samples.two_posts)
                (Samples.request [("user_id", "2")]
                   [("offset", ["0"]); ("limit", ["10"])]))
      as (_ & _ & Hpage); [apply visit_of_ranges_over | by_running.. |].
    destruct Hpage as (page & -> & -> & _); [by_running | done].
  - destruct (HO Samples.two_posts (Samples.visit_of Samples.two_posts)
                (Samples.request [] [("offset", ["4"]); ("limit", ["10"])]))
      as (page & -> & _ & -> & _);
      [apply visit_of_ranges_over | by_running.. | done].
Defined.

(** C1 (as stated) fails: past the end of the notifications the handler
    panics instead of returning an empty page; a user without posts gets
    NotFound from [GetUserPosts] instead of an empty page with total 0; and
    an offset and a limit whose sum is no [int] make [GetOwnPosts] panic. *)
Lemma pagination_as_stated_fails :
  Notifications.GetNotifications Notifications.NewNotificationHandler
    (Samples.request [] [("offset", ["1"]); ("limit", ["10"])])
  = Panic
  ∧ Posts.GetUserPosts Samples.two_posts (Samples.visit_of Samples.two_posts)
      (Samples.request [("user_id", "3")] [("offset", ["0"]); ("limit", ["10"])])
    = Reply StatusNotFound (Posts.ErrorBody "User not found")
  ∧ Posts.GetOwnPosts Samples.two_posts (Samples.visit_of Samples.two_posts)
      (Samples.request [] [("offset", ["9223372036854775807"]); ("limit", ["1"])])
    = Panic.
Proof. by vm_compute. Qed.

(** ** Query parameters that are no numbers *)

Lemma Atoi_empty : Strconv.Atoi "" = (0, Some Strconv.ErrSyntax).
Proof. reflexivity. Qed.

(** A syntax error comes with the value 0, as for the empty string. *)
Lemma Atoi_non_numeric s :
  Spec.non_numeric s → Strconv.Atoi s = Strconv.Atoi "".
Proof.
  unfold Spec.non_numeric, Strconv.Atoi, Strconv.ParseInt.
  destruct s as [|c rest]; [done|].
  destruct (Strconv.ParseUint _) as [un [[]|]]; [done|..];
    by repeat case_match.
Qed.

Lemma query_get_without k r : query_get (without_param k r) k = "".
Proof. unfold query_get, without_param; simpl. by rewrite lookup_delete_eq. Qed.

Lemma query_get_without_ne k k' r :
  k ≠ k' → query_get (without_param k r) k' = query_get r k'.
Proof.
  intros Hk. unfold query_get, without_param; simpl.
  by rewrite lookup_delete_ne.
Qed.

Lemma var_without k r x : var (without_param k r) x = var r x.
Proof. done. Qed.

(** What a handler reads from a parameter that is no number is what it
    reads when the parameter is absent. *)
Lemma Atoi_query_without r k k' :
  Spec.non_numeric (query_get r k) →
  Strconv.Atoi (query_get (without_param k r) k')
  = Strconv.Atoi (query_get r k').
Proof.
  intros Hk. destruct (decide (k = k')) as [<-|Hne].
  - by rewrite query_get_without, (Atoi_non_numeric _ Hk).
  - by rewrite query_get_without_ne.
Qed.

Lemma Feeds_limit_without r k :
  k ≠ "before" → Spec.non_numeric (query_get r k) →
  Feeds.limit_of (without_param k r) = Feeds.limit_of r.
Proof.
  intros Hb Hk. unfold Feeds.limit_of.
  destruct (decide (k = "limit")) as [->|Hne].
  - rewrite query_get_without. simpl.
    rewrite (Atoi_non_numeric _ Hk), Atoi_empty. by case_match.
  - by rewrite query_get_without_ne.
Qed.

(** C8 (as amended). In every paginated operation (the notifications, the
    two post listings, the search over the profiles and the feed) an
    [offset] or [limit] parameter that is no number is treated exactly as if
    it were absent: the outcome is that of the request without the
    parameter; the offset falls back to 0, and the limit of
    [GetNotifications] and of [GetNewsFeed] falls back to 10. *)
Theorem non_numeric_parameter_is_absent (r : Request) (k : string) :
  k = "offset" ∨ k = "limit" →
  Spec.non_numeric (query_get r k) →
  let r' := without_param k r in
  (∀ h, Notifications.GetNotifications h r = Notifications.GetNotifications h r')
  ∧ (∀ h visit, Posts.GetUserPosts h visit r = Posts.GetUserPosts h visit r')
  ∧ (∀ h visit, Posts.GetOwnPosts h visit r = Posts.GetOwnPosts h visit r')
  ∧ (∀ ToLower Contains h visit,
       Profiles.SearchUsers ToLower Contains h visit r
       = Profiles.SearchUsers ToLower Contains h visit r')
  ∧ (∀ Parse h now,
       Feeds.GetNewsFeed Parse h now r = Feeds.GetNewsFeed Parse h now r')
  ∧ (k = "offset" → Notifications.offset_of r = 0 ∧ Posts.offset_of r = 0)
  ∧ (k = "limit" → Notifications.limit_of r = 10 ∧ Feeds.limit_of r = 10).
Proof.
  intros Hk Hnn r'. subst r'.
  assert (k ≠ "before") as Hb by (destruct Hk as [-> | ->]; done).
  split; [|split; [|split; [|split; [|split; [|split]]]]].
  - intros h. unfold Notifications.GetNotifications,
      Notifications.offset_of, Notifications.limit_of.
    by rewrite !(Atoi_query_without r k).
  - intros h visit. unfold Posts.GetUserPosts,
      Posts.userID_of, Posts.offset_of, Posts.limit_of.
    by rewrite !(Atoi_query_without r k).
  - intros h visit. unfold Posts.GetOwnPosts, Posts.offset_of, Posts.limit_of.
    by rewrite !(Atoi_query_without r k).
  - intros ToLower Contains h visit. unfold Profiles.SearchUsers.
    rewrite !(Atoi_query_without r k) by done.
    by rewrite (query_get_without_ne k "search") by (destruct Hk as [-> | ->]; done).
  - intros Parse h now. unfold Feeds.GetNewsFeed, Feeds.beforeTime_of.
    rewrite (Feeds_limit_without r k) by done.
    by rewrite !(query_get_without_ne k "before") by done.
  - intros ->. unfold Notifications.offset_of, Posts.offset_of.
    by rewrite (Atoi_non_numeric _ Hnn).
  - intros ->. unfold Notifications.limit_of, Feeds.limit_of.
    rewrite (Atoi_non_numeric _ Hnn), Atoi_empty. by case_match.
Qed.

(** A limit that is a word: the notifications are listed as without it. *)
Lemma non_numeric_parameter_is_absent_witness :
  let r := Samples.request [] [("limit", ["ten"])] in
  Spec.non_numeric (query_get r "limit")
  ∧ Notifications.GetNotifications Samples.three_notifications r
    = Notifications.GetNotifications Samples.three_notifications
        (Samples.request [] [])
  ∧ Notifications.limit_of r = 10.
Proof.
  intros r.
  destruct (non_numeric_parameter_is_absent r "limit")
    as (HN & _ & _ & _ & _ & _ & HL);
    [by right | by_running |].
  split; [by_running|]. split.
  - rewrite HN. by_running.
  - by destruct HL.
Defined.

(** C8 (as stated) fails: a negative limit is not taken as absent (the
    feed returns one item instead of all three), a negative offset makes
    [GetNotifications] panic, and a limit that is no number falls back to 0,
    not to 10, in [GetUserPosts]. *)
Lemma negative_parameter_is_not_absent :
  (∃ b b',
     Feeds.GetNewsFeed GoTime.ParseUTC Samples.three_feeds Samples.noon
       (Samples.request [] [("limit", ["-1"])]) = Reply StatusOK b
     ∧ Feeds.GetNewsFeed GoTime.ParseUTC Samples.three_feeds Samples.noon
         (Samples.request [] []) = Reply StatusOK b'
     ∧ Feeds.Feeds b = [Samples.at_100]
     ∧ Feeds.Feeds b' = [Samples.at_100; Samples.at_90; Samples.at_80])
  ∧ Notifications.GetNotifications Samples.three_notifications
      (Samples.request [] [("offset", ["-1"])]) = Panic
  ∧ Posts.limit_of (Samples.request [("user_id", "2")] [("limit", ["ten"])]) = 0
  ∧ Posts.GetUserPosts Samples.two_posts (Samples.visit_of Samples.two_posts)
      (Samples.request [("user_id", "2")] [("limit", ["ten"])])
    = Reply StatusOK (Posts.PageBody [] 1).
Proof.
  split; [|by vm_compute].
  do 2 eexists. split; [reflexivity|]. split; [reflexivity|]. by vm_compute.
Qed.

(** ** Posts: the guard of [UpdatePost] and [DeletePost] *)

Lemma editable_missing h k :
  Posts.entries h !! k = None → Posts.editable h k = None.
Proof. unfold Posts.editable. by intros ->. Qed.

Lemma editable_foreign h k p :
  Posts.entries h !! k = Some p → Posts.UserID p ≠ 1 → Posts.editable h k = None.
Proof.
  unfold Posts.editable. intros -> Hu.
  destruct (Z.eqb_spec (Posts.UserID p) 1); [done|].
  by rewrite orb_true_r.
Qed.

Lemma editable_deleted h k p :
  Posts.entries h !! k = Some p → Posts.IsDeleted p = true →
  Posts.editable h k = None.
Proof. unfold Posts.editable. by intros -> ->. Qed.

Lemma editable_own h k p :
  Posts.entries h !! k = Some p → Posts.IsDeleted p = false →
  Posts.UserID p = 1 → Posts.editable h k = Some p.
Proof. unfold Posts.editable. by intros -> -> ->. Qed.

Lemma editable_Some h k p :
  Posts.editable h k = Some p →
  Posts.entries h !! k = Some p ∧ Posts.IsDeleted p = false ∧ Posts.UserID p = 1.
Proof.
  unfold Posts.editable. destruct (Posts.entries h !! k) as [q|]; [|done].
  destruct (Posts.IsDeleted q) eqn:Hd; [done|].
  destruct (Z.eqb_spec (Posts.UserID q) 1); [|done].
  simpl. by intros [= ->].
Qed.

Lemma entries_store h k p : Posts.entries (Posts.store h k p) = <[k := p]> (Posts.entries h).
Proof. done. Qed.

Lemma entries_allocated h m : Posts.Posts h = Some m → Posts.entries h = m.
Proof. unfold Posts.entries. by intros ->. Qed.

(** C4 (as amended). [UpdatePost] and [DeletePost] invoked with an id for
    which the store has no record fail with Forbidden and leave the store as
    it is: one guard covers the missing, the deleted and the foreign post,
    and neither operation ever replies NotFound. *)
Theorem missing_post_is_forbidden (h : Posts.PostsHandler) (r : Request) :
  Posts.entries h !! Posts.postID_of r = None →
  (∀ body, Posts.UpdatePost h r body = (h, Posts.forbidden))
  ∧ Posts.DeletePost h r = (h, Posts.forbidden)
  ∧ (∀ h' r' body b,
       (Posts.UpdatePost h' r' body).2 ≠ Reply StatusNotFound b
       ∧ (Posts.DeletePost h' r').2 ≠ Reply StatusNotFound b).
Proof.
  intros Hmiss. split; [|split].
  - intros body. unfold Posts.UpdatePost. by rewrite editable_missing.
  - unfold Posts.DeletePost. by rewrite editable_missing.
  - intros h' r' body b. unfold Posts.UpdatePost, Posts.DeletePost.
    destruct (Posts.editable h' _); [destruct body|]; done.
Qed.

Lemma missing_post_is_forbidden_witness :
  let r := Samples.request [("post_id", "7")] [] in
  Posts.entries Samples.two_posts !! Posts.postID_of r = None
  ∧ Posts.DeletePost Samples.two_posts r = (Samples.two_posts, Posts.forbidden).
Proof.
  intros r. split; [by_running|].
  apply (missing_post_is_forbidden Samples.two_posts r). by_running.
Defined.

(** C4 (as stated) fails: deleting or updating post 7, which the store
    does not hold, is answered with Forbidden, not with NotFound. *)
Lemma missing_post_is_not_NotFound :
  let r := Samples.request [("post_id", "7")] [] in
  Posts.entries Samples.two_posts !! Posts.postID_of r = None
  ∧ (Posts.DeletePost Samples.two_posts r).2
    = Reply StatusForbidden (Posts.ErrorBody "Unauthorized or not the author")
  ∧ (Posts.UpdatePost Samples.two_posts r (Some (Samples.json "new" None))).2
    = Reply StatusForbidden (Posts.ErrorBody "Unauthorized or not the author").
Proof. by vm_compute. Qed.

(** C3. For a post that exists and is not deleted: when its author is not
    user 1, [UpdatePost] and [DeletePost] fail with Forbidden; when its
    author is user 1, [DeletePost] succeeds and [GetPost] then replies
    NotFound, and [UpdatePost] with a body that decodes succeeds and
    [GetPost] then returns the post with the new content (when the body has
    one) and the new media ids (when the body has them), the rest of the
    post being as before. *)
Theorem ownership_of_update_and_delete (h : Posts.PostsHandler) (r : Request)
    (p : Posts.Post) :
  Posts.entries h !! Posts.postID_of r = Some p →
  Posts.IsDeleted p = false →
  (Posts.UserID p ≠ 1 →
   (∀ body, Posts.UpdatePost h r body = (h, Posts.forbidden))
   ∧ Posts.DeletePost h r = (h, Posts.forbidden))
  ∧ (Posts.UserID p = 1 →
     (∃ h', Posts.DeletePost h r
            = (h', Reply StatusOK (Posts.MessageBody "Post soft deleted"))
            ∧ Posts.GetPost h' r
              = Reply StatusNotFound (Posts.ErrorBody "Post not found"))
     ∧ (∀ j, ∃ h' p',
          Posts.UpdatePost h r (Some j)
          = (h', Reply StatusOK (Posts.MessageBody "Post updated"))
          ∧ Posts.GetPost h' r = Reply StatusOK (Posts.PostBody p')
          ∧ (Posts.j_content j ≠ "" → Posts.Content p' = Posts.j_content j)
          ∧ (Posts.j_content j = "" → Posts.Content p' = Posts.Content p)
          ∧ (∀ ids, Posts.j_media_ids j = Some ids → Posts.MediaIDs p' = Some ids)
          ∧ (Posts.j_media_ids j = None → Posts.MediaIDs p' = Posts.MediaIDs p)
          ∧ Posts.PostID p' = Posts.PostID p
          ∧ Posts.UserID p' = Posts.UserID p
          ∧ Posts.CreatedAt p' = Posts.CreatedAt p)).
Proof.
  intros Hp Hd. split.
  - intros Hu. split.
    + intros body. unfold Posts.UpdatePost. by rewrite (editable_foreign _ _ p).
    + unfold Posts.DeletePost. by rewrite (editable_foreign _ _ p).
  - intros Hu. split.
    + eexists. unfold Posts.DeletePost. rewrite (editable_own _ _ p) by done.
      split; [done|]. unfold Posts.GetPost.
      by rewrite entries_store, lookup_insert_eq.
    + intros j. do 2 eexists. unfold Posts.UpdatePost.
      rewrite (editable_own _ _ p) by done.
      split; [done|]. unfold Posts.GetPost.
      rewrite entries_store, lookup_insert_eq. simpl. rewrite Hd.
      split; [done|]. simpl.
      destruct (String.eqb_spec (Posts.j_content j) "") as [He|He];
        destruct (Posts.j_media_ids j); naive_solver.
Qed.

(** The owner edits post 1 and reads the new content back. *)
Lemma ownership_of_update_and_delete_witness :
  let r := Samples.request [("post_id", "1")] [] in
  Posts.entries Samples.two_posts !! Posts.postID_of r
  = Some (Samples.post 1 1 "mine" false)
  ∧ ∃ h' p',
      Posts.UpdatePost Samples.two_posts r (Some (Samples.json "edited" None))
      = (h', Reply StatusOK (Posts.MessageBody "Post updated"))
      ∧ Posts.GetPost h' r = Reply StatusOK (Posts.PostBody p')
      ∧ Posts.Content p' = "edited".
Proof.
  intros r. split; [by_running|].
  destruct (ownership_of_update_and_delete Samples.two_posts r
              (Samples.post 1 1 "mine" false)) as (_ & Hown);
    [by_running | by_running |].
  destruct Hown as (_ & Hupd); [by_running|].
  destruct (Hupd (Samples.json "edited" None))
    as (h' & p' & Hu & Hg & Hc & _).
  exists h', p'. split; [done|]. split; [done|]. apply Hc. by_running.
Defined.

(** C10. [CreatePost] with a body that decodes and has content: the post
    it stores has user 1 as its author and [len(h.Posts) + 1] as its id, is
    not deleted and carries the time of the request, whatever the body says
    on [post_id], [user_id], [createdAt] or a deleted flag; two bodies with
    the same content and media ids have the same effect. A post is stored
    whenever the map is allocated; on the nil map the assignment panics and
    nothing is stored. *)
Theorem created_post_ignores_body_identity (h : Posts.PostsHandler)
    (now : string) (j : Posts.PostJSON) :
  Posts.j_content j ≠ "" →
  let newID := Posts.len_Posts h + 1 in
  (∀ h' out,
     Posts.CreatePost h now (Some j) = (h', out) →
     (out = Reply StatusCreated (Posts.CreatedBody newID "Post created")
      ∧ is_Some (Posts.Posts h)
      ∧ ∃ p, Posts.Posts h' = Some (<[newID := p]> (Posts.entries h))
             ∧ Posts.UserID p = 1
             ∧ Posts.PostID p = newID
             ∧ Posts.IsDeleted p = false
             ∧ Posts.CreatedAt p = now
             ∧ Posts.Content p = Posts.j_content j
             ∧ Posts.MediaIDs p = Posts.j_media_ids j)
     ∨ (out = Panic ∧ Posts.Posts h = None ∧ h' = h))
  ∧ (∀ j', Posts.j_content j' = Posts.j_content j →
           Posts.j_media_ids j' = Posts.j_media_ids j →
           Posts.CreatePost h now (Some j') = Posts.CreatePost h now (Some j)).
Proof.
  intros Hc newID. split.
  - intros h' out. unfold Posts.CreatePost. simpl.
    destruct (String.eqb_spec (Posts.j_content j) ""); [done|].
    destruct (Posts.Posts h) as [m|] eqn:Hm; intros [= <- <-].
    + left. split; [done|]. split; [by eexists|].
      eexists. rewrite (entries_allocated h m Hm). by repeat split.
    + by right.
  - intros j' Hc' Hm'. unfold Posts.CreatePost. simpl. by rewrite Hc', Hm'.
Qed.

(** The forged body creates the same post as the plain one: post 3 of
    user 1. *)
Lemma created_post_ignores_body_identity_witness :
  Samples.forged_json.(Posts.j_content) ≠ ""
  ∧ Posts.CreatePost Samples.two_posts Samples.now_str
      (Some (Samples.json "hello" (Some [3])))
    = Posts.CreatePost Samples.two_posts Samples.now_str
        (Some Samples.forged_json)
  ∧ Posts.GetPost
      (Posts.CreatePost Samples.two_posts Samples.now_str
         (Some Samples.forged_json)).1
      (Samples.request [("post_id", "3")] [])
    = Reply StatusOK
        (Posts.PostBody
           {| Posts.PostID := 3; Posts.UserID := 1; Posts.Content := "hello";
              Posts.CreatedAt := Samples.now_str;
              Posts.MediaIDs := Some [3]; Posts.IsDeleted := false |}).
Proof.
  assert (Samples.forged_json.(Posts.j_content) ≠ "") as Hc by by_running.
  destruct (created_post_ignores_body_identity Samples.two_posts
              Samples.now_str Samples.forged_json Hc) as (_ & Hsame).
  split; [done|]. split; [by apply Hsame | by_running].
Defined.

(** ** Posts: what every store reached from an initial one satisfies *)

Lemma initial_well_keyed h : Posts.initial h → Posts.well_keyed h.
Proof.
  intros Hi k p. unfold Posts.entries.
  destruct Hi as [-> | ->]; simpl; by rewrite lookup_empty.
Qed.

(** The id that [CreatePost] picks is free in a well-keyed store. *)
Lemma newID_fresh h :
  Posts.well_keyed h → Posts.entries h !! (Posts.len_Posts h + 1) = None.
Proof.
  intros Hwk. destruct (Posts.entries h !! _) as [p|] eqn:Hp; [|done].
  apply Hwk in Hp. lia.
Qed.

Lemma len_store_existing h k p :
  is_Some (Posts.entries h !! k) →
  Posts.len_Posts (Posts.store h k p) = Posts.len_Posts h.
Proof.
  intros Hk. unfold Posts.len_Posts. rewrite entries_store.
  by rewrite map_size_insert_Some.
Qed.

Lemma well_keyed_store h k p q :
  Posts.well_keyed h → Posts.entries h !! k = Some p → Posts.PostID q = k →
  Posts.well_keyed (Posts.store h k q).
Proof.
  intros Hwk Hp Hq k' p'. rewrite len_store_existing by eauto.
  rewrite entries_store, lookup_insert.
  case_decide as Hk; [|by apply Hwk].
  intros [= <-]. subst k'. split; [done|]. by apply (Hwk k p).
Qed.

Lemma well_keyed_CreatePost h now body :
  Posts.well_keyed h → Posts.well_keyed (Posts.CreatePost h now body).1.
Proof.
  intros Hwk. unfold Posts.CreatePost.
  destruct body as [j|]; [|done]. case_match; [done|].
  destruct (Posts.Posts h) as [m|] eqn:Hm; [|done]. simpl.
  pose proof (newID_fresh h Hwk) as Hfresh.
  intros k p. specialize (Hwk k).
  unfold Posts.len_Posts, Posts.entries in *. simpl. rewrite Hm in *. simpl in *.
  rewrite map_size_insert_None by done.
  rewrite lookup_insert. case_decide as Hk.
  - intros [= <-]. subst k. simpl. lia.
  - intros Hp. apply Hwk in Hp. lia.
Qed.

Lemma well_keyed_step h o : Posts.well_keyed h → Posts.well_keyed (Posts.step h o).
Proof.
  intros Hwk. destruct o as [now body | r body | r]; simpl.
  - by apply well_keyed_CreatePost.
  - unfold Posts.UpdatePost.
    destruct (Posts.editable h _) as [p|] eqn:He; [|done].
    destruct body as [j|]; [|done]. simpl.
    apply editable_Some in He as (Hp & _).
    eapply well_keyed_store; [done | done |]. simpl. by apply (Hwk _ p).
  - unfold Posts.DeletePost.
    destruct (Posts.editable h _) as [p|] eqn:He; [|done]. simpl.
    apply editable_Some in He as (Hp & _).
    eapply well_keyed_store; [done | done |]. simpl. by apply (Hwk _ p).
Qed.

Lemma tombstone_store h k k' q :
  k ≠ k' → Posts.tombstone h k → Posts.tombstone (Posts.store h k' q) k.
Proof.
  intros Hk (p & Hp & Hd). exists p.
  by rewrite entries_store, lookup_insert_ne.
Qed.

(** The guard turns away a request on a tombstone. *)
Lemma tombstone_not_editable h k : Posts.tombstone h k → Posts.editable h k = None.
Proof. intros (p & Hp & Hd). by apply (editable_deleted h k p). Qed.

Lemma tombstone_step h o k :
  Posts.well_keyed h → Posts.tombstone h k → Posts.tombstone (Posts.step h o) k.
Proof.
  intros Hwk Ht. destruct o as [now body | r body | r]; simpl.
  - unfold Posts.CreatePost.
    destruct body as [j|]; [|done]. case_match; [done|].
    destruct (Posts.Posts h) as [m|] eqn:Hm; [|done]. simpl.
    destruct Ht as (p & Hp & Hd). exists p. split; [|done].
    apply Hwk in Hp as Hk.
    unfold Posts.len_Posts, Posts.entries in *. simpl. rewrite Hm in *. simpl in *.
    rewrite lookup_insert_ne; [done | lia].
  - unfold Posts.UpdatePost.
    destruct (Posts.editable h _) as [p|] eqn:He; [|done].
    destruct body as [j|]; [|done]. simpl.
    apply tombstone_store; [|done]. intros ->.
    by rewrite tombstone_not_editable in He.
  - unfold Posts.DeletePost.
    destruct (Posts.editable h _) as [p|] eqn:He; [|done]. simpl.
    apply tombstone_store; [|done]. intros ->.
    by rewrite tombstone_not_editable in He.
Qed.

Lemma well_keyed_run ops h : Posts.well_keyed h → Posts.well_keyed (Posts.run ops h).
Proof.
  unfold Posts.run. revert h.
  induction ops as [|o ops IH]; intros h Hwk; [done|].
  simpl. apply IH. by apply well_keyed_step.
Qed.

Lemma tombstone_run ops h k :
  Posts.well_keyed h → Posts.tombstone h k → Posts.tombstone (Posts.run ops h) k.
Proof.
  unfold Posts.run. revert h.
  induction ops as [|o ops IH]; intros h Hwk Ht; [done|].
  simpl. apply IH; [by apply well_keyed_step | by apply tombstone_step].
Qed.

(** A successful [DeletePost] leaves a tombstone. *)
Lemma DeletePost_tombstone h r h' b :
  Posts.DeletePost h r = (h', Reply StatusOK b) →
  Posts.tombstone h' (Posts.postID_of r) ∧ h' = Posts.step h (Posts.OpDelete r).
Proof.
  intros Hdel. split; [|by simpl; rewrite Hdel].
  revert Hdel. unfold Posts.DeletePost.
  destruct (Posts.editable h _) as [p|]; [|done].
  intros [= <- _]. eexists. by rewrite entries_store, lookup_insert_eq.
Qed.

Lemma GetPost_tombstone h r :
  Posts.tombstone h (Posts.postID_of r) →
  Posts.GetPost h r = Reply StatusNotFound (Posts.ErrorBody "Post not found").
Proof. intros (p & Hp & Hd). unfold Posts.GetPost. by rewrite Hp, Hd. Qed.

(** The posts that a listing collects are posts of the store that are not
    deleted, each under its own id. *)
Lemma posts_of_user_stored h visit u p :
  Posts.ranges_over visit h → p ∈ Posts.posts_of_user visit u →
  ∃ k, Posts.entries h !! k = Some p ∧ Posts.IsDeleted p = false.
Proof.
  unfold Posts.ranges_over, Posts.posts_of_user. intros Hv Hp.
  apply list_elem_of_In, filter_In in Hp as [Hp Hf].
  apply list_elem_of_In, list_elem_of_fmap in Hp as ([k q] & -> & Hkq).
  rewrite Hv in Hkq. apply elem_of_map_to_list in Hkq.
  exists k. split; [done|]. simpl in *.
  apply andb_true_iff in Hf as [_ Hf]. by destruct (Posts.IsDeleted q).
Qed.

Lemma slice_subseteq {A} (l page : list A) lo hi x :
  GoSlice.slice l lo hi = Some page → x ∈ page → x ∈ l.
Proof.
  unfold GoSlice.slice. case_match; [|done]. intros [= <-] Hx.
  by eapply subseteq_drop, subseteq_take.
Qed.

Lemma page_of_subseteq l offset limit st page total p :
  Posts.page_of l offset limit = Reply st (Posts.PageBody page total) →
  p ∈ page → p ∈ l.
Proof.
  unfold Posts.page_of, GoSlice.clamped.
  destruct (GoSlice.slice _ _ _) as [pg|] eqn:Hs; [|done].
  intros [= _ <- _]. by eapply slice_subseteq.
Qed.

Lemma listing_hides_tombstone h visit u k p :
  Posts.well_keyed h → Posts.tombstone h k → Posts.ranges_over visit h →
  p ∈ Posts.posts_of_user visit u → Posts.PostID p ≠ k.
Proof.
  intros Hwk (q & Hq & Hd) Hv Hp Hk.
  destruct (posts_of_user_stored h visit u p Hv Hp) as (k' & Hp' & Hnd).
  destruct (Hwk k' p Hp') as [Hid _].
  assert (k' = k) as -> by congruence.
  rewrite Hq in Hp'. injection Hp' as ->. congruence.
Qed.

(** C2. Take a handler that starts with no post and serves any sequence of
    requests. Once [DeletePost] has succeeded on an id, then after any
    further sequence of requests [GetPost] on that id replies NotFound, and
    no page returned by [GetUserPosts] (or [GetOwnPosts]) holds a post of
    that id. The sequences list the requests that write to the store; the
    other requests leave it as it is. *)
Theorem deleted_post_stays_hidden (h0 : Posts.PostsHandler)
    (before after : list Posts.Op) (r : Request) (h2 : Posts.PostsHandler)
    (b : Posts.Body) :
  Posts.initial h0 →
  Posts.DeletePost (Posts.run before h0) r = (h2, Reply StatusOK b) →
  let h3 := Posts.run after h2 in
  (∀ r', Posts.postID_of r' = Posts.postID_of r →
         Posts.GetPost h3 r'
         = Reply StatusNotFound (Posts.ErrorBody "Post not found"))
  ∧ (∀ visit r' st page total p,
       Posts.ranges_over visit h3 →
       Posts.GetUserPosts h3 visit r' = Reply st (Posts.PageBody page total)
       ∨ Posts.GetOwnPosts h3 visit r' = Reply st (Posts.PageBody page total) →
       p ∈ page → Posts.PostID p ≠ Posts.postID_of r).
Proof.
  intros Hinit Hdel h3.
  apply DeletePost_tombstone in Hdel as [Ht ->].
  assert (Posts.well_keyed h3 ∧ Posts.tombstone h3 (Posts.postID_of r)) as [Hwk3 Ht3].
  { assert (Posts.well_keyed (Posts.step (Posts.run before h0) (Posts.OpDelete r)))
      by by apply well_keyed_step, well_keyed_run, initial_well_keyed.
    split; [by apply well_keyed_run | by apply tombstone_run]. }
  split.
  - intros r' Hr'. apply GetPost_tombstone. by rewrite Hr'.
  - intros visit r' st page total p Hv Hpage Hp.
    destruct Hpage as [Hpage | Hpage];
      eapply (listing_hides_tombstone h3 visit); try done.
    + unfold Posts.GetUserPosts in Hpage. case_match; [done|].
      by eapply page_of_subseteq.
    + unfold Posts.GetOwnPosts in Hpage. by eapply page_of_subseteq.
Qed.

(** Two posts are created, the first is deleted, a third is created and the
    deleted one is asked to be updated: post 1 stays hidden. *)
Lemma deleted_post_stays_hidden_witness :
  let r := Samples.request [("post_id", "1"); ("user_id", "1")]
             [("limit", ["10"])] in
  let before := [Posts.OpCreate Samples.now_str (Some (Samples.json "a" None));
                 Posts.OpCreate Samples.now_str (Some (Samples.json "b" None))] in
  let after := [Posts.OpCreate Samples.now_str (Some (Samples.json "c" None));
                Posts.OpUpdate r (Some (Samples.json "again" None))] in
  let h2 := (Posts.DeletePost (Posts.run before Samples.empty_posts) r).1 in
  let h3 := Posts.run after h2 in
  Posts.GetPost h3 r = Reply StatusNotFound (Posts.ErrorBody "Post not found")
  ∧ ∃ page,
      Posts.GetUserPosts h3 (Samples.visit_of h3) r
      = Reply StatusOK (Posts.PageBody page 2)
      ∧ ∀ p, p ∈ page → Posts.PostID p ≠ 1.
Proof.
  intros r before after h2 h3.
  destruct (deleted_post_stays_hidden Samples.empty_posts before after r h2
              (Posts.MessageBody "Post soft deleted")) as [Hget Hlist];
    [by right | by_running |].
  split; [by apply Hget|].
  eexists. split; [by vm_compute|].
  intros p Hp Hid.
  eapply (Hlist (Samples.visit_of h3) r StatusOK _ 2 p);
    [apply visit_of_ranges_over | left; by vm_compute | | done].
  done.
Defined.

(** The zero value [&PostsHandler{}] never stores a post: every
    [CreatePost] that gets as far as the assignment panics on the nil map. *)
Lemma zero_value_stores_nothing ops :
  Posts.run ops Samples.zero_posts = Samples.zero_posts.
Proof.
  unfold Posts.run. induction ops as [|o ops IH]; [done|].
  simpl. rewrite <- IH at 2. f_equal.
  destruct o as [now [j|] | r body | r]; try done.
  unfold Posts.step, Posts.CreatePost. by case_match.
Qed.

(** ** Follows: the two maps move together *)

Lemma index_of_None id l : Follows.index_of id l = None ↔ id ∉ Follows.ids l.
Proof.
  unfold Follows.ids. induction l as [|u l IH]; simpl.
  - split; [intros _; apply not_elem_of_nil | done].
  - rewrite not_elem_of_cons.
    destruct (Z.eqb_spec (Follows.UserID u) id) as [He|He].
    + split; [done | intros [? _]; congruence].
    + destruct (Follows.index_of id l); simpl.
      * split; [done | intros [_ Hn]; by apply IH in Hn].
      * split; [intros _; split; [congruence | by apply IH] | done].
Qed.

(** The index found is that of the first follow with the id, and removing
    it leaves what stands before and after it. *)
Lemma index_of_Some id l i :
  Follows.index_of id l = Some i →
  ∃ l1 u l2, l = l1 ++ (u :: l2) ∧ Follows.UserID u = id
             ∧ (id ∉ Follows.ids l1) ∧ GoSlice.remove_at l i = l1 ++ l2.
Proof.
  revert i. induction l as [|u l IH]; intros i; simpl; [done|].
  destruct (Z.eqb_spec (Follows.UserID u) id) as [He|He].
  - intros [= <-]. exists [], u, l.
    split; [done|]. split; [done|]. split; [apply not_elem_of_nil|].
    unfold GoSlice.remove_at. simpl. by rewrite drop_0.
  - destruct (Follows.index_of id l) as [i'|]; [|done]. simpl.
    intros [= <-]. destruct (IH i' eq_refl) as (l1 & v & l2 & -> & Hv & Hn & Hr).
    exists (u :: l1), v, l2.
    split; [done|]. split; [done|]. split.
    + unfold Follows.ids in *. simpl. rewrite not_elem_of_cons. split; [congruence | done].
    + unfold GoSlice.remove_at in *. simpl. by rewrite Hr.
Qed.

Lemma index_of_is_Some id l :
  id ∈ Follows.ids l → is_Some (Follows.index_of id l).
Proof.
  intros Hin. destruct (Follows.index_of id l) eqn:Hi; [eauto|].
  by apply index_of_None in Hi.
Qed.

Lemma ids_app l k : Follows.ids (l ++ k) = Follows.ids l ++ Follows.ids k.
Proof. unfold Follows.ids. apply fmap_app. Qed.

Lemma ids_without_first l1 u l2 :
  NoDup (Follows.ids (l1 ++ u :: l2)) →
  NoDup (Follows.ids (l1 ++ l2))
  ∧ Follows.UserID u ∉ Follows.ids (l1 ++ l2).
Proof.
  rewrite !ids_app. unfold Follows.ids at 2. rewrite fmap_cons.
  fold (Follows.ids l2).
  rewrite !NoDup_app, NoDup_cons. intros (H1 & H12 & Hu & H2).
  split.
  - repeat split; [done | | done].
    intros x Hx Hx2. apply (H12 x Hx). by right.
  - rewrite elem_of_app. intros [Hin|Hin]; [|done].
    apply (H12 _ Hin). by left.
Qed.

Lemma ids_keep_others l1 u l2 x :
  x ≠ Follows.UserID u → x ∈ Follows.ids (l1 ++ u :: l2) →
  x ∈ Follows.ids (l1 ++ l2).
Proof.
  rewrite !ids_app. unfold Follows.ids at 2. rewrite fmap_cons.
  rewrite !elem_of_app, elem_of_cons.
  intros Hx [H|[H|H]]; [by left | done | by right].
Qed.

Lemma following_of_insert fl fg u :
  Follows.following_of {| Follows.followers := fl;
                          Follows.following := <[1 := u]> fg |} 1 = u.
Proof. unfold Follows.following_of. simpl. by rewrite lookup_insert_eq. Qed.

Lemma followers_of_insert fl fg t l t' :
  Follows.followers_of {| Follows.followers := <[t := l]> fl;
                          Follows.following := fg |} t'
  = if decide (t = t') then l else default [] (fl !! t').
Proof.
  unfold Follows.followers_of. simpl. rewrite lookup_insert.
  by case_decide.
Qed.

Lemma consistent_FollowUser h r :
  Follows.consistent h → Follows.consistent (Follows.FollowUser h r).1.
Proof.
  intros [Hfg Hfl]. unfold Follows.FollowUser.
  destruct (Follows.index_of _ _) eqn:Hi; [done|]. simpl.
  apply index_of_None in Hi. split.
  - rewrite following_of_insert, ids_app. apply NoDup_app.
    split; [done|]. split; [|apply NoDup_singleton].
    intros x Hx [->|[]%elem_of_nil]%elem_of_cons. done.
  - intros t. rewrite following_of_insert, followers_of_insert, ids_app.
    destruct (Hfl t) as [Hnd Hlink]. case_decide as Ht.
    + subst t. split.
      * rewrite ids_app. apply NoDup_app. split; [done|].
        split; [|apply NoDup_singleton].
        intros x Hx [->|[]%elem_of_nil]%elem_of_cons. by apply Hi, Hlink.
      * intros _. apply elem_of_app. right. by left.
    + split; [done|]. intros H1. apply elem_of_app. left. by apply Hlink.
Qed.

Lemma consistent_UnfollowUser h r :
  Follows.consistent h → Follows.consistent (Follows.UnfollowUser h r).1.
Proof.
  intros [Hfg Hfl]. unfold Follows.UnfollowUser.
  destruct (Follows.index_of _ (Follows.following_of h 1)) as [i|] eqn:Hi; [|done].
  apply index_of_Some in Hi as (l1 & u & l2 & Hl & Hu & Hn & ->).
  rewrite Hl in Hfg. destruct (ids_without_first _ _ _ Hfg) as [Hfg' Hgone].
  simpl. split.
  - by rewrite following_of_insert.
  - intros t. rewrite following_of_insert.
    destruct (Hfl t) as [Hnd Hlink]. rewrite Hl in Hlink.
    destruct (Follows.index_of 1 _) as [j|] eqn:Hj.
    + apply index_of_Some in Hj as (f1 & v & f2 & Hf & Hv & Hn1 & ->).
      rewrite followers_of_insert. case_decide as Ht.
      * subst t. rewrite Hf in Hnd.
        destruct (ids_without_first _ _ _ Hnd) as [Hnd' Hgone'].
        split; [done|]. by rewrite Hv in Hgone'.
      * fold (Follows.followers_of h t).
        split; [done|]. intros H1. apply (ids_keep_others _ u); [|by apply Hlink].
        rewrite Hu. congruence.
    + split; [done|]. intros H1. apply (ids_keep_others _ u); [|by apply Hlink].
      rewrite Hu. intros ->. by apply index_of_None in Hj.
Qed.

Lemma consistent_run ops :
  Follows.consistent (Follows.run ops Follows.NewFollowsHandler).
Proof.
  unfold Follows.run.
  assert (Follows.consistent Follows.NewFollowsHandler) as Hnew.
  { split; [apply NoDup_nil_2|]. intros t. split; [apply NoDup_nil_2|].
    intros []%elem_of_nil. }
  revert Hnew. generalize Follows.NewFollowsHandler.
  induction ops as [|o ops IH]; intros h Hc; [done|].
  simpl. apply IH. destruct o; simpl.
  - by apply consistent_FollowUser.
  - by apply consistent_UnfollowUser.
Qed.

(** The lists that the four listing routes encode are the lists of the
    two maps. *)
Lemma listings_show_the_maps h u resp :
  (Follows.GetFollowingByUserID h u = Reply StatusOK resp →
   Follows.Following resp = Follows.following_of h u)
  ∧ (Follows.GetFollowersByUserID h u = Reply StatusOK resp →
     Follows.Followers resp = Follows.followers_of h u).
Proof.
  unfold Follows.GetFollowingByUserID, Follows.GetFollowersByUserID,
    Follows.following_of, Follows.followers_of.
  split; case_match; intros [= <-]; done.
Qed.

(** C5. In a handler built by [NewFollowsHandler] that has served any
    sequence of follow and unfollow requests, with A the current user (1)
    and B the target of the request: if A does not follow B, [FollowUser]
    succeeds, and then B is in A's following list and A in B's followers
    list, while [UnfollowUser] fails with Forbidden and changes nothing; if
    A follows B, [UnfollowUser] succeeds, and then B is in A's following
    list no more and A in B's followers list no more, while [FollowUser]
    fails with BadRequest and changes nothing. *)
Theorem follow_edges_are_symmetric (ops : list Follows.Op) (r : Request) :
  let h := Follows.run ops Follows.NewFollowsHandler in
  let A := 1 in
  let B := Follows.target_of r in
  (B ∉ Follows.ids (Follows.following_of h A) →
   (∃ h', Follows.FollowUser h r
          = (h', Reply StatusCreated (Follows.message "Followed"))
          ∧ B ∈ Follows.ids (Follows.following_of h' A)
          ∧ A ∈ Follows.ids (Follows.followers_of h' B))
   ∧ Follows.UnfollowUser h r
     = (h, Reply StatusForbidden (Follows.error "Unauthorized")))
  ∧ (B ∈ Follows.ids (Follows.following_of h A) →
     (∃ h', Follows.UnfollowUser h r
            = (h', Reply StatusOK (Follows.message "Unfollowed"))
            ∧ (B ∉ Follows.ids (Follows.following_of h' A))
            ∧ (A ∉ Follows.ids (Follows.followers_of h' B)))
     ∧ Follows.FollowUser h r
       = (h, Reply StatusBadRequest (Follows.error "Already following"))).
Proof.
  intros h A B. subst A.
  pose proof (consistent_run ops) as [Hfg Hfl]. fold h in Hfg, Hfl.
  split.
  - intros HB. apply index_of_None in HB as Hi. split.
    + eexists. unfold Follows.FollowUser. fold B. rewrite Hi.
      split; [done|]. split.
      * rewrite following_of_insert, ids_app. apply elem_of_app. right. by left.
      * rewrite followers_of_insert, decide_True by done.
        rewrite ids_app. apply elem_of_app. right. by left.
    + unfold Follows.UnfollowUser. fold B. by rewrite Hi.
  - intros HB. destruct (index_of_is_Some _ _ HB) as [i Hi]. split.
    + eexists. unfold Follows.UnfollowUser. fold B. rewrite Hi.
      split; [done|].
      apply index_of_Some in Hi as (l1 & u & l2 & Hl & Hu & Hn & ->).
      rewrite Hl in Hfg.
      destruct (ids_without_first _ _ _ Hfg) as [_ Hgone]. split.
      * rewrite following_of_insert. by rewrite <- Hu.
      * destruct (Hfl B) as [Hnd _].
        destruct (Follows.index_of 1 _) as [j|] eqn:Hj.
        -- apply index_of_Some in Hj as (f1 & v & f2 & Hf & Hv & _ & ->).
           rewrite followers_of_insert, decide_True by done.
           rewrite Hf in Hnd.
           destruct (ids_without_first _ _ _ Hnd) as [_ Hgone'].
           by rewrite <- Hv.
        -- by apply index_of_None in Hj.
    + unfold Follows.FollowUser. fold B. by rewrite Hi.
Qed.

(** User 1 follows user 5 and then user 7; asking for 7 again is a
    BadRequest, and unfollowing 7 takes the edge out of both lists. *)
Lemma follow_edges_are_symmetric_witness :
  let ops := [Follows.OpFollow (Samples.follow_request "5");
              Follows.OpFollow (Samples.follow_request "7")] in
  let h := Follows.run ops Follows.NewFollowsHandler in
  let r := Samples.follow_request "7" in
  7 ∈ Follows.ids (Follows.following_of h 1)
  ∧ Follows.FollowUser h r
    = (h, Reply StatusBadRequest (Follows.error "Already following"))
  ∧ ∃ h', Follows.UnfollowUser h r
          = (h', Reply StatusOK (Follows.message "Unfollowed"))
          ∧ (7 ∉ Follows.ids (Follows.following_of h' 1))
          ∧ (1 ∉ Follows.ids (Follows.followers_of h' 7)).
Proof.
  intros ops h r.
  assert (7 ∈ Follows.ids (Follows.following_of h 1)) as Hin.
  { vm_compute. right. left. }
  split; [done|].
  destruct (follow_edges_are_symmetric ops r) as [_ Hfollowed].
  destruct (Hfollowed Hin) as [Hun Hagain].
  split; [exact Hagain | exact Hun].
Defined.

(** ** time: the parser of the UTC form *)

Lemma digit_of_bound c d : Strconv.digit_of c = Some d → 0 <= d <= 9.
Proof.
  unfold Strconv.digit_of. case_match eqn:Hc; [|done]. intros [= <-].
  apply andb_true_iff in Hc as [?%Z.leb_le ?%Z.leb_le]. lia.
Qed.

Lemma digits_bound k s v rest :
  GoTime.digits k s = Some (v, rest) → 0 <= v < 10 ^ Z.of_nat k.
Proof.
  revert s v rest. induction k as [|k IH]; intros s v rest.
  - cbn [GoTime.digits]. intros [= <- _]. change (10 ^ Z.of_nat 0) with 1. lia.
  - cbn [GoTime.digits]. destruct s as [|c s]; [done|].
    destruct (Strconv.digit_of c) as [d|] eqn:Hd; [|done].
    cbn [mbind option_bind].
    destruct (GoTime.digits k s) as [[v' r']|] eqn:Hk; [|done].
    cbn [mbind option_bind].
    intros [= <- _]. apply IH in Hk. apply digit_of_bound in Hd.
    rewrite Nat2Z.inj_succ, Z.pow_succ_r by lia.
    set (P := 10 ^ Z.of_nat k) in *. nia.
Qed.

Lemma days_from_civil_bound y m d :
  0 <= y < 10 ^ 4 → 1 <= m <= 12 → 1 <= d <= 31 →
  -800000 <= GoTime.days_from_civil y m d <= 3000000.
Proof.
  intros Hy Hm Hd. unfold GoTime.days_from_civil.
  change (10 ^ 4) with 10000 in Hy.
  destruct (Z.leb_spec m 2); Z.div_mod_to_equations; lia.
Qed.

Ltac bind_case H :=
  match type of H with
  | (?x ≫= _) = Some _ =>
      let E := fresh "E" in
      destruct x as [?|] eqn:E; [|discriminate H]; cbn [mbind option_bind] in H
  end.

(** The times that [ParseUTC] returns are exact. *)
Lemma ParseUTC_exact s tm : GoTime.ParseUTC s = Some tm → GoTime.exact tm.
Proof.
  unfold GoTime.ParseUTC. intros H.
  bind_case H. destruct p as [y s1].
  bind_case H. bind_case H. destruct p as [m s3].
  bind_case H. bind_case H. destruct p as [d s5].
  bind_case H. bind_case H. destruct p as [hh s7].
  bind_case H. bind_case H. destruct p as [mi s9].
  bind_case H. bind_case H. destruct p as [ss s11].
  bind_case H.
  match type of H with (if ?b then _ else _) = _ => destruct b eqn:Hb; [|done] end.
  injection H as <-.
  repeat match goal with
         | E : GoTime.digits _ _ = Some _ |- _ => apply digits_bound in E
         end.
  repeat (apply andb_true_iff in Hb as [Hb ?]).
  repeat match goal with
         | H : (_ <=? _) = true |- _ => apply Z.leb_le in H
         | H : (_ <? _) = true |- _ => apply Z.ltb_lt in H
         end.
  assert (d <= 31) by (unfold GoTime.days_in in *; repeat case_match; lia).
  pose proof (days_from_civil_bound y m d) as Hdays.
  unfold GoTime.exact, GoInt.minInt, GoInt.maxInt, GoTime.unixToInternal.
  cbn [GoTime.sec GoTime.nsec].
  change (Z.of_nat 4) with 4 in *. change (Z.of_nat 2) with 2 in *.
  change (10 ^ 2) with 100 in *.
  change (2 ^ 63) with 9223372036854775808.
  lia.
Qed.

(** ** Feed: the cursor and the limit *)

Lemma zero_exact : GoTime.exact GoTime.zero.
Proof. by vm_compute. Qed.

(** Against a cursor that [time.Unix] represents without wrap-around,
    [Before] compares the Unix times. *)
Lemma Before_Unix c t :
  GoTime.exact c →
  GoInt.minInt <= t <= GoInt.maxInt - GoTime.unixToInternal →
  GoTime.Before c (GoTime.Unix t) = (GoTime.unix_of c <? t).
Proof.
  unfold GoTime.exact, GoTime.Before, GoTime.Unix, GoTime.unix_of, GoInt.add.
  unfold GoInt.minInt, GoInt.maxInt, GoTime.unixToInternal. simpl.
  intros [Hs Hn] Ht.
  rewrite !wrap_exact by (unfold GoInt.minInt, GoInt.maxInt; lia).
  assert ((GoTime.nsec c <? 0) = false) as -> by (apply Z.ltb_ge; lia).
  rewrite andb_false_r, orb_false_r.
  apply Bool.eq_iff_eq_true. rewrite !Z.ltb_lt. lia.
Qed.

(** The loop with a limit of at least one more than what has been
    appended: it appends the next items that pass the test, as many as the
    limit leaves room for. *)
Lemma collect_take Parse bs bt limit fs result :
  GoInt.len result < limit →
  Feeds.collect Parse bs bt limit fs result
  = result ++ take (Z.to_nat (limit - GoInt.len result))
                (List.filter (fun f => GoTime.Before (Feeds.created Parse f) bt
                                       || String.eqb bs "") fs).
Proof.
  revert result. induction fs as [|f fs IH]; intros result Hlen; simpl.
  - by rewrite take_nil, app_nil_r.
  - destruct (GoTime.Before _ _ || _); [|by apply IH].
    assert (GoInt.len (result ++ [f]) = GoInt.len result + 1) as Hlen'.
    { unfold GoInt.len. rewrite length_app. simpl. lia. }
    destruct (Z.geb_spec (GoInt.len (result ++ [f])) limit) as [Hfull|Hroom].
    + replace (Z.to_nat (limit - GoInt.len result)) with 1%nat by lia.
      simpl. by rewrite take_0.
    + rewrite IH by lia. rewrite Hlen', <- app_assoc. simpl.
      replace (Z.to_nat (limit - GoInt.len result))
        with (S (Z.to_nat (limit - (GoInt.len result + 1)))) by lia.
      done.
Qed.

(** With a limit below one the loop still appends the first item that
    passes the test, and stops there. *)
Lemma collect_first Parse bs bt limit fs :
  limit <= 1 →
  Feeds.collect Parse bs bt limit fs []
  = take 1 (List.filter (fun f => GoTime.Before (Feeds.created Parse f) bt
                                  || String.eqb bs "") fs).
Proof.
  intros Hl. induction fs as [|f fs IH]; simpl; [done|].
  destruct (GoTime.Before _ _ || _); [|done].
  destruct (Z.geb_spec (GoInt.len [f]) limit) as [_|Hroom].
  - simpl. by rewrite take_0.
  - unfold GoInt.len in Hroom. simpl in Hroom. lia.
Qed.

Lemma filter_ext_Forall {A} (P Q : A → bool) (R : A → Prop) l :
  (∀ x, R x → P x = Q x) → Forall R l → List.filter P l = List.filter Q l.
Proof.
  intros HPQ. induction 1 as [|x l Hx _ IH]; simpl; [done|].
  by rewrite (HPQ x Hx), IH.
Qed.

(** The feed for a cursor that [time.Unix] represents and a limit of at
    least 1. *)
Lemma GetNewsFeed_feed_before (Parse : string → option GoTime.Time)
    (h : Feeds.FeedsHandler) (now : GoTime.Time) (r : Request) (t : Z) :
  Forall (fun f => GoTime.exact (Feeds.created Parse f)) (Feeds.feeds h) →
  query_get r "before" ≠ "" →
  Strconv.ParseInt (query_get r "before") = (t, None) →
  t <= GoInt.maxInt - GoTime.unixToInternal →
  1 <= Feeds.limit_of r →
  let result := Spec.feed_before Parse t (Feeds.limit_of r) (Feeds.feeds h) in
  Feeds.GetNewsFeed Parse h now r
  = Reply StatusOK {| Feeds.Feeds := result;
                      Feeds.NextCursor := Spec.cursor_of Parse result;
                      Feeds.Error := "" |}.
Proof.
  intros Hex Hpresent Hparse Ht Hlimit result.
  unfold Feeds.GetNewsFeed.
  assert (Feeds.collect Parse (query_get r "before") (Feeds.beforeTime_of now r)
            (Feeds.limit_of r) (Feeds.feeds h) [] = result) as ->; [|done].
  rewrite collect_take by (unfold GoInt.len; simpl; lia).
  simpl. replace (Feeds.limit_of r - GoInt.len []) with (Feeds.limit_of r)
    by (unfold GoInt.len; simpl; lia).
  unfold result, Spec.feed_before. f_equal.
  eapply filter_ext_Forall; [|exact Hex]. intros f Hf.
  simpl in Hf. unfold Feeds.beforeTime_of.
  apply String.eqb_neq in Hpresent. rewrite Hpresent, Hparse. simpl.
  rewrite orb_false_r. apply Before_Unix; [done|].
  pose proof (Atoi_range (query_get r "before")) as Hrange.
  unfold Strconv.Atoi in Hrange. rewrite Hparse in Hrange. simpl in Hrange. lia.
Qed.

(** C6 (as amended). For a feed ordered by recency, a [before] cursor that
    is present and parses as an [int64] that [time.Unix] represents, and a
    limit of at least 1, [GetNewsFeed] returns exactly the posts created
    strictly before the cursor, in the order of the collection, [limit] of
    them at most, and [next_cursor] is the Unix creation time of the last
    item returned, the empty string when none is. In particular, for three
    posts created at the Unix times 100, 90 and 80, [before=95] and
    [limit=10] return the posts at 90 and 80, in that order, and the cursor
    80. The creation times are those that Go computes without wrap-around,
    as [time.Parse] returns them. *)
Theorem feed_cursor_and_limit (Parse : string → option GoTime.Time)
    (now : GoTime.Time) (r : Request) :
  (∀ (h : Feeds.FeedsHandler) (t : Z),
     Forall (fun f => GoTime.exact (Feeds.created Parse f)) (Feeds.feeds h) →
     query_get r "before" ≠ "" →
     Strconv.ParseInt (query_get r "before") = (t, None) →
     t <= GoInt.maxInt - GoTime.unixToInternal →
     1 <= Feeds.limit_of r →
     let result := Spec.feed_before Parse t (Feeds.limit_of r) (Feeds.feeds h) in
     Feeds.GetNewsFeed Parse h now r
     = Reply StatusOK {| Feeds.Feeds := result;
                         Feeds.NextCursor := Spec.cursor_of Parse result;
                         Feeds.Error := "" |})
  ∧ (∀ f100 f90 f80,
       Forall (fun f => GoTime.exact (Feeds.created Parse f)) [f100; f90; f80] →
       GoTime.unix_of (Feeds.created Parse f100) = 100 →
       GoTime.unix_of (Feeds.created Parse f90) = 90 →
       GoTime.unix_of (Feeds.created Parse f80) = 80 →
       query_get r "before" = "95" →
       query_get r "limit" = "10" →
       Feeds.GetNewsFeed Parse {| Feeds.feeds := [f100; f90; f80] |} now r
       = Reply StatusOK {| Feeds.Feeds := [f90; f80];
                           Feeds.NextCursor := "80"; Feeds.Error := "" |}).
Proof.
  split; [intros h t; by apply GetNewsFeed_feed_before|].
  intros f100 f90 f80 Hex H100 H90 H80 Hbefore Hlimit.
  assert (Feeds.limit_of r = 10) as Hl.
  { unfold Feeds.limit_of. by rewrite Hlimit. }
  rewrite (GetNewsFeed_feed_before Parse _ now r 95); try done.
  - rewrite Hl. unfold Spec.feed_before, Spec.cursor_of. simpl.
    rewrite H100, H90, H80. simpl. by rewrite H80.
  - by rewrite Hbefore.
  - by rewrite Hbefore.
  - by rewrite Hl.
Qed.

(** The feed with posts at the Unix times 100, 90 and 80, as [ParseUTC]
    reads them, asked with [before=95] and [limit=10]. *)
Lemma feed_cursor_and_limit_witness :
  Feeds.GetNewsFeed GoTime.ParseUTC Samples.three_feeds Samples.noon
    (Samples.request [] [("before", ["95"]); ("limit", ["10"])])
  = Reply StatusOK {| Feeds.Feeds := [Samples.at_90; Samples.at_80];
                      Feeds.NextCursor := "80"; Feeds.Error := "" |}.
Proof.
  destruct (feed_cursor_and_limit GoTime.ParseUTC Samples.noon
              (Samples.request [] [("before", ["95"]); ("limit", ["10"])]))
    as [_ Hexample].
  apply (Hexample Samples.at_100 Samples.at_90 Samples.at_80).
  - repeat constructor; by_running.
  - by_running.
  - by_running.
  - by_running.
  - by_running.
  - by_running.
Defined.

(** C6 (as stated) fails. With [limit=0] the feed returns one item, the
    test against the limit coming after the append; a cursor that is a
    number beyond [int64] is not parsed, and a cursor near the end of
    [int64] wraps around in [time.Unix]: both return nothing, although every
    post was created before them. *)
Lemma feed_limit_and_cursor_as_stated_fail :
  Feeds.GetNewsFeed GoTime.ParseUTC Samples.three_feeds Samples.noon
    (Samples.request [] [("before", ["95"]); ("limit", ["0"])])
  = Reply StatusOK {| Feeds.Feeds := [Samples.at_90];
                      Feeds.NextCursor := "90"; Feeds.Error := "" |}
  ∧ Feeds.GetNewsFeed GoTime.ParseUTC Samples.three_feeds Samples.noon
      (Samples.request [] [("before", ["99999999999999999999"]); ("limit", ["10"])])
    = Reply StatusOK {| Feeds.Feeds := []; Feeds.NextCursor := "";
                        Feeds.Error := "" |}
  ∧ Feeds.GetNewsFeed GoTime.ParseUTC Samples.three_feeds Samples.noon
      (Samples.request [] [("before", ["9223372036854775807"]); ("limit", ["10"])])
    = Reply StatusOK {| Feeds.Feeds := []; Feeds.NextCursor := "";
                        Feeds.Error := "" |}.
Proof. by vm_compute. Qed.

(** ** Reactions: the last write wins *)

Lemma stored_insert m postID inner u t :
  Reactions.stored
    {| Reactions.reactions := Some (<[postID := <[u := t]> inner]> m) |}
    postID u = Some t.
Proof.
  unfold Reactions.stored, Reactions.entries. simpl.
  rewrite lookup_insert_eq. simpl. by rewrite lookup_insert_eq.
Qed.

Lemma ReactToPost_allocated TrimSpace h m r q :
  Reactions.reactions h = Some m →
  TrimSpace (Reactions.ReactionType q) ≠ "" →
  Reactions.ReactToPost TrimSpace h r (Some q)
  = ({| Reactions.reactions :=
          Some (<[var r "post_id" :=
                    <[Reactions.userID := Reactions.ReactionType q]>
                      (default ∅ (m !! var r "post_id"))]> m) |},
     Reply StatusCreated (Reactions.message "Reaction added")).
Proof.
  intros Hm Ht. unfold Reactions.ReactToPost.
  apply String.eqb_neq in Ht. by rewrite Ht, Hm.
Qed.

(** A reaction that is answered with Created had a body with a type that is
    not blank and found the map allocated. *)
Lemma ReactToPost_Created TrimSpace h r body h' b :
  Reactions.ReactToPost TrimSpace h r body = (h', Reply StatusCreated b) →
  ∃ q m, body = Some q ∧ Reactions.reactions h = Some m
         ∧ TrimSpace (Reactions.ReactionType q) ≠ "".
Proof.
  unfold Reactions.ReactToPost. destruct body as [q|]; [|done].
  destruct (String.eqb_spec (TrimSpace (Reactions.ReactionType q)) ""); [done|].
  destruct (Reactions.reactions h) as [m|]; [|done]. eauto.
Qed.

(** C7. When two reactions to a post, one after the other, are both
    answered with Created, the store is left as the second alone would leave
    it: one reaction is stored for the (post, user) key, of the second type,
    and the post has as many reactions as after the first. [RemoveReaction]
    for a key that has no reaction fails with NotFound and leaves the map as
    it is. *)
Theorem reaction_last_write_wins (TrimSpace : string → string)
    (h h1 h2 : Reactions.ReactionsHandler) (r : Request)
    (body1 body2 : option Reactions.ReactionRequest)
    (b1 b2 : Reactions.ReactionResponse) :
  Reactions.ReactToPost TrimSpace h r body1 = (h1, Reply StatusCreated b1) →
  Reactions.ReactToPost TrimSpace h1 r body2 = (h2, Reply StatusCreated b2) →
  let postID := var r "post_id" in
  (∃ q2, body2 = Some q2
         ∧ Reactions.stored h2 postID Reactions.userID
           = Some (Reactions.ReactionType q2)
         ∧ Reactions.reaction_of h2 postID Reactions.userID
           = Reactions.ReactionType q2)
  ∧ h2 = (Reactions.ReactToPost TrimSpace h r body2).1
  ∧ size (default ∅ (Reactions.entries h2 !! postID))
    = size (default ∅ (Reactions.entries h1 !! postID))
  ∧ (∀ h' r' body,
       Reactions.stored h' (var r' "post_id") Reactions.userID = None →
       Reactions.RemoveReaction h' r' body
       = (h', Reply StatusNotFound (Reactions.error "Reaction not found"))).
Proof.
  intros H1 H2 postID.
  destruct (ReactToPost_Created _ _ _ _ _ _ H1) as (q1 & m & -> & Hm & Ht1).
  destruct (ReactToPost_Created _ _ _ _ _ _ H2) as (q2 & m1 & -> & Hm1 & Ht2).
  rewrite (ReactToPost_allocated _ h m r q2) by done.
  rewrite (ReactToPost_allocated _ h m r q1) in H1 by done.
  injection H1 as <- _. cbn [Reactions.reactions] in Hm1. injection Hm1 as <-.
  erewrite ReactToPost_allocated in H2 by done.
  injection H2 as <- _. cbn [fst]. fold postID.
  rewrite lookup_insert_eq. cbn [from_option id]. rewrite !insert_insert_eq.
  split; [|split; [done|split]].
  - exists q2. split; [done|]. split; [apply stored_insert|].
    unfold Reactions.reaction_of, Reactions.entries. simpl.
    rewrite lookup_insert_eq. simpl. by rewrite lookup_insert_eq.
  - unfold Reactions.entries. simpl. rewrite !lookup_insert_eq. simpl.
    by rewrite !map_size_insert.
  - intros h' r' body. unfold Reactions.stored, Reactions.RemoveReaction.
    destruct (Reactions.entries h' !! _) as [inner|]; [|done]. simpl.
    by intros ->.
Qed.

(** A like, then a love, on post 10 of a new handler: love is stored. *)
Lemma reaction_last_write_wins_witness :
  let r := Samples.post_request "10" in
  let first := Reactions.ReactToPost Reactions.TrimSpaceASCII
                 Reactions.NewReactionsHandler r (Samples.react "like") in
  let second := Reactions.ReactToPost Reactions.TrimSpaceASCII first.1 r
                  (Samples.react "love") in
  first.2 = Reply StatusCreated (Reactions.message "Reaction added")
  ∧ second.2 = Reply StatusCreated (Reactions.message "Reaction added")
  ∧ Reactions.reaction_of second.1 "10" "user1" = "love"
  ∧ second.1 = (Reactions.ReactToPost Reactions.TrimSpaceASCII
                  Reactions.NewReactionsHandler r (Samples.react "love")).1.
Proof.
  intros r first second.
  destruct (reaction_last_write_wins Reactions.TrimSpaceASCII
              Reactions.NewReactionsHandler first.1 second.1 r
              (Samples.react "like") (Samples.react "love")
              (Reactions.message "Reaction added")
              (Reactions.message "Reaction added"))
    as ((q2 & Hq2 & _ & Hlast) & Hsame & _); [by_running | by_running |].
  injection Hq2 as <-.
  split; [by_running|]. split; [by_running|]. split; [exact Hlast | exact Hsame].
Defined.

(** ** Media: the order of the checks of an upload *)

Lemma valid_type_test values :
  negb (String.eqb (Medias.FormValue values "type") "image")
  && negb (String.eqb (Medias.FormValue values "type") "video") = false
  ↔ Medias.valid_type values.
Proof.
  unfold Medias.valid_type.
  destruct (String.eqb_spec (Medias.FormValue values "type") "image");
    destruct (String.eqb_spec (Medias.FormValue values "type") "video");
    simpl; split; try done; try (by intros _; left); try (by intros _; right);
    intros [?|?]; congruence.
Qed.

Lemma invalid_post_id_NotFound Base Join Create h values file :
  Medias.valid_type values → ¬ Medias.valid_post_id values →
  Medias.UploadMedia Base Join Create h (Medias.Form values file)
  = (h, Reply StatusNotFound (Medias.error "Post not found")).
Proof.
  intros Ht Hp. unfold Medias.UploadMedia.
  apply valid_type_test in Ht. rewrite Ht.
  destruct (Strconv.Atoi _) as [postID [e|]] eqn:Ha; [done|].
  destruct (Z.leb_spec postID 0); [done|].
  destruct Hp. exists postID. by rewrite Ha.
Qed.

(** C9 (as amended). [UploadMedia] checks in this order: a form that does
    not parse or a type that is neither image nor video is a BadRequest;
    then a [post_id] that [Atoi] rejects or that is not strictly positive is
    NotFound (whether the post exists is not looked at); then a missing file
    part is a BadRequest; then a file that cannot be created is an internal
    error. Otherwise the upload succeeds: a [Media] entry is appended whose
    id is the sequence number and whose path is built from the sequence
    number and the base name of the file, and the sequence number moves on
    by one. Every outcome other than this success leaves the entries and the
    sequence number as they were. *)
Theorem upload_checks_in_order (Base : string → string)
    (Join : string → string → string) (Create : string → bool)
    (h : Medias.MediaHandler) :
  let run := Medias.UploadMedia Base Join Create h in
  run Medias.BadForm
  = (h, Reply StatusBadRequest (Medias.error "Invalid form data"))
  ∧ (∀ values file,
       ¬ Medias.valid_type values →
       run (Medias.Form values file)
       = (h, Reply StatusBadRequest (Medias.error "Invalid media type")))
  ∧ (∀ values file,
       Medias.valid_type values → ¬ Medias.valid_post_id values →
       run (Medias.Form values file)
       = (h, Reply StatusNotFound (Medias.error "Post not found")))
  ∧ (∀ values,
       Medias.valid_type values → Medias.valid_post_id values →
       run (Medias.Form values None)
       = (h, Reply StatusBadRequest (Medias.error "File is required")))
  ∧ (∀ values name,
       Medias.valid_type values → Medias.valid_post_id values →
       let path := Join "./uploads"
                     (Strconv.Itoa (Medias.nextID h) +:+ "_" +:+ Base name) in
       (Create path = false →
        run (Medias.Form values (Some name))
        = (h, Reply StatusInternalServerError (Medias.error "Cannot save file")))
       ∧ (Create path = true →
          run (Medias.Form values (Some name))
          = ({| Medias.nextID := GoInt.add (Medias.nextID h) 1;
                Medias.medias :=
                  Medias.medias h
                  ++ [{| Medias.ID := Medias.nextID h;
                         Medias.Type_ := Medias.FormValue values "type";
                         Medias.PostID :=
                           (Strconv.Atoi (Medias.FormValue values "post_id")).1;
                         Medias.URL := path |}] |},
             Reply StatusCreated
               {| Medias.MediaID := Medias.nextID h;
                  Medias.Message := "Media uploaded"; Medias.Error := "" |})))
  ∧ (∀ u h' st b,
       run u = (h', Reply st b) → st ≠ StatusCreated → h' = h).
Proof.
  intros run. subst run. split; [done|]. split; [|split; [|split; [|split]]].
  - intros values file Ht. unfold Medias.UploadMedia.
    destruct (_ && _) eqn:Htest; [done|]. by apply valid_type_test in Htest.
  - intros values file. apply invalid_post_id_NotFound.
  - intros values Ht (postID & Ha & Hpos). unfold Medias.UploadMedia.
    apply valid_type_test in Ht. rewrite Ht, Ha.
    by destruct (Z.leb_spec postID 0); [lia|].
  - intros values name Ht (postID & Ha & Hpos) path.
    unfold Medias.UploadMedia, Medias.filename_of. fold path.
    apply valid_type_test in Ht. rewrite Ht, Ha.
    destruct (Z.leb_spec postID 0); [lia|].
    split; intros ->; done.
  - intros u h' st b. unfold Medias.UploadMedia.
    repeat case_match; intros [= <- <- _]; done.
Qed.

(** An image for post 4 is the first upload of a new handler. *)
Lemma upload_checks_in_order_witness :
  Medias.UploadMedia Samples.base_id Samples.join_slash Samples.create_ok
    Medias.NewMediaHandler (Samples.upload "image" "4" (Some "cat.png"))
  = ({| Medias.nextID := 2;
        Medias.medias := [{| Medias.ID := 1; Medias.Type_ := "image";
                             Medias.PostID := 4;
                             Medias.URL := "./uploads/1_cat.png" |}] |},
     Reply StatusCreated {| Medias.MediaID := 1;
                            Medias.Message := "Media uploaded";
                            Medias.Error := "" |}).
Proof.
  destruct (upload_checks_in_order Samples.base_id Samples.join_slash
              Samples.create_ok Medias.NewMediaHandler)
    as (_ & _ & _ & _ & Hfile & _).
  destruct (Hfile (list_to_map [("type", ["image"]); ("post_id", ["4"])])
              "cat.png") as [_ Hok].
  - by left.
  - exists 4. by_running.
  - by apply Hok.
Defined.

(** C9 (as stated) fails: a missing file part is not answered with
    BadRequest when the post id is 0 (NotFound comes first), and a post id
    that is no number is not answered with NotFound when the type is
    neither image nor video (BadRequest comes first). *)
Lemma upload_errors_overlap :
  (Medias.UploadMedia Samples.base_id Samples.join_slash Samples.create_ok
     Medias.NewMediaHandler (Samples.upload "image" "0" None)).2
  = Reply StatusNotFound (Medias.error "Post not found")
  ∧ (Medias.UploadMedia Samples.base_id Samples.join_slash Samples.create_ok
       Medias.NewMediaHandler (Samples.upload "audio" "abc" (Some "a.mp3"))).2
    = Reply StatusBadRequest (Medias.error "Invalid media type").
Proof. by vm_compute. Qed.

(** * Further properties of the handlers *)

(** ** Accounts: registration, login and the two keys of an account *)

(** What [Register] does with a request that passes its checks. *)
Lemma Register_valid ToLower h clock req :
  Auth.valid_registration req →
  Auth.Register ToLower h "POST" clock (Some req)
  = (let newID := Z.of_nat (size (Auth.entries h)) + 1 in
     let user := {| Auth.ID := newID; Auth.Username := Auth.reg_username req;
                    Auth.Email := Auth.reg_email req;
                    Auth.Password := Auth.reg_password req;
                    Auth.IsDeleted := false |} in
     ({| Auth.Users :=
           Some (<[ToLower (Auth.reg_email req) := user]>
                   (<[ToLower (Auth.reg_username req) := user]>
                      (Auth.entries h))) |},
      (Auth.StatusOK, Auth.Registered newID (Auth.token_of clock)))).
Proof.
  intros (Hu & He & Hp). unfold Auth.Register.
  apply String.eqb_neq in Hu, He, Hp. simpl. by rewrite Hu, He, Hp.
Qed.

(** Both keys of a registration hold the new account. *)
Lemma Register_lookup ToLower h clock req :
  Auth.valid_registration req →
  let h' := (Auth.Register ToLower h "POST" clock (Some req)).1 in
  ∃ user,
    Auth.entries h' !! ToLower (Auth.reg_username req) = Some user
    ∧ Auth.entries h' !! ToLower (Auth.reg_email req) = Some user
    ∧ Auth.Password user = Auth.reg_password req
    ∧ Auth.IsDeleted user = false
    ∧ (∀ k, k ≠ ToLower (Auth.reg_username req) →
            k ≠ ToLower (Auth.reg_email req) →
            Auth.entries h' !! k = Auth.entries h !! k).
Proof.
  intros Hv h'. subst h'. rewrite Register_valid by done. cbv zeta.
  cbn [fst]. set (m := Auth.entries h).
  unfold Auth.entries. cbn [Auth.Users from_option id].
  eexists.
  split; [|split; [by rewrite lookup_insert_eq|split; [done|split; [done|]]]].
  - rewrite lookup_insert. case_decide; [done|]. by rewrite lookup_insert_eq.
  - intros k Hk1 Hk2. by rewrite !lookup_insert_ne.
Qed.

Lemma Login_lookup ToLower h clock name password user :
  Auth.entries h !! ToLower name = Some user →
  Auth.Login ToLower h "POST" clock
    (Some {| Auth.login := name; Auth.login_password := password |})
  = if decide (Auth.Password user = password ∧ Auth.IsDeleted user = false)
    then (Auth.StatusOK, Auth.Token (Auth.token_of clock))
    else (Auth.StatusUnauthorized, Auth.ErrorBody "Invalid credentials").
Proof.
  intros Hu. unfold Auth.Login. simpl. rewrite Hu.
  destruct (String.eqb_spec (Auth.Password user) password);
    destruct (Auth.IsDeleted user); simpl; case_decide; intuition congruence.
Qed.

(** X1. After a registration that is accepted, the user logs in with the
    user name and with the e-mail address, in any letter case that
    [ToLower] maps to the same key, and with the password of the
    registration only. *)
Theorem register_then_login (ToLower : string → string)
    (h : Auth.AuthHandler) (clock clock' : string)
    (req : Auth.RegisterRequest) (name password : string) :
  Auth.valid_registration req →
  ToLower name = ToLower (Auth.reg_username req)
  ∨ ToLower name = ToLower (Auth.reg_email req) →
  let registered := Auth.Register ToLower h "POST" clock (Some req) in
  let answer :=
    Auth.Login ToLower registered.1 "POST" clock'
      (Some {| Auth.login := name; Auth.login_password := password |}) in
  registered.2.1 = Auth.StatusOK
  ∧ (password = Auth.reg_password req →
     answer = (Auth.StatusOK, Auth.Token (Auth.token_of clock')))
  ∧ (password ≠ Auth.reg_password req →
     answer = (Auth.StatusUnauthorized, Auth.ErrorBody "Invalid credentials")).
Proof.
  intros Hv Hname registered answer.
  destruct (Register_lookup ToLower h clock req Hv)
    as (user & Hu & He & Hp & Hd & _).
  assert (Auth.entries registered.1 !! ToLower name = Some user) as Hlook.
  { destruct Hname as [-> | ->]; done. }
  subst answer. rewrite (Login_lookup _ _ _ _ _ user Hlook).
  split; [unfold registered; by rewrite Register_valid|].
  split; intros Hpw; case_decide as Hc; try done.
  - destruct Hc. by rewrite Hp.
  - destruct Hc as [Hc _]. congruence.
Qed.

(** Alice registers and logs in, by name in capitals and by e-mail. *)
Lemma register_then_login_witness :
  let h := (Auth.Register Fixtures.lower_ascii Fixtures.new_auth "POST"
              "120000" (Some Fixtures.alice_request)).1 in
  Auth.valid_registration Fixtures.alice_request
  ∧ Auth.Login Fixtures.lower_ascii h "POST" "120001"
      (Fixtures.login_with "ALICE" "secret")
    = (Auth.StatusOK, Auth.Token "fake-jwt-token-120001")
  ∧ Auth.Login Fixtures.lower_ascii h "POST" "120001"
      (Fixtures.login_with "alice@example.com" "guess")
    = (Auth.StatusUnauthorized, Auth.ErrorBody "Invalid credentials").
Proof.
  intros h.
  assert (Auth.valid_registration Fixtures.alice_request) as Hv by by_running.
  split; [done|]. split.
  - apply (register_then_login Fixtures.lower_ascii Fixtures.new_auth
             "120000" "120001" Fixtures.alice_request "ALICE" "secret" Hv);
      [by left | done].
  - apply (register_then_login Fixtures.lower_ascii Fixtures.new_auth
             "120000" "120001" Fixtures.alice_request "alice@example.com"
             "guess" Hv); [by right | by_running].
Defined.

(** X2. [Register] does not look whether a name is taken: a second
    registration under a user name that [ToLower] maps to the key of an
    account is accepted and takes the key over, so that the first password
    no longer logs in under that name and the second one does. *)
Theorem register_takes_over_a_name (ToLower : string → string)
    (h : Auth.AuthHandler) (clock1 clock2 clock3 : string)
    (first second : Auth.RegisterRequest) :
  Auth.valid_registration first →
  Auth.valid_registration second →
  ToLower (Auth.reg_username second) = ToLower (Auth.reg_username first) →
  Auth.reg_password second ≠ Auth.reg_password first →
  let h1 := (Auth.Register ToLower h "POST" clock1 (Some first)).1 in
  let taken := Auth.Register ToLower h1 "POST" clock2 (Some second) in
  let login password :=
    Auth.Login ToLower taken.1 "POST" clock3
      (Some {| Auth.login := Auth.reg_username first;
               Auth.login_password := password |}) in
  taken.2.1 = Auth.StatusOK
  ∧ login (Auth.reg_password first)
    = (Auth.StatusUnauthorized, Auth.ErrorBody "Invalid credentials")
  ∧ login (Auth.reg_password second)
    = (Auth.StatusOK, Auth.Token (Auth.token_of clock3)).
Proof.
  intros Hv1 Hv2 Hname Hpw h1 taken login.
  destruct (Register_lookup ToLower h1 clock2 second Hv2)
    as (user & Hu & _ & Hp & Hd & _).
  rewrite Hname in Hu. fold taken in Hu.
  split; [unfold taken; by rewrite Register_valid|].
  unfold login. rewrite !(Login_lookup _ _ _ _ _ user Hu).
  split; case_decide as Hc; try done.
  - destruct Hc as [Hc _]. congruence.
  - by destruct Hc.
Qed.

(** Mallory registers as ALICE after Alice: Alice's password is refused. *)
Lemma register_takes_over_a_name_witness :
  let h1 := (Auth.Register Fixtures.lower_ascii Fixtures.new_auth "POST"
               "120000" (Some Fixtures.alice_request)).1 in
  let h2 := (Auth.Register Fixtures.lower_ascii h1 "POST" "120500"
               (Some Fixtures.mallory_request)).1 in
  Auth.Login Fixtures.lower_ascii h2 "POST" "121000"
    (Fixtures.login_with "Alice" "secret")
  = (Auth.StatusUnauthorized, Auth.ErrorBody "Invalid credentials")
  ∧ Auth.Login Fixtures.lower_ascii h2 "POST" "121000"
      (Fixtures.login_with "Alice" "hunter2")
    = (Auth.StatusOK, Auth.Token "fake-jwt-token-121000").
Proof.
  intros h1 h2.
  destruct (register_takes_over_a_name Fixtures.lower_ascii Fixtures.new_auth
              "120000" "120500" "121000" Fixtures.alice_request
              Fixtures.mallory_request) as (_ & Hold & Hnew);
    [by_running.. | ].
  split; [exact Hold | exact Hnew].
Defined.

(** The account under ["alice"] and an account under another key, after
    one of the two handlers of the current user has written the first. *)
Lemma entries_after_write h user k :
  Auth.entries {| Auth.Users := Some (<[Auth.current := user]> (Auth.entries h)) |}
    !! k
  = if decide (k = Auth.current) then Some user else Auth.entries h !! k.
Proof.
  unfold Auth.entries at 1. cbn [Auth.Users from_option id].
  rewrite lookup_insert. by repeat case_decide.
Qed.

(** X3. [DeleteAccount] marks the entry under the key ["alice"] only. For
    an account registered with the name alice and an e-mail address, the
    login by name is refused afterwards and the login by e-mail address is
    still accepted: the copy under the second key is not deleted. *)
Theorem delete_account_keeps_the_email_login (ToLower : string → string)
    (h : Auth.AuthHandler) (clock clock' : string)
    (req : Auth.RegisterRequest) :
  Auth.valid_registration req →
  ToLower (Auth.reg_username req) = "alice" →
  ToLower (Auth.reg_email req) ≠ "alice" →
  let h1 := (Auth.Register ToLower h "POST" clock (Some req)).1 in
  let deleted := Auth.DeleteAccount h1 "DELETE" in
  let login name :=
    Auth.Login ToLower deleted.1 "POST" clock'
      (Some {| Auth.login := name;
               Auth.login_password := Auth.reg_password req |}) in
  deleted.2 = (Auth.StatusOK, Auth.MessageBody "Account soft deleted")
  ∧ login (Auth.reg_username req)
    = (Auth.StatusUnauthorized, Auth.ErrorBody "Invalid credentials")
  ∧ login (Auth.reg_email req)
    = (Auth.StatusOK, Auth.Token (Auth.token_of clock')).
Proof.
  intros Hv Hname Hmail h1 deleted login.
  destruct (Register_lookup ToLower h clock req Hv)
    as (user & Hu & He & Hp & Hd & _).
  fold h1 in Hu, He. rewrite Hname in Hu.
  assert (deleted
          = ({| Auth.Users :=
                  Some (<[Auth.current :=
                            {| Auth.ID := Auth.ID user;
                               Auth.Username := Auth.Username user;
                               Auth.Email := Auth.Email user;
                               Auth.Password := Auth.Password user;
                               Auth.IsDeleted := true |}]> (Auth.entries h1)) |},
             (Auth.StatusOK, Auth.MessageBody "Account soft deleted"))) as ->.
  { unfold deleted, Auth.DeleteAccount. simpl. unfold Auth.current. by rewrite Hu. }
  split; [done|]. unfold login. cbn [fst]. split.
  - erewrite Login_lookup; [|rewrite entries_after_write, Hname; by rewrite decide_True].
    by rewrite decide_False by (simpl; intros [_ ?]; done).
  - erewrite Login_lookup;
      [|rewrite entries_after_write; rewrite decide_False by done; exact He].
    by rewrite decide_True.
Qed.

(** Alice deletes her account and still logs in with her e-mail address. *)
Lemma delete_account_keeps_the_email_login_witness :
  let h1 := (Auth.Register Fixtures.lower_ascii Fixtures.new_auth "POST"
               "120000" (Some Fixtures.alice_request)).1 in
  let h2 := (Auth.DeleteAccount h1 "DELETE").1 in
  Auth.Login Fixtures.lower_ascii h2 "POST" "121000"
    (Fixtures.login_with "Alice" "secret")
  = (Auth.StatusUnauthorized, Auth.ErrorBody "Invalid credentials")
  ∧ Auth.Login Fixtures.lower_ascii h2 "POST" "121000"
      (Fixtures.login_with "alice@example.com" "secret")
    = (Auth.StatusOK, Auth.Token "fake-jwt-token-121000").
Proof.
  intros h1 h2.
  destruct (delete_account_keeps_the_email_login Fixtures.lower_ascii
              Fixtures.new_auth "120000" "121000" Fixtures.alice_request)
    as (_ & Hname & Hmail); [by_running.. | ].
  split; [exact Hname | exact Hmail].
Defined.

(** X4. [ChangePassword] writes the entry under the key ["alice"] only.
    For an account registered with the name alice and an e-mail address,
    after the password has been changed the login by name takes the new
    password and refuses the old one, while the login by e-mail address
    still takes the old password and refuses the new one. A wrong old
    password is Forbidden and changes nothing. *)
Theorem change_password_misses_the_email_login (ToLower : string → string)
    (h : Auth.AuthHandler) (clock clock' : string)
    (req : Auth.RegisterRequest) (new : string) :
  Auth.valid_registration req →
  ToLower (Auth.reg_username req) = "alice" →
  ToLower (Auth.reg_email req) ≠ "alice" →
  new ≠ Auth.reg_password req →
  let h1 := (Auth.Register ToLower h "POST" clock (Some req)).1 in
  let changed :=
    Auth.ChangePassword h1 "PUT"
      (Some {| Auth.old_password := Auth.reg_password req;
               Auth.new_password := new |}) in
  let login name password :=
    Auth.Login ToLower changed.1 "POST" clock'
      (Some {| Auth.login := name; Auth.login_password := password |}) in
  let accepted := (Auth.StatusOK, Auth.Token (Auth.token_of clock')) in
  let refused :=
    (Auth.StatusUnauthorized, Auth.ErrorBody "Invalid credentials") in
  changed.2 = (Auth.StatusOK, Auth.MessageBody "Password updated")
  ∧ login (Auth.reg_username req) new = accepted
  ∧ login (Auth.reg_username req) (Auth.reg_password req) = refused
  ∧ login (Auth.reg_email req) (Auth.reg_password req) = accepted
  ∧ login (Auth.reg_email req) new = refused
  ∧ (∀ old, old ≠ Auth.reg_password req →
       Auth.ChangePassword h1 "PUT"
         (Some {| Auth.old_password := old; Auth.new_password := new |})
       = (h1, (Auth.StatusForbidden, Auth.ErrorBody "Invalid old password"))).
Proof.
  intros Hv Hname Hmail Hnew h1 changed login accepted refused.
  destruct (Register_lookup ToLower h clock req Hv)
    as (user & Hu & He & Hp & Hd & _).
  fold h1 in Hu, He. rewrite Hname in Hu.
  assert (changed
          = ({| Auth.Users :=
                  Some (<[Auth.current :=
                            {| Auth.ID := Auth.ID user;
                               Auth.Username := Auth.Username user;
                               Auth.Email := Auth.Email user;
                               Auth.Password := new;
                               Auth.IsDeleted := Auth.IsDeleted user |}]>
                          (Auth.entries h1)) |},
             (Auth.StatusOK, Auth.MessageBody "Password updated"))) as ->.
  { unfold changed, Auth.ChangePassword. simpl. unfold Auth.current.
    rewrite Hu, Hp. simpl. by rewrite String.eqb_refl. }
  split; [done|]. unfold login, accepted, refused. cbn [fst].
  split; [|split; [|split; [|split]]].
  - erewrite Login_lookup; [|rewrite entries_after_write, Hname; by rewrite decide_True].
    by rewrite decide_True.
  - erewrite Login_lookup; [|rewrite entries_after_write, Hname; by rewrite decide_True].
    rewrite decide_False; [done|]. simpl. intros [? _]. done.
  - erewrite Login_lookup;
      [|rewrite entries_after_write; rewrite decide_False by done; exact He].
    by rewrite decide_True.
  - erewrite Login_lookup;
      [|rewrite entries_after_write; rewrite decide_False by done; exact He].
    rewrite decide_False; [done|]. intros [? _]. congruence.
  - intros old Hold. unfold Auth.ChangePassword. simpl. unfold Auth.current.
    rewrite Hu, Hp. apply not_eq_sym, String.eqb_neq in Hold. by rewrite Hold.
Qed.

(** Alice changes her password: the e-mail login keeps the old one. *)
Lemma change_password_misses_the_email_login_witness :
  let h1 := (Auth.Register Fixtures.lower_ascii Fixtures.new_auth "POST"
               "120000" (Some Fixtures.alice_request)).1 in
  let h2 := (Auth.ChangePassword h1 "PUT"
               (Some {| Auth.old_password := "secret";
                        Auth.new_password := "better" |})).1 in
  Auth.Login Fixtures.lower_ascii h2 "POST" "121000"
    (Fixtures.login_with "alice" "better")
  = (Auth.StatusOK, Auth.Token "fake-jwt-token-121000")
  ∧ Auth.Login Fixtures.lower_ascii h2 "POST" "121000"
      (Fixtures.login_with "alice@example.com" "secret")
    = (Auth.StatusOK, Auth.Token "fake-jwt-token-121000").
Proof.
  intros h1 h2.
  destruct (change_password_misses_the_email_login Fixtures.lower_ascii
              Fixtures.new_auth "120000" "121000" Fixtures.alice_request
              "better") as (_ & Hname & _ & Hmail & _); [by_running.. | ].
  split.
  - assert (Auth.Login Fixtures.lower_ascii h2 "POST" "121000"
              (Fixtures.login_with "alice" "better")
            = Auth.Login Fixtures.lower_ascii h2 "POST" "121000"
                (Fixtures.login_with "Alice" "better")) as -> by by_running.
    exact Hname.
  - exact Hmail.
Defined.

(** ** Notifications: marking as read *)

Lemma mark_Marked id l l' :
  Notifications.mark id l = Notifications.Marked l' →
  length l' = length l
  ∧ Forall2 Notifications.same_but_read l l'
  ∧ Notifications.mark id l' = Notifications.Marked l'
  ∧ ∃ n, n ∈ l' ∧ Notifications.ID n = id ∧ Notifications.Read n = true.
Proof.
  assert (∀ n, Notifications.same_but_read n n) as Hrefl.
  { intros n. by repeat split. }
  revert l'. induction l as [|n rest IH]; intros l'; simpl; [done|].
  destruct (Z.eqb_spec (Notifications.ID n) id) as [Hid|Hid].
  - destruct (Z.eqb_spec (Notifications.SourceUserID n) 1) as [Hs|Hs]; [|done].
    simpl. intros [= <-]. split; [done|]. split; [|split].
    + constructor; [by repeat split | by apply Forall_Forall2_diag, Forall_forall].
    + simpl. destruct (Z.eqb_spec (Notifications.ID n) id); [|done].
      by destruct (Z.eqb_spec (Notifications.SourceUserID n) 1).
    + exists (Notifications.read n). split; [by left | done].
  - destruct (Notifications.mark id rest) as [| |rest'] eqn:Hrest; try done.
    intros [= <-]. destruct (IH rest' eq_refl) as (Hlen & Hall & Hagain & n' & Hn' & Hid' & Hr).
    split; [simpl; by rewrite Hlen|]. split; [by constructor|]. split.
    + simpl. destruct (Z.eqb_spec (Notifications.ID n) id); [done|].
      by rewrite Hagain.
    + exists n'. split; [by right | done].
Qed.

(** X5. [MarkAsRead] that is answered with OK changes nothing but read
    flags, and sets them only: the list keeps its length and its order,
    every notification keeps its other fields, none that was read becomes
    unread, and a notification with the id of the request is read
    afterwards; the same request once more is answered with OK and changes
    nothing. Every other answer leaves the notifications as they were. *)
Theorem mark_as_read_only_sets_read_flags
    (h h' : Notifications.NotificationHandler) (r : Request)
    (st : Status) (b : Notifications.MarkBody) :
  Notifications.MarkAsRead h r = (h', Reply st b) →
  (st = StatusOK →
   GoInt.len (Notifications.notifications h')
   = GoInt.len (Notifications.notifications h)
   ∧ Forall2 Notifications.same_but_read
       (Notifications.notifications h) (Notifications.notifications h')
   ∧ (∃ n, n ∈ Notifications.notifications h'
           ∧ Notifications.ID n = (Strconv.Atoi (var r "notification_id")).1
           ∧ Notifications.Read n = true)
   ∧ Notifications.MarkAsRead h' r = (h', Reply st b))
  ∧ (st ≠ StatusOK → h' = h).
Proof.
  unfold Notifications.MarkAsRead.
  destruct (Strconv.Atoi _) as [id [e|]] eqn:Ha.
  { intros [= <- <- <-]. split; done. }
  destruct (Notifications.mark id _) as [| |l'] eqn:Hm;
    intros [= <- <- <-]; try (split; done).
  split; [|done]. intros _.
  destruct (mark_Marked _ _ _ Hm) as (Hlen & Hall & Hagain & Hn).
  cbn [Notifications.notifications fst]. unfold GoInt.len.
  rewrite Hlen, Hagain. done.
Qed.

(** Notification 3 of user 1 is marked; notification 2 is not ours, and
    notification 9 is not there. *)
Lemma mark_as_read_only_sets_read_flags_witness :
  let r := Fixtures.notification_request "3" in
  let marked := Notifications.MarkAsRead Fixtures.mixed_notifications r in
  marked.2 = Reply StatusOK
               (Notifications.MarkMessage "Notification marked as read")
  ∧ Notifications.MarkAsRead marked.1 r = marked
  ∧ (Notifications.MarkAsRead Fixtures.mixed_notifications
       (Fixtures.notification_request "2")).2
    = Reply StatusForbidden (Notifications.MarkError "Forbidden")
  ∧ (Notifications.MarkAsRead Fixtures.mixed_notifications
       (Fixtures.notification_request "9")).2
    = Reply StatusNotFound (Notifications.MarkError "Notification not found").
Proof.
  intros r marked.
  assert (Notifications.MarkAsRead Fixtures.mixed_notifications r
          = (marked.1, Reply StatusOK
                         (Notifications.MarkMessage "Notification marked as read")))
    as Hrun by by_running.
  destruct (mark_as_read_only_sets_read_flags _ _ _ _ _ Hrun) as [Hok _].
  destruct (Hok eq_refl) as (_ & _ & _ & Hagain).
  split; [by_running|]. split; [by rewrite Hagain, <- Hrun|].
  split; by_running.
Defined.

(** ** Comments: ids, soft deletion and edits *)

Lemma find_comment_Some commentID l i c :
  Comments.find_comment commentID l = Some (i, c) →
  l !! i = Some c ∧ Comments.CommentID c = commentID.
Proof.
  revert i. induction l as [|c0 rest IH]; intros i; simpl; [done|].
  destruct (Z.eqb_spec (Comments.CommentID c0) commentID) as [Hid|Hid].
  - by intros [= <- <-].
  - destruct (Comments.find_comment commentID rest) as [[j c']|]; [|done].
    simpl. intros [= <- <-]. by apply IH.
Qed.

Lemma find_comment_None commentID l :
  Comments.find_comment commentID l = None ↔
  commentID ∉ Comments.CommentID <$> l.
Proof.
  induction l as [|c0 rest IH]; simpl.
  - split; [intros _; apply not_elem_of_nil | done].
  - rewrite not_elem_of_cons.
    destruct (Z.eqb_spec (Comments.CommentID c0) commentID) as [Hid|Hid].
    + split; [done | intros [Hne _]; congruence].
    + rewrite fmap_None, IH. split; [intros ?; split; [congruence|done] | tauto].
Qed.

(** The outer loop, whatever the order of the iteration: every list of the
    map is rewritten once, and [found] tells whether one of them holds the
    id. *)
Lemma rewrite_found_fold commentID change
    (visit : list (Z * list Comments.Comment)) :
  ∀ (m : gmap Z (list Comments.Comment)) (b : bool),
    NoDup visit.*1 →
    (∀ p l, (p, l) ∈ visit → m !! p = Some l) →
    let out :=
      foldl
        (λ acc entry,
           match Comments.find_comment commentID entry.2 with
           | Some (i, c) =>
               (<[entry.1 := <[i := change c]> (default [] (acc.1 !! entry.1))]>
                  acc.1,
                true)
           | None => acc
           end)
        (m, b) visit in
    (∀ p, out.1 !! p
          = if decide (p ∈ visit.*1)
            then Comments.rewritten commentID change <$> m !! p
            else m !! p)
    ∧ (out.2 = true ↔
       b = true ∨ ∃ p l, (p, l) ∈ visit ∧ commentID ∈ Comments.CommentID <$> l).
Proof.
  induction visit as [|[p0 l0] rest IH]; intros m b Hnd Hm; simpl.
  { split; [done|]. split; [by left|]. intros [?|(p & l & Hin & _)]; [done|].
    by apply elem_of_nil in Hin. }
  apply NoDup_cons in Hnd as [Hp0 Hnd].
  assert (m !! p0 = Some l0) as Hl0 by (apply Hm; left).
  set (step := match Comments.find_comment commentID l0 with
               | Some (i, c) => _ | None => _ end).
  assert (step.1 = <[p0 := Comments.rewritten commentID change l0]> m) as Hstep.
  { subst step. unfold Comments.rewritten.
    destruct (Comments.find_comment commentID l0) as [[i c]|]; simpl.
    - by rewrite Hl0.
    - by rewrite insert_id. }
  assert (step.2 = true ↔ b = true ∨ commentID ∈ Comments.CommentID <$> l0)
    as Hfound.
  { subst step.
    destruct (Comments.find_comment commentID l0) as [[i c]|] eqn:Hf; simpl.
    - split; [|done]. intros _. right.
      apply find_comment_Some in Hf as [Hi <-].
      apply list_elem_of_fmap. exists c. split; [done|].
      by eapply list_elem_of_lookup_2.
    - apply find_comment_None in Hf. tauto. }
  destruct step as [m1 b1]. simpl in Hstep, Hfound. subst m1.
  destruct (IH (<[p0 := Comments.rewritten commentID change l0]> m) b1 Hnd)
    as [Hmap Hb].
  { intros p l Hin. rewrite lookup_insert_ne; [apply Hm; by right|].
    intros ->. apply Hp0, list_elem_of_fmap. by exists (p, l). }
  split.
  - intros p. rewrite Hmap. destruct (decide (p = p0)) as [->|Hne].
    + rewrite decide_False by done. rewrite lookup_insert_eq.
      rewrite decide_True by left. by rewrite Hl0.
    + rewrite lookup_insert_ne by done.
      repeat case_decide; try done.
      * exfalso. apply H0. by right.
      * exfalso. apply elem_of_cons in H0 as [?|?]; done.
  - rewrite Hb, Hfound. split.
    + intros [[?|?]|(p & l & Hin & Hid)]; [by left| |].
      * right. exists p0, l0. split; [left|done].
      * right. exists p, l. split; [by right|done].
    + intros [?|(p & l & Hin & Hid)]; [by left; left|].
      apply elem_of_cons in Hin as [[= -> ->]|Hin]; [by left; right|].
      right. by exists p, l.
Qed.

Lemma rewrite_found_spec commentID change visit h :
  Comments.ranges_over visit h →
  let out := Comments.rewrite_found commentID change visit (Comments.comments h) in
  out.1 = Comments.rewritten commentID change <$> Comments.comments h
  ∧ (out.2 = true ↔
     ∃ p l, Comments.comments h !! p = Some l
            ∧ commentID ∈ Comments.CommentID <$> l).
Proof.
  intros Hv. unfold Comments.ranges_over in Hv.
  assert (∀ p l, (p, l) ∈ visit ↔ Comments.comments h !! p = Some l) as Hin.
  { intros p l. rewrite Hv. apply elem_of_map_to_list. }
  destruct (rewrite_found_fold commentID change visit (Comments.comments h) false)
    as [Hmap Hb].
  { rewrite Hv. apply NoDup_fst_map_to_list. }
  { intros p l. apply Hin. }
  unfold Comments.rewrite_found. split.
  - apply map_eq. intros p. rewrite Hmap, lookup_fmap. case_decide as Hp; [done|].
    destruct (Comments.comments h !! p) as [l|] eqn:Hl; [|done].
    exfalso. apply Hp, list_elem_of_fmap. exists (p, l). split; [done|].
    by apply Hin.
  - rewrite Hb. split.
    + intros [?|(p & l & Hpl & Hid)]; [done|]. exists p, l. by rewrite <- Hin.
    + intros (p & l & Hpl & Hid). right. exists p, l. by rewrite Hin.
Qed.

Lemma rewritten_ids commentID change l :
  (∀ c, Comments.CommentID (change c) = Comments.CommentID c) →
  Comments.ids (Comments.rewritten commentID change l) = Comments.ids l.
Proof.
  intros Hid. unfold Comments.rewritten, Comments.ids.
  destruct (Comments.find_comment commentID l) as [[i c]|] eqn:Hf; [|done].
  apply find_comment_Some in Hf as [Hi _].
  rewrite list_fmap_insert, Hid. apply list_insert_id.
  by rewrite list_lookup_fmap, Hi.
Qed.

Lemma rewritten_changed commentID change l :
  NoDup (Comments.ids l) →
  Comments.rewritten commentID change l
  = (λ c, if Comments.CommentID c =? commentID then change c else c) <$> l.
Proof.
  unfold Comments.rewritten, Comments.ids.
  induction l as [|c0 rest IH]; [done|]. rewrite fmap_cons, NoDup_cons.
  intros [Hc0 Hnd]. simpl.
  destruct (Z.eqb_spec (Comments.CommentID c0) commentID) as [Hid|Hid].
  - simpl. f_equal. symmetry. erewrite list_fmap_ext; [apply list_fmap_id|].
    intros i c Hc. simpl.
    destruct (Z.eqb_spec (Comments.CommentID c) commentID) as [Hid'|]; [|done].
    exfalso. apply Hc0, list_elem_of_fmap. exists c.
    split; [congruence | by eapply list_elem_of_lookup_2].
  - specialize (IH Hnd).
    destruct (Comments.find_comment commentID rest) as [[i c]|]; simpl in *;
      by f_equal.
Qed.

Lemma fresh_ids_rewritten commentID change h :
  (∀ c, Comments.CommentID (change c) = Comments.CommentID c) →
  Comments.fresh_ids h →
  Comments.fresh_ids
    {| Comments.comments :=
         Comments.rewritten commentID change <$> Comments.comments h;
       Comments.nextID := Comments.nextID h |}.
Proof.
  intros Hid (Hlt & Hnd & Hone). unfold Comments.fresh_ids. simpl.
  setoid_rewrite lookup_fmap_Some. split; [|split].
  - intros p l x (l0 & <- & Hl0). rewrite rewritten_ids by done. eauto.
  - intros p l (l0 & <- & Hl0). rewrite rewritten_ids by done. eauto.
  - intros p1 p2 l1 l2 x (l1' & <- & Hl1) (l2' & <- & Hl2).
    rewrite !rewritten_ids by done. eauto.
Qed.

Lemma UpdateComment_state h visit r body :
  Comments.ranges_over visit h →
  (Comments.UpdateComment h visit r body).1 = h
  ∨ ∃ content,
      (Comments.UpdateComment h visit r body).1
      = {| Comments.comments :=
             Comments.rewritten (Comments.commentID_of r)
               (Comments.edited content) <$> Comments.comments h;
           Comments.nextID := Comments.nextID h |}.
Proof.
  intros Hv. unfold Comments.UpdateComment.
  destruct body as [req|]; [|by left].
  destruct (String.eqb _ _); [by left|]. right. exists (Comments.req_content req).
  destruct (rewrite_found_spec (Comments.commentID_of r)
              (Comments.edited (Comments.req_content req)) visit h Hv)
    as [Hm _].
  destruct (Comments.rewrite_found _ _ _ _) as [m found]. simpl in Hm. subst m.
  by destruct found.
Qed.

Lemma DeleteComment_state h visit r :
  Comments.ranges_over visit h →
  (Comments.DeleteComment h visit r).1
  = {| Comments.comments :=
         Comments.rewritten (Comments.commentID_of r) Comments.deleted
           <$> Comments.comments h;
       Comments.nextID := Comments.nextID h |}.
Proof.
  intros Hv. unfold Comments.DeleteComment.
  destruct (rewrite_found_spec (Comments.commentID_of r) Comments.deleted
              visit h Hv) as [Hm _].
  destruct (Comments.rewrite_found _ _ _ _) as [m found]. simpl in Hm. subst m.
  by destruct found.
Qed.

Lemma fresh_ids_create h r body :
  1 <= Comments.nextID h < GoInt.maxInt →
  Comments.fresh_ids h →
  Comments.fresh_ids (Comments.CreateComment h r body).1
  ∧ Comments.nextID h <= Comments.nextID (Comments.CreateComment h r body).1
    <= Comments.nextID h + 1.
Proof.
  intros Hn (Hlt & Hnd & Hone). unfold Comments.CreateComment.
  destruct body as [req|]; [|split; [done | simpl; lia]].
  destruct (String.eqb _ _); [split; [done | simpl; lia]|].
  cbn [fst Comments.nextID]. unfold GoInt.add.
  rewrite wrap_exact by (unfold GoInt.minInt, GoInt.maxInt in *; lia).
  split; [|lia].
  set (p := Comments.postID_of r).
  set (c := {| Comments.CommentID := Comments.nextID h |}).
  set (old := default [] (Comments.comments h !! p)).
  assert (∀ x, x ∈ Comments.ids old → 1 <= x < Comments.nextID h) as Hold.
  { subst old. destruct (Comments.comments h !! p) as [l|] eqn:Hl; simpl.
    - intros x. by apply Hlt with p.
    - intros x Hx. by apply elem_of_nil in Hx. }
  assert (∀ x, x ∈ Comments.ids (old ++ [c]) →
               x ∈ Comments.ids old ∨ x = Comments.nextID h) as Hnew.
  { intros x. unfold Comments.ids. rewrite fmap_app, elem_of_app. simpl.
    rewrite list_elem_of_singleton. tauto. }
  unfold Comments.fresh_ids. cbn [Comments.comments Comments.nextID].
  split; [|split].
  - intros p' l x. rewrite lookup_insert. case_decide as Hp.
    + intros [= <-] Hx. apply Hnew in Hx as [Hx| ->]; [apply Hold in Hx|]; lia.
    + intros Hl Hx. specialize (Hlt _ _ _ Hl Hx). lia.
  - intros p' l. rewrite lookup_insert. case_decide as Hp; [|by apply Hnd].
    intros [= <-]. unfold Comments.ids. rewrite fmap_app. apply NoDup_app.
    split; [|split].
    + subst old. destruct (Comments.comments h !! p) as [l|] eqn:Hl; simpl.
      * by apply Hnd with p.
      * apply NoDup_nil_2.
    + intros x Hx. simpl. rewrite list_elem_of_singleton. intros ->.
      apply Hold in Hx. lia.
    + apply NoDup_singleton.
  - intros p1 p2 l1 l2 x. rewrite !lookup_insert.
    case_decide as Hp1; case_decide as Hp2; [congruence| | |by apply Hone].
    + intros [= <-] Hl2 Hx1 Hx2. apply Hnew in Hx1 as [Hx1| ->].
      * subst old. destruct (Comments.comments h !! p) as [l|] eqn:Hl; simpl in *.
        -- subst p1. by apply (Hone _ _ _ _ x Hl Hl2).
        -- by apply elem_of_nil in Hx1.
      * specialize (Hlt _ _ _ Hl2 Hx2). lia.
    + intros Hl1 [= <-] Hx1 Hx2. apply Hnew in Hx2 as [Hx2| ->].
      * subst old. destruct (Comments.comments h !! p) as [l|] eqn:Hl; simpl in *.
        -- subst p2. by apply (Hone _ _ _ _ x Hl1 Hl).
        -- by apply elem_of_nil in Hx2.
      * specialize (Hlt _ _ _ Hl1 Hx1). lia.
Qed.

(** Every handler reached by [n] requests has fresh ids, as long as the
    counter cannot have wrapped. *)
Lemma reachable_fresh_ids n h :
  Comments.reachable n h → Z.of_nat n < GoInt.maxInt →
  1 <= Comments.nextID h <= Z.of_nat n + 1 ∧ Comments.fresh_ids h.
Proof.
  induction 1 as [|n h Hr IH|n h r body Hr IH|n h visit r body Hr IH Hv
                  |n h visit r Hr IH Hv]; intros Hn.
  - split; [simpl; lia|]. unfold Comments.fresh_ids. simpl.
    setoid_rewrite lookup_empty. by repeat split.
  - destruct IH as [Hnext Hf]; [lia|]. split; [lia | done].
  - destruct IH as [Hnext Hf]; [lia|].
    destruct (fresh_ids_create h r body) as [Hf' Hn']; [lia | done |].
    split; [lia | done].
  - destruct IH as [Hnext Hf]; [lia|].
    destruct (UpdateComment_state h visit r body Hv) as [->|[content ->]].
    + split; [lia | done].
    + split; [simpl; lia|]. by apply fresh_ids_rewritten.
  - destruct IH as [Hnext Hf]; [lia|].
    rewrite DeleteComment_state by done.
    split; [simpl; lia|]. by apply fresh_ids_rewritten.
Qed.

Lemma found_holds h commentID :
  (∃ p l, Comments.comments h !! p = Some l
          ∧ commentID ∈ Comments.CommentID <$> l)
  ↔ ∃ p i c, Comments.holds h p i c ∧ Comments.CommentID c = commentID.
Proof.
  unfold Comments.holds. split.
  - intros (p & l & Hl & Hin).
    apply list_elem_of_fmap in Hin as (c & -> & Hc).
    apply list_elem_of_lookup in Hc as [i Hi]. exists p, i, c. eauto.
  - intros (p & i & c & (l & Hl & Hi) & <-). exists p, l. split; [done|].
    apply list_elem_of_fmap. exists c. split; [done|].
    by eapply list_elem_of_lookup_2.
Qed.

Lemma rewritten_missing commentID change h :
  (¬ ∃ p i c, Comments.holds h p i c ∧ Comments.CommentID c = commentID) →
  Comments.rewritten commentID change <$> Comments.comments h
  = Comments.comments h.
Proof.
  intros Hno. apply map_eq. intros p. rewrite lookup_fmap.
  destruct (Comments.comments h !! p) as [l|] eqn:Hl; [|done]. simpl. f_equal.
  unfold Comments.rewritten.
  destruct (Comments.find_comment commentID l) as [[i c]|] eqn:Hf; [|done].
  exfalso. apply Hno. apply find_comment_Some in Hf as [Hi Hid].
  exists p, i, c. split; [by exists l | done].
Qed.

Lemma rewritten_fresh commentID change h :
  Comments.fresh_ids h →
  Comments.rewritten commentID change <$> Comments.comments h
  = Comments.changed commentID change (Comments.comments h).
Proof.
  intros (_ & Hnd & _). unfold Comments.changed. apply map_eq. intros p.
  rewrite !lookup_fmap.
  destruct (Comments.comments h !! p) as [l|] eqn:Hl; [|done]. simpl. f_equal.
  apply rewritten_changed. by apply Hnd with p.
Qed.

Lemma handler_eq (h : Comments.CommentsHandler) :
  {| Comments.comments := Comments.comments h;
     Comments.nextID := Comments.nextID h |} = h.
Proof. by destruct h. Qed.

(** X6. As long as fewer requests than the largest [int] have been served,
    no two comments of the handler have the same id, in one post or in
    two, and the id that [CreateComment] answers with is the id of no
    comment made before. *)
Theorem comment_ids_are_unique (n : nat) (h : Comments.CommentsHandler) :
  Comments.reachable n h → Z.of_nat n < GoInt.maxInt →
  (∀ p1 i1 c1 p2 i2 c2,
     Comments.holds h p1 i1 c1 → Comments.holds h p2 i2 c2 →
     Comments.CommentID c1 = Comments.CommentID c2 → p1 = p2 ∧ i1 = i2)
  ∧ (∀ r body id msg err,
       (Comments.CreateComment h r body).2
       = Reply StatusCreated (Comments.CommentResponse id msg err) →
       ∀ p i c, Comments.holds h p i c → Comments.CommentID c ≠ id).
Proof.
  intros Hr Hn. destruct (reachable_fresh_ids n h Hr Hn) as [_ (Hlt & Hnd & Hone)].
  assert (∀ p i c l, Comments.comments h !! p = Some l → l !! i = Some c →
                     Comments.CommentID c ∈ Comments.ids l) as Hin.
  { intros p i c l _ Hi. apply list_elem_of_fmap. exists c.
    split; [done | by eapply list_elem_of_lookup_2]. }
  split.
  - intros p1 i1 c1 p2 i2 c2 (l1 & Hl1 & Hi1) (l2 & Hl2 & Hi2) Hid.
    assert (p1 = p2) as <-.
    { apply (Hone p1 p2 l1 l2 (Comments.CommentID c1)); eauto.
      rewrite Hid. eauto. }
    split; [done|]. assert (l2 = l1) as -> by congruence.
    apply (NoDup_lookup (Comments.ids l1) i1 i2 (Comments.CommentID c1)).
    + by apply Hnd with p1.
    + unfold Comments.ids. by rewrite list_lookup_fmap, Hi1.
    + unfold Comments.ids. by rewrite list_lookup_fmap, Hi2, Hid.
  - intros r body id msg err. unfold Comments.CreateComment.
    destruct body as [req|]; [|done]. destruct (String.eqb _ _); [done|].
    cbn [snd Comments.CommentID]. intros [= <- _ _] p i c (l & Hl & Hi) Hid.
    specialize (Hlt p l _ Hl (Hin _ _ _ _ Hl Hi)). lia.
Qed.

(** After three comments the fourth gets an id of its own. *)
Lemma comment_ids_are_unique_witness :
  Comments.reachable 3 Fixtures.three_comments
  ∧ ∀ p i c, Comments.holds Fixtures.three_comments p i c →
             Comments.CommentID c ≠ 4.
Proof.
  assert (Comments.reachable 3 Fixtures.three_comments) as Hr
    by (repeat apply Comments.reach_create; apply Comments.reach_new).
  assert (Z.of_nat 3 < GoInt.maxInt) as Hn by by_running.
  destruct (comment_ids_are_unique 3 Fixtures.three_comments Hr Hn) as [_ Hnew].
  split; [exact Hr|].
  apply (Hnew (Samples.post_request "9") (Fixtures.content "fourth")
           4 "Comment created" "").
  by_running.
Defined.

(** X7. [DeleteComment] marks and keeps: the comment with the id of the
    request gets [IsDeleted = true] and every comment stays where it is, so
    that [GetComments] lists the deleted comment as before, with the same
    total. The answer is OK when a comment has the id, also one that is
    deleted already, and NotFound with nothing changed when none has. *)
Theorem delete_comment_is_soft (n : nat) (h : Comments.CommentsHandler)
    (visit : list (Z * list Comments.Comment)) (r : Request) :
  Comments.reachable n h → Z.of_nat n < GoInt.maxInt →
  Comments.ranges_over visit h →
  let out := Comments.DeleteComment h visit r in
  let mark c :=
    if Comments.CommentID c =? Comments.commentID_of r
    then Comments.deleted c else c in
  Comments.comments out.1
  = Comments.changed (Comments.commentID_of r) Comments.deleted
      (Comments.comments h)
  ∧ Comments.nextID out.1 = Comments.nextID h
  ∧ (∀ r' l total,
       Comments.GetComments h r'
       = Reply StatusOK (Comments.GetCommentsResponse l total) →
       Comments.GetComments out.1 r'
       = Reply StatusOK (Comments.GetCommentsResponse (mark <$> l) total))
  ∧ ((∃ p i c, Comments.holds h p i c
               ∧ Comments.CommentID c = Comments.commentID_of r) →
     out.2 = Reply StatusOK (Comments.message "Comment soft deleted"))
  ∧ ((¬ ∃ p i c, Comments.holds h p i c
                 ∧ Comments.CommentID c = Comments.commentID_of r) →
     out.2 = Reply StatusNotFound (Comments.error "Comment not found")
     ∧ out.1 = h).
Proof.
  intros Hr Hn Hv out mark. subst out.
  destruct (reachable_fresh_ids n h Hr Hn) as [_ Hf].
  rewrite DeleteComment_state by done. cbn [Comments.comments Comments.nextID].
  rewrite rewritten_fresh by done.
  destruct (rewrite_found_spec (Comments.commentID_of r) Comments.deleted
              visit h Hv) as [_ Hfound].
  rewrite found_holds in Hfound.
  split; [done|]. split; [done|]. split; [|split].
  - intros r' l total. unfold Comments.GetComments, Comments.changed.
    cbn [Comments.comments]. rewrite lookup_fmap.
    destruct (Comments.comments h !! Comments.postID_of r') as [l'|]; [|done].
    intros [= <- <-]. simpl. unfold GoInt.len. by rewrite length_fmap.
  - intros Hex. apply Hfound in Hex. unfold Comments.DeleteComment.
    destruct (Comments.rewrite_found _ _ _ _) as [m found]. simpl in Hex.
    by subst found.
  - intros Hno. rewrite <- rewritten_fresh by done.
    rewrite rewritten_missing by done. rewrite handler_eq. split; [|done].
    unfold Comments.DeleteComment.
    destruct (Comments.rewrite_found _ _ _ _) as [m found]. simpl in Hfound.
    destruct found; [|done]. exfalso. by apply Hno, Hfound.
Qed.

(** Comment 1 of post 7 is deleted: the post lists two comments as
    before. *)
Lemma delete_comment_is_soft_witness :
  let h := Fixtures.three_comments in
  let out :=
    Comments.DeleteComment h (Fixtures.visit_comments h)
      (Fixtures.comment_request "1") in
  out.2 = Reply StatusOK (Comments.message "Comment soft deleted")
  ∧ ∃ first third,
      Comments.GetComments out.1 (Samples.post_request "7")
      = Reply StatusOK (Comments.GetCommentsResponse [first; third] 2)
      ∧ Comments.IsDeleted first = true ∧ Comments.IsDeleted third = false.
Proof.
  intros h out.
  assert (Comments.reachable 3 h) as Hr
    by (repeat apply Comments.reach_create; apply Comments.reach_new).
  assert (Z.of_nat 3 < GoInt.maxInt) as Hn by by_running.
  assert (Comments.ranges_over (Fixtures.visit_comments h) h) as Hv
    by (unfold Comments.ranges_over, Fixtures.visit_comments; reflexivity).
  destruct (delete_comment_is_soft 3 h (Fixtures.visit_comments h)
              (Fixtures.comment_request "1") Hr Hn Hv)
    as (_ & _ & Hget & Hok & _).
  split.
  - apply Hok. exists 7, 0%nat. eexists.
    split; [eexists; split; by_running | by_running].
  - eexists _, _. split; [|split]; [by_running..].
Defined.

(** X8. [UpdateComment] with a content that is not empty looks at the id
    only: the comment with the id of the request gets the content and the
    fixed time of the update, whether it is deleted or not, and keeps its
    deletion mark; every other comment is as before. The answer is OK when
    a comment has the id, and NotFound with nothing changed when none
    has. *)
Theorem update_comment_looks_at_the_id_only (n : nat)
    (h : Comments.CommentsHandler) (visit : list (Z * list Comments.Comment))
    (r : Request) (content : string) :
  Comments.reachable n h → Z.of_nat n < GoInt.maxInt →
  Comments.ranges_over visit h → content ≠ "" →
  let out :=
    Comments.UpdateComment h visit r
      (Some {| Comments.req_content := content |}) in
  Comments.comments out.1
  = Comments.changed (Comments.commentID_of r) (Comments.edited content)
      (Comments.comments h)
  ∧ Comments.nextID out.1 = Comments.nextID h
  ∧ (∀ p i c,
       Comments.holds h p i c →
       Comments.CommentID c = Comments.commentID_of r →
       out.2 = Reply StatusOK (Comments.message "Comment updated")
       ∧ ∃ c', Comments.holds out.1 p i c'
               ∧ Comments.Content c' = content
               ∧ Comments.UpdatedAt c' = "2025-08-15T01:00:00Z"
               ∧ Comments.IsDeleted c' = Comments.IsDeleted c)
  ∧ ((¬ ∃ p i c, Comments.holds h p i c
                 ∧ Comments.CommentID c = Comments.commentID_of r) →
     out.2 = Reply StatusNotFound (Comments.error "Comment not found")
     ∧ out.1 = h).
Proof.
  intros Hr Hn Hv Hc out.
  destruct (reachable_fresh_ids n h Hr Hn) as [_ Hf].
  apply String.eqb_neq in Hc.
  destruct (rewrite_found_spec (Comments.commentID_of r)
              (Comments.edited content) visit h Hv) as [Hm Hfound].
  rewrite found_holds in Hfound. rewrite rewritten_fresh in Hm by done.
  subst out. unfold Comments.UpdateComment. cbn [Comments.req_content].
  rewrite Hc.
  destruct (Comments.rewrite_found _ _ _ _) as [m found]. simpl in Hm, Hfound.
  subst m.
  assert ((if negb found
           then ({| Comments.comments :=
                      Comments.changed (Comments.commentID_of r)
                        (Comments.edited content) (Comments.comments h);
                    Comments.nextID := Comments.nextID h |},
                 Reply StatusNotFound (Comments.error "Comment not found"))
           else ({| Comments.comments :=
                      Comments.changed (Comments.commentID_of r)
                        (Comments.edited content) (Comments.comments h);
                    Comments.nextID := Comments.nextID h |},
                 Reply StatusOK (Comments.message "Comment updated")))
          = ({| Comments.comments :=
                  Comments.changed (Comments.commentID_of r)
                    (Comments.edited content) (Comments.comments h);
                Comments.nextID := Comments.nextID h |},
             if found then Reply StatusOK (Comments.message "Comment updated")
             else Reply StatusNotFound (Comments.error "Comment not found")))
    as -> by by destruct found.
  cbn [fst snd Comments.comments Comments.nextID].
  split; [done|]. split; [done|]. split.
  - intros p i c (l & Hl & Hi) Hid. split.
    + assert (found = true) as ->; [|done].
      apply Hfound. exists p, i, c. split; [by exists l | done].
    + exists (Comments.edited content c). split; [|done].
      exists ((λ c, if Comments.CommentID c =? Comments.commentID_of r
                    then Comments.edited content c else c) <$> l).
      unfold Comments.changed. cbn [Comments.comments].
      rewrite lookup_fmap, Hl. split; [done|].
      rewrite list_lookup_fmap, Hi. simpl.
      by rewrite (proj2 (Z.eqb_eq _ _) Hid).
  - intros Hno. split.
    + destruct found; [|done]. exfalso. by apply Hno, Hfound.
    + rewrite <- rewritten_fresh by done. rewrite rewritten_missing by done.
      apply handler_eq.
Qed.

(** Comment 1 is deleted and edited afterwards. *)
Lemma update_comment_looks_at_the_id_only_witness :
  let h := Fixtures.three_comments in
  let r := Fixtures.comment_request "1" in
  let gone := (Comments.DeleteComment h (Fixtures.visit_comments h) r).1 in
  let out :=
    Comments.UpdateComment gone (Fixtures.visit_comments gone) r
      (Fixtures.content "edited") in
  out.2 = Reply StatusOK (Comments.message "Comment updated")
  ∧ ∃ c, Comments.holds out.1 7 0 c
         ∧ Comments.Content c = "edited" ∧ Comments.IsDeleted c = true.
Proof.
  intros h r gone out.
  assert (Comments.reachable 4 gone) as Hr.
  { apply Comments.reach_delete;
      [repeat apply Comments.reach_create; apply Comments.reach_new|].
    unfold Comments.ranges_over, Fixtures.visit_comments. reflexivity. }
  assert (Z.of_nat 4 < GoInt.maxInt) as Hn by by_running.
  assert (Comments.ranges_over (Fixtures.visit_comments gone) gone) as Hv
    by (unfold Comments.ranges_over, Fixtures.visit_comments; reflexivity).
  assert ("edited" ≠ "") as Hc by done.
  destruct (update_comment_looks_at_the_id_only 4 gone
              (Fixtures.visit_comments gone) r "edited" Hr Hn Hv Hc)
    as (_ & _ & Hok & _).
  assert (∃ c, Comments.holds gone 7 0 c ∧ Comments.CommentID c = 1
               ∧ Comments.IsDeleted c = true) as (c & Hc1 & Hid & Hdel).
  { eexists. split; [eexists; split; by_running | split; by_running]. }
  destruct (Hok 7 0%nat c Hc1) as [Hreply (c' & Hc' & Hcontent & _ & Hkept)].
  { rewrite Hid. by_running. }
  split; [done|]. exists c'. split; [done|]. split; [done | congruence].
Defined.

(** X9. [CreateComment] asks for no post: a content that is not empty is
    accepted for every post id, and gets the next id, user 1 and no
    deletion mark. [GetComments] of that post afterwards answers OK with
    the comments it had (none when it answered NotFound before), the new
    one last, and the total one higher; the comments of every other post
    are as before. *)
Theorem create_comment_then_get (h : Comments.CommentsHandler) (r : Request)
    (content : string) :
  content ≠ "" →
  let out :=
    Comments.CreateComment h r (Some {| Comments.req_content := content |}) in
  let before := default [] (Comments.comments h !! Comments.postID_of r) in
  ∃ c,
    out.2 = Reply StatusCreated
              (Comments.CommentResponse (Comments.nextID h) "Comment created" "")
    ∧ Comments.CommentID c = Comments.nextID h
    ∧ Comments.UserID c = 1
    ∧ Comments.Content c = content
    ∧ Comments.IsDeleted c = false
    ∧ Comments.GetComments out.1 r
      = Reply StatusOK
          (Comments.GetCommentsResponse (before ++ [c]) (GoInt.len before + 1))
    ∧ (∀ r', Comments.postID_of r' ≠ Comments.postID_of r →
             Comments.GetComments out.1 r' = Comments.GetComments h r').
Proof.
  intros Hc out before. subst out. apply String.eqb_neq in Hc.
  unfold Comments.CreateComment. cbn [Comments.req_content]. rewrite Hc.
  exists {| Comments.CommentID := Comments.nextID h; Comments.UserID := 1;
            Comments.Username := "user1"; Comments.Avatar := "";
            Comments.Content := content;
            Comments.CreatedAt := "2025-08-15T00:00:00Z";
            Comments.UpdatedAt := "2025-08-15T00:00:00Z";
            Comments.IsDeleted := false |}.
  cbn [fst snd Comments.CommentID].
  split; [done|]. split; [done|]. split; [done|]. split; [done|].
  split; [done|].
  unfold Comments.GetComments. cbn [Comments.comments]. split.
  - rewrite lookup_insert_eq. unfold GoInt.len. rewrite length_app.
    by rewrite Nat2Z.inj_add.
  - intros r' Hne. by rewrite lookup_insert_ne.
Qed.

(** A comment on post 9, which has none. *)
Lemma create_comment_then_get_witness :
  let r := Samples.post_request "9" in
  Comments.GetComments Fixtures.three_comments r
  = Reply StatusNotFound (Comments.error "Post not found")
  ∧ ∃ c,
      Comments.GetComments
        (Comments.CreateComment Fixtures.three_comments r
           (Fixtures.content "hello")).1 r
      = Reply StatusOK (Comments.GetCommentsResponse [c] 1)
      ∧ Comments.CommentID c = 4.
Proof.
  intros r. split; [by_running|].
  assert ("hello" ≠ "") as Hc by done.
  destruct (create_comment_then_get Fixtures.three_comments r "hello" Hc)
    as (c & _ & Hid & _ & _ & _ & Hget & _).
  exists c. split; [exact Hget | exact Hid].
Defined.

(** ** Reactions: the listing of a post *)

Lemma foldl_snoc {A B} (f : A → B) (l : list A) (init : list B) :
  foldl (λ acc x, acc ++ [f x]) init l = init ++ (f <$> l).
Proof.
  revert init. induction l as [|x l IH]; intros init; simpl.
  - by rewrite app_nil_r.
  - rewrite IH. by rewrite <- app_assoc.
Qed.

Lemma elem_of_typeSet visit t :
  t ∈ Reactions.typeSet visit ↔ ∃ u, (u, t) ∈ visit.
Proof.
  unfold Reactions.typeSet.
  assert (∀ init : gset string,
            t ∈ foldl (λ set entry, {[ entry.2 ]} ∪ set) init visit
            ↔ t ∈ init ∨ ∃ u, (u, t) ∈ visit) as Hgen.
  { induction visit as [|[u0 t0] rest IH]; intros init; simpl.
    - split; [by left|]. intros [?|[u Hu]]; [done|]. by apply elem_of_nil in Hu.
    - rewrite IH, elem_of_union, elem_of_singleton. split.
      + intros [[->|?]|[u Hu]]; [right; exists u0; left|by left|].
        right. exists u. by right.
      + intros [?|[u Hu]]; [by left; right|].
        apply elem_of_cons in Hu as [[= -> ->]|Hu]; [by left; left|].
        right. by exists u. }
  rewrite Hgen. split; [intros [Hin|?]; [|done] | by right].
  by apply elem_of_empty in Hin.
Qed.

(** X10. [GetReactions] of a post that has an entry answers OK whatever the
    two maps are iterated in: count and total are the number of reactions
    of the post, one user is listed for each reaction and none twice, and
    the types are the types that some user of the post has given, each
    once, so that there are at most as many types as reactions. A post
    without an entry is answered with NotFound. *)
Theorem get_reactions_counts_users_and_types (h : Reactions.ReactionsHandler)
    (visit : list (string * string)) (visit_types : list string)
    (r : Request) :
  Reactions.ranges_over visit visit_types h r →
  (∀ postReactions,
     Reactions.entries h !! var r "post_id" = Some postReactions →
     ∃ resp,
       Reactions.GetReactions h visit visit_types r
       = Reply StatusOK (Reactions.Listing resp)
       ∧ Reactions.Count resp = Z.of_nat (size postReactions)
       ∧ Reactions.Total resp = Reactions.Count resp
       ∧ GoInt.len (Reactions.Users resp) = Reactions.Count resp
       ∧ NoDup (Reactions.user_id <$> Reactions.Users resp)
       ∧ (∀ u, u ∈ Reactions.Users resp ↔
               is_Some (postReactions !! Reactions.user_id u)
               ∧ Reactions.username u = Reactions.user_id u)
       ∧ NoDup (Reactions.Types resp)
       ∧ (∀ t, t ∈ Reactions.Types resp ↔ ∃ u, postReactions !! u = Some t)
       ∧ GoInt.len (Reactions.Types resp) <= Reactions.Count resp)
  ∧ (Reactions.entries h !! var r "post_id" = None →
     Reactions.GetReactions h visit visit_types r
     = Reply StatusNotFound
         (Reactions.Failure (Reactions.error "Post not found"))).
Proof.
  intros [Hv Ht]. unfold Reactions.GetReactions.
  split; [|by intros ->]. intros m Hm. rewrite Hm in Hv |- *.
  simpl in Hv. eexists. split; [done|]. cbn [Reactions.Count Reactions.Total
    Reactions.Users Reactions.Types]. rewrite !foldl_snoc. simpl.
  rewrite list_fmap_id.
  assert (∀ u t, (u, t) ∈ visit ↔ m !! u = Some t) as Hin.
  { intros u t. rewrite Hv. apply elem_of_map_to_list. }
  assert (length visit = size m) as Hlen.
  { rewrite Hv. apply length_map_to_list. }
  assert (NoDup visit.*1) as Hnd.
  { rewrite Hv. apply NoDup_fst_map_to_list. }
  split; [done|]. split; [done|]. split; [|split; [|split; [|split; [|split]]]].
  - unfold GoInt.len. by rewrite length_fmap, Hlen.
  - rewrite <- list_fmap_compose. exact Hnd.
  - intros [u n]. rewrite list_elem_of_fmap. simpl. split.
    + intros ([u' t] & [= -> ->] & Hu). apply Hin in Hu. eauto.
    + intros [[t Hu] ->]. exists (u, t). split; [done|]. by apply Hin.
  - rewrite Ht. apply NoDup_elements.
  - intros t. rewrite Ht, elem_of_elements, elem_of_typeSet.
    by setoid_rewrite Hin.
  - unfold GoInt.len. rewrite Ht, <- Hlen, <- (length_fmap snd visit).
    apply inj_le, submseteq_length, NoDup_submseteq; [apply NoDup_elements|].
    intros t. rewrite elem_of_elements, elem_of_typeSet.
    intros [u Hu]. apply list_elem_of_fmap. by exists (u, t).
Qed.

(** Post 10 with three reactions of two types. *)
Lemma get_reactions_counts_users_and_types_witness :
  let h := Fixtures.three_reactions in
  let visit := Fixtures.visit_reactions h "10" in
  ∃ resp,
    Reactions.GetReactions h visit (elements (Reactions.typeSet visit))
      (Samples.post_request "10")
    = Reply StatusOK (Reactions.Listing resp)
    ∧ Reactions.Count resp = 3
    ∧ GoInt.len (Reactions.Types resp) <= 3.
Proof.
  intros h visit.
  assert (Reactions.ranges_over visit (elements (Reactions.typeSet visit)) h
            (Samples.post_request "10")) as Hv by (split; reflexivity).
  destruct (get_reactions_counts_users_and_types h visit
              (elements (Reactions.typeSet visit)) (Samples.post_request "10")
              Hv) as [Hsome _].
  assert (Reactions.entries h !! var (Samples.post_request "10") "post_id"
          = Some (default ∅ (Reactions.entries h !! "10"))) as Hpost
    by (vm_compute; reflexivity).
  destruct (Hsome (default ∅ (Reactions.entries h !! "10")) Hpost)
    as (resp & Hget & Hcount & _ & _ & _ & _ & _ & _ & Htypes).
  exists resp. split; [exact Hget|]. rewrite Hcount in Htypes |- *.
  split; [by_running | exact Htypes].
Defined.

(** What [ReactToPost] stores is not the empty string, for a [TrimSpace]
    that leaves the empty string as it is. *)
Lemma RemoveReaction_after_react m postID inner t body r :
  t ≠ "" → var r "post_id" = postID →
  Reactions.RemoveReaction
    {| Reactions.reactions :=
         Some (<[postID := <[Reactions.userID := t]> inner]> m) |} r body
  = ({| Reactions.reactions :=
          Some (<[postID := delete Reactions.userID inner]> m) |},
     Reply StatusOK (Reactions.message "Reaction removed")).
Proof.
  intros Ht <-. unfold Reactions.RemoveReaction, Reactions.entries. simpl.
  rewrite lookup_insert_eq. rewrite lookup_insert_eq. simpl.
  apply String.eqb_neq in Ht. rewrite Ht. rewrite insert_insert_eq.
  by rewrite delete_insert_eq.
Qed.

(** X11. A reaction that is accepted and removed again leaves an entry for
    the post behind: the removal is answered with OK and the reaction is
    gone, every other reaction is as before the two requests, and a second
    removal is answered with NotFound; but [GetReactions] of the post
    answers OK from then on, with an empty listing when the post had no
    entry before, where it answered NotFound. *)
Theorem removed_reaction_leaves_the_post (TrimSpace : string → string)
    (h : Reactions.ReactionsHandler) (m : gmap string (gmap string string))
    (r : Request) (q : Reactions.ReactionRequest)
    (body body' : option Reactions.ReactionRequest)
    (visit : list (string * string)) (visit_types : list string) :
  TrimSpace "" = "" →
  Reactions.reactions h = Some m →
  TrimSpace (Reactions.ReactionType q) ≠ "" →
  let postID := var r "post_id" in
  let h1 := (Reactions.ReactToPost TrimSpace h r (Some q)).1 in
  let out := Reactions.RemoveReaction h1 r body in
  Reactions.ranges_over visit visit_types out.1 r →
  out.2 = Reply StatusOK (Reactions.message "Reaction removed")
  ∧ Reactions.stored out.1 postID Reactions.userID = None
  ∧ (∀ p u, (p, u) ≠ (postID, Reactions.userID) →
            Reactions.stored out.1 p u = Reactions.stored h p u)
  ∧ Reactions.RemoveReaction out.1 r body'
    = (out.1, Reply StatusNotFound (Reactions.error "Reaction not found"))
  ∧ (∃ resp, Reactions.GetReactions out.1 visit visit_types r
             = Reply StatusOK (Reactions.Listing resp))
  ∧ (Reactions.entries h !! postID = None →
     Reactions.GetReactions h visit visit_types r
     = Reply StatusNotFound
         (Reactions.Failure (Reactions.error "Post not found"))
     ∧ Reactions.GetReactions out.1 visit visit_types r
       = Reply StatusOK
           (Reactions.Listing
              {| Reactions.Count := 0; Reactions.Types := [];
                 Reactions.Users := []; Reactions.Total := 0 |})).
Proof.
  intros Hempty Hm Ht postID h1 out. subst h1 out.
  assert (Reactions.ReactionType q ≠ "") as Hq by (intros Hq; by rewrite Hq in Ht).
  rewrite (ReactToPost_allocated _ h m r q) by done. cbn [fst]. fold postID.
  rewrite RemoveReaction_after_react by done. cbn [fst snd].
  set (inner := default ∅ (m !! postID)).
  intros [Hv Hvt]. unfold Reactions.entries in Hv. simpl in Hv. fold postID in Hv.
  rewrite lookup_insert_eq in Hv. simpl in Hv.
  split; [done|]. split; [|split; [|split; [|split]]].
  - unfold Reactions.stored, Reactions.entries. simpl.
    rewrite lookup_insert_eq. simpl. by rewrite lookup_delete_eq.
  - intros p u Hne. unfold Reactions.stored, Reactions.entries. rewrite Hm. simpl.
    destruct (decide (p = postID)) as [->|Hp].
    + rewrite lookup_insert_eq. simpl. rewrite lookup_delete_ne by congruence.
      subst inner. destruct (m !! postID); simpl; [done|]. apply lookup_empty.
    + by rewrite lookup_insert_ne.
  - unfold Reactions.RemoveReaction, Reactions.entries. simpl. fold postID.
    rewrite lookup_insert_eq. by rewrite lookup_delete_eq.
  - unfold Reactions.GetReactions, Reactions.entries. simpl. fold postID.
    rewrite lookup_insert_eq. eauto.
  - unfold Reactions.GetReactions, Reactions.entries. rewrite Hm. simpl.
    fold postID. intros Hnone. rewrite Hnone. split; [done|].
    rewrite lookup_insert_eq. subst inner. rewrite Hnone in Hv |- *. simpl in *.
    rewrite delete_empty in Hv |- *. rewrite map_to_list_empty in Hv.
    apply Permutation_nil_r in Hv. subst visit.
    unfold Reactions.typeSet in Hvt. simpl in Hvt. rewrite elements_empty in Hvt.
    apply Permutation_nil_r in Hvt. by subst visit_types.
Qed.

(** A like on post 10 of a new handler, removed again. *)
Lemma removed_reaction_leaves_the_post_witness :
  let r := Samples.post_request "10" in
  let h := Reactions.NewReactionsHandler in
  let h1 := (Reactions.ReactToPost Reactions.TrimSpaceASCII h r
               (Samples.react "like")).1 in
  let out := Reactions.RemoveReaction h1 r None in
  Reactions.GetReactions h [] [] r
  = Reply StatusNotFound (Reactions.Failure (Reactions.error "Post not found"))
  ∧ out.2 = Reply StatusOK (Reactions.message "Reaction removed")
  ∧ Reactions.GetReactions out.1 [] [] r
    = Reply StatusOK
        (Reactions.Listing
           {| Reactions.Count := 0; Reactions.Types := [];
              Reactions.Users := []; Reactions.Total := 0 |}).
Proof.
  intros r h h1 out.
  assert (Reactions.TrimSpaceASCII "" = "") as Hempty by reflexivity.
  assert (Reactions.reactions h = Some ∅) as Hm by reflexivity.
  assert (Reactions.TrimSpaceASCII "like" ≠ "") as Ht by by_running.
  assert (Reactions.ranges_over [] [] out.1 r) as Hv by (split; reflexivity).
  destruct (removed_reaction_leaves_the_post Reactions.TrimSpaceASCII h ∅ r
              {| Reactions.ReactionType := "like" |} None None [] []
              Hempty Hm Ht Hv)
    as (Hok & _ & _ & _ & _ & Hget).
  destruct (Hget eq_refl) as [Hbefore Hafter].
  split; [exact Hbefore|]. split; [exact Hok | exact Hafter].
Defined.

(** ** Follows: what the listings of a reached handler show *)

Lemma mirrored_FollowUser h r :
  Follows.mirrored h → Follows.mirrored (Follows.FollowUser h r).1.
Proof.
  intros (Hlink & Hone & Hkeys). unfold Follows.FollowUser.
  destruct (Follows.index_of _ _) eqn:Hi; [done|]. cbn [fst].
  split; [|split].
  - intros t. rewrite following_of_insert, followers_of_insert, !ids_app.
    case_decide as Ht.
    + intros _. rewrite ids_app. apply elem_of_app. right. by left.
    + rewrite elem_of_app. intros [Hin|Hin]; [by apply Hlink|].
      apply list_elem_of_singleton in Hin. simpl in Hin. congruence.
  - intros t u. rewrite followers_of_insert. case_decide as Ht; [|apply Hone].
    rewrite ids_app, elem_of_app. intros [Hin|Hin]; [by apply (Hone _ _ Hin)|].
    by apply list_elem_of_singleton in Hin.
  - intros a Ha. simpl. rewrite lookup_insert_ne by done. by apply Hkeys.
Qed.

Lemma mirrored_UnfollowUser h r :
  Follows.consistent h → Follows.mirrored h →
  Follows.mirrored (Follows.UnfollowUser h r).1.
Proof.
  intros [Hfg Hfl] (Hlink & Hone & Hkeys). unfold Follows.UnfollowUser.
  destruct (Follows.index_of _ (Follows.following_of h 1)) as [i|] eqn:Hi; [|done].
  apply index_of_Some in Hi as (l1 & u & l2 & Hl & Hu & Hn & ->).
  rewrite Hl in Hfg. destruct (ids_without_first _ _ _ Hfg) as [_ Hgone].
  cbn [fst].
  assert (∀ t, t ∈ Follows.ids (l1 ++ l2) →
               t ≠ Follows.target_of r
               ∧ 1 ∈ Follows.ids (Follows.followers_of h t)) as Hkept.
  { intros t Ht. split; [intros ->; by rewrite Hu in Hgone|].
    apply Hlink. rewrite Hl, ids_app. rewrite ids_app in Ht.
    apply elem_of_app in Ht as [Ht|Ht]; apply elem_of_app; [by left|].
    right. unfold Follows.ids. rewrite fmap_cons. by right. }
  split; [|split].
  - intros t. rewrite following_of_insert. intros Ht.
    destruct (Hkept t Ht) as [Hne H1].
    destruct (Follows.index_of 1 _) as [j|]; [|done].
    rewrite followers_of_insert. by rewrite decide_False.
  - intros t v. destruct (Follows.index_of 1 _) as [j|] eqn:Hj; [|apply Hone].
    apply index_of_Some in Hj as (f1 & w & f2 & Hf & Hw & _ & ->).
    rewrite followers_of_insert. case_decide as Ht; [|apply Hone].
    intros Hv. apply (Hone (Follows.target_of r)). rewrite Hf.
    rewrite ids_app in Hv |- *. apply elem_of_app in Hv as [Hv|Hv];
      apply elem_of_app; [by left|].
    right. unfold Follows.ids. rewrite fmap_cons. by right.
  - intros a Ha. simpl. rewrite lookup_insert_ne by done. by apply Hkeys.
Qed.

Lemma mirrored_run ops :
  Follows.mirrored (Follows.run ops Follows.NewFollowsHandler).
Proof.
  induction ops as [|o ops IH] using rev_ind.
  - split; [|split]; [intros t []%elem_of_nil | intros t u []%elem_of_nil | done].
  - unfold Follows.run in *. rewrite foldl_app. simpl. destruct o; simpl.
    + by apply mirrored_FollowUser.
    + apply mirrored_UnfollowUser; [apply consistent_run | done].
Qed.

(** X12. In a handler built by [NewFollowsHandler] that has served any
    sequence of follow and unfollow requests, the two maps mirror each
    other: user 1 is among the followers of a user exactly when that user
    is among those that user 1 follows. Only user 1 follows and is
    followed by nobody, so that a list of followers has one entry at most
    and the listing of the users that another user follows is answered
    with NotFound. *)
Theorem follow_lists_mirror_each_other (ops : list Follows.Op) (r : Request) :
  let h := Follows.run ops Follows.NewFollowsHandler in
  (∀ t, t ∈ Follows.ids (Follows.following_of h 1)
        ↔ 1 ∈ Follows.ids (Follows.followers_of h t))
  ∧ (∀ t resp,
       Follows.GetFollowersByUserID h t = Reply StatusOK resp →
       Follows.Total resp <= 1
       ∧ ∀ f, f ∈ Follows.Followers resp → Follows.UserID f = 1)
  ∧ ((Strconv.Atoi (var r "user_id")).1 ≠ 1 →
     Follows.GetFollowing h r
     = Reply StatusNotFound (Follows.error "User not found")).
Proof.
  intros h.
  destruct (consistent_run ops) as [Hfg Hfl].
  destruct (mirrored_run ops) as (Hlink & Hone & Hkeys).
  fold h in Hfg, Hfl, Hlink, Hone, Hkeys.
  assert (∀ t l, Follows.followers h !! t = Some l →
                 Follows.followers_of h t = l) as Hof.
  { intros t l Hl. unfold Follows.followers_of. by rewrite Hl. }
  split; [|split].
  - intros t. split; [apply Hlink | apply Hfl].
  - intros t resp. unfold Follows.GetFollowersByUserID.
    destruct (Follows.followers h !! t) as [l|] eqn:Hl; [|done].
    intros [= <-]. simpl. apply Hof in Hl.
    destruct (Hfl t) as [Hnd _]. rewrite Hl in Hnd.
    assert (∀ f, f ∈ l → Follows.UserID f = 1) as Hall.
    { intros f Hf. apply (Hone t). rewrite Hl. by apply list_elem_of_fmap_2. }
    split; [|done]. unfold GoInt.len.
    destruct l as [|f1 [|f2 l]]; simpl; [lia | lia |]. exfalso.
    unfold Follows.ids in Hnd. rewrite !fmap_cons in Hnd.
    rewrite (Hall f1), (Hall f2) in Hnd by (repeat constructor).
    apply NoDup_cons in Hnd as [Hnd _]. apply Hnd. by left.
  - intros Hne. unfold Follows.GetFollowing, Follows.GetFollowingByUserID.
    by rewrite Hkeys.
Qed.

(** After user 1 has followed 5 and 7 and unfollowed 5, it is a follower
    of 7 and not of 5, and user 7 follows nobody. *)
Lemma follow_lists_mirror_each_other_witness :
  let ops := [Follows.OpFollow (Samples.follow_request "5");
              Follows.OpFollow (Samples.follow_request "7");
              Follows.OpUnfollow (Samples.follow_request "5")] in
  let h := Follows.run ops Follows.NewFollowsHandler in
  1 ∈ Follows.ids (Follows.followers_of h 7)
  ∧ Follows.GetFollowing h (Fixtures.user_request "7")
    = Reply StatusNotFound (Follows.error "User not found").
Proof.
  intros ops h.
  destruct (follow_lists_mirror_each_other ops (Fixtures.user_request "7"))
    as (Hiff & _ & Hothers).
  split.
  - apply Hiff. vm_compute. left.
  - apply Hothers. by_running.
Defined.

Lemma index_of_snoc id l u :
  id ∉ Follows.ids l → Follows.UserID u = id →
  Follows.index_of id (l ++ [u]) = Some (length l).
Proof.
  intros Hn Hu. induction l as [|v l IH]; simpl.
  - by rewrite (proj2 (Z.eqb_eq _ _) Hu).
  - unfold Follows.ids in Hn. rewrite fmap_cons, not_elem_of_cons in Hn.
    destruct Hn as [Hv Hn]. rewrite (proj2 (Z.eqb_neq _ _)) by congruence.
    by rewrite IH.
Qed.

Lemma remove_at_snoc {A} (l : list A) (x : A) :
  GoSlice.remove_at (l ++ [x]) (length l) = l.
Proof.
  unfold GoSlice.remove_at. rewrite take_app_length.
  rewrite drop_ge by (rewrite length_app; simpl; lia). apply app_nil_r.
Qed.

(** X13. In a handler built by [NewFollowsHandler] that has served any
    sequence of follow and unfollow requests: when user 1 follows a user it
    did not follow and unfollows it again, both requests succeed and every
    list of both maps is as before. The keys stay: the listing of the
    users that user 1 follows and the listing of the followers of the
    target are answered with OK afterwards, also where they were answered
    with NotFound before the two requests. *)
Theorem follow_then_unfollow_restores_the_lists (ops : list Follows.Op)
    (r : Request) :
  let h := Follows.run ops Follows.NewFollowsHandler in
  let B := Follows.target_of r in
  let h1 := (Follows.FollowUser h r).1 in
  let h2 := (Follows.UnfollowUser h1 r).1 in
  B ∉ Follows.ids (Follows.following_of h 1) →
  (Follows.FollowUser h r).2 = Reply StatusCreated (Follows.message "Followed")
  ∧ (Follows.UnfollowUser h1 r).2
    = Reply StatusOK (Follows.message "Unfollowed")
  ∧ (∀ u, Follows.following_of h2 u = Follows.following_of h u
          ∧ Follows.followers_of h2 u = Follows.followers_of h u)
  ∧ Follows.GetMyFollowing h2
    = Reply StatusOK
        {| Follows.Followers := [];
           Follows.Following := Follows.following_of h 1;
           Follows.Total := GoInt.len (Follows.following_of h 1);
           Follows.Message := ""; Follows.Error := "" |}
  ∧ Follows.GetFollowersByUserID h2 B
    = Reply StatusOK
        {| Follows.Followers := Follows.followers_of h B;
           Follows.Following := [];
           Follows.Total := GoInt.len (Follows.followers_of h B);
           Follows.Message := ""; Follows.Error := "" |}.
Proof.
  intros h B h1 h2 HB.
  destruct (consistent_run ops) as [Hfg Hfl]. fold h in Hfg, Hfl.
  assert (1 ∉ Follows.ids (Follows.followers_of h B)) as Hme.
  { intros Hin. by apply HB, Hfl. }
  apply index_of_None in HB as Hi.
  assert (Follows.FollowUser h r
          = ({| Follows.followers :=
                  <[B := Follows.followers_of h B
                         ++ [{| Follows.UserID := 1; Follows.Username := "user1";
                                Follows.Avatar := "" |}]]>
                    (Follows.followers h);
                Follows.following :=
                  <[1 := Follows.following_of h 1
                         ++ [{| Follows.UserID := B;
                                Follows.Username := "user" +:+ Strconv.Itoa B;
                                Follows.Avatar := "" |}]]>
                    (Follows.following h) |},
             Reply StatusCreated (Follows.message "Followed"))) as Hfollow.
  { unfold Follows.FollowUser. fold B. by rewrite Hi. }
  subst h2 h1. rewrite Hfollow. cbn [fst snd]. split; [done|].
  unfold Follows.UnfollowUser. fold B. rewrite following_of_insert.
  rewrite index_of_snoc by done. rewrite followers_of_insert, decide_True by done.
  rewrite index_of_snoc by done. rewrite !remove_at_snoc.
  cbn [fst snd Follows.followers Follows.following]. rewrite !insert_insert_eq.
  split; [done|]. split; [|split].
  - intros u. unfold Follows.following_of, Follows.followers_of. simpl.
    rewrite !lookup_insert. split; case_decide; by subst.
  - unfold Follows.GetMyFollowing, Follows.GetFollowingByUserID. simpl.
    by rewrite lookup_insert_eq.
  - unfold Follows.GetFollowersByUserID. simpl. by rewrite lookup_insert_eq.
Qed.

(** User 1 follows 5 and unfollows it, in a new handler: the followers of
    5 are listed, and there is none. *)
Lemma follow_then_unfollow_restores_the_lists_witness :
  let h := Follows.NewFollowsHandler in
  let r := Samples.follow_request "5" in
  let h2 := (Follows.UnfollowUser (Follows.FollowUser h r).1 r).1 in
  Follows.GetFollowersByUserID h 5
  = Reply StatusNotFound (Follows.error "User not found")
  ∧ Follows.GetFollowersByUserID h2 5
    = Reply StatusOK
        {| Follows.Followers := []; Follows.Following := [];
           Follows.Total := 0; Follows.Message := ""; Follows.Error := "" |}.
Proof.
  intros h r h2. split; [by_running|].
  assert (Follows.target_of r
          ∉ Follows.ids (Follows.following_of (Follows.run [] h) 1)) as HB.
  { vm_compute. apply not_elem_of_nil. }
  destruct (follow_then_unfollow_restores_the_lists [] r HB)
    as (_ & _ & _ & _ & Hget).
  exact Hget.
Defined.

(** ** Posts: creating, counting and the end of a deleted post *)

Lemma allocated_step h o : is_Some (Posts.Posts h) → is_Some (Posts.Posts (Posts.step h o)).
Proof.
  intros Hm. destruct o as [now body | r body | r]; simpl.
  - unfold Posts.CreatePost. destruct body as [j|]; [|done].
    case_match; [done|]. by destruct (Posts.Posts h).
  - unfold Posts.UpdatePost. destruct (Posts.editable h _); [|done].
    by destruct body.
  - unfold Posts.DeletePost. by destruct (Posts.editable h _).
Qed.

Lemma allocated_run ops h : is_Some (Posts.Posts h) → is_Some (Posts.Posts (Posts.run ops h)).
Proof.
  unfold Posts.run. revert h. induction ops as [|o ops IH]; intros h Hm; [done|].
  simpl. by apply IH, allocated_step.
Qed.

Lemma filter_Permutation {A} (f : A → bool) (l l' : list A) :
  l ≡ₚ l' → List.filter f l ≡ₚ List.filter f l'.
Proof.
  induction 1 as [|x l l' _ IH|x y l|l l' l'' _ IH1 _ IH2]; simpl.
  - done.
  - destruct (f x); [by constructor | done].
  - destruct (f x), (f y); try done. apply perm_swap.
  - by etrans.
Qed.

(** The number of posts that a listing counts for a user does not depend
    on the order of the iteration. *)
Lemma posts_of_user_length h visit u :
  Posts.ranges_over visit h →
  length (Posts.posts_of_user visit u)
  = length (Posts.posts_of_user (map_to_list (Posts.entries h)) u).
Proof.
  unfold Posts.ranges_over, Posts.posts_of_user. intros Hv.
  apply Permutation_length, filter_Permutation. by rewrite Hv.
Qed.

(** Writing the post [q] over the post [p] changes the count by what the
    two contribute. *)
Lemma posts_of_user_store h k p q u :
  Posts.entries h !! k = Some p →
  (length (Posts.posts_of_user (map_to_list (Posts.entries (Posts.store h k q))) u)
   + length (Posts.posts_of_user [(k, p)] u)
   = length (Posts.posts_of_user (map_to_list (Posts.entries h)) u)
     + length (Posts.posts_of_user [(k, q)] u))%nat.
Proof.
  intros Hp. rewrite entries_store.
  assert (map_to_list (Posts.entries h)
          ≡ₚ (k, p) :: map_to_list (delete k (Posts.entries h))) as Hold.
  { rewrite <- map_to_list_insert by apply lookup_delete_eq.
    by rewrite insert_delete_id. }
  assert (map_to_list (<[k := q]> (Posts.entries h))
          ≡ₚ (k, q) :: map_to_list (delete k (Posts.entries h))) as Hnew.
  { rewrite <- map_to_list_insert by apply lookup_delete_eq.
    by rewrite insert_delete_eq. }
  unfold Posts.posts_of_user.
  rewrite (Permutation_length (filter_Permutation _ _ _ (fmap_Permutation snd _ _ Hold))).
  rewrite (Permutation_length (filter_Permutation _ _ _ (fmap_Permutation snd _ _ Hnew))).
  simpl. repeat case_match; simpl; lia.
Qed.

Lemma posts_of_user_insert_new (m : gmap Z Posts.Post) k q u :
  m !! k = None →
  length (Posts.posts_of_user (map_to_list (<[k := q]> m)) u)
  = (length (Posts.posts_of_user [(k, q)] u)
     + length (Posts.posts_of_user (map_to_list m) u))%nat.
Proof.
  intros Hk. unfold Posts.posts_of_user.
  rewrite (Permutation_length
             (filter_Permutation _ _ _
                (fmap_Permutation snd _ _ (map_to_list_insert m k q Hk)))).
  simpl. by case_match.
Qed.

(** What [GetOwnPosts] answers with, when it answers. *)
Lemma GetOwnPosts_total h visit r st page total :
  Posts.ranges_over visit h →
  Posts.GetOwnPosts h visit r = Reply st (Posts.PageBody page total) →
  total = Z.of_nat (length (Posts.posts_of_user (map_to_list (Posts.entries h)) 1)).
Proof.
  intros Hv. unfold Posts.GetOwnPosts, Posts.page_of.
  destruct (GoSlice.clamped _ _ _); [|done]. intros [= _ _ <-].
  unfold GoInt.len. by rewrite (posts_of_user_length h).
Qed.

(** X14. A handler that starts with an empty map and serves any sequence
    of requests accepts a post with content under an id that no post has:
    [GetPost] of that id answered NotFound before and returns the new post
    afterwards, [GetPost] of every other id answers as before, and the
    total that [GetOwnPosts] reports is one higher. *)
Theorem created_post_is_found_and_counted (ops : list Posts.Op) (now : string)
    (j : Posts.PostJSON) :
  Posts.j_content j ≠ "" →
  let h := Posts.run ops Samples.empty_posts in
  let newID := Posts.len_Posts h + 1 in
  let out := Posts.CreatePost h now (Some j) in
  out.2 = Reply StatusCreated (Posts.CreatedBody newID "Post created")
  ∧ (∀ r, Posts.postID_of r = newID →
          Posts.GetPost h r
          = Reply StatusNotFound (Posts.ErrorBody "Post not found")
          ∧ ∃ p, Posts.GetPost out.1 r = Reply StatusOK (Posts.PostBody p)
                 ∧ Posts.PostID p = newID
                 ∧ Posts.Content p = Posts.j_content j)
  ∧ (∀ r, Posts.postID_of r ≠ newID →
          Posts.GetPost out.1 r = Posts.GetPost h r)
  ∧ (∀ visit visit' r r' st st' page page' total total',
       Posts.ranges_over visit h → Posts.ranges_over visit' out.1 →
       Posts.GetOwnPosts h visit r = Reply st (Posts.PageBody page total) →
       Posts.GetOwnPosts out.1 visit' r' = Reply st' (Posts.PageBody page' total') →
       total' = total + 1).
Proof.
  intros Hc h newID out.
  assert (Posts.well_keyed h) as Hwk.
  { apply well_keyed_run, initial_well_keyed. by right. }
  destruct (allocated_run ops Samples.empty_posts) as [m Hm]; [by eexists|].
  fold h in Hm. pose proof (newID_fresh h Hwk) as Hfresh. fold newID in Hfresh.
  apply String.eqb_neq in Hc.
  assert (out = ({| Posts.Posts :=
                      Some (<[newID := {| Posts.PostID := newID; Posts.UserID := 1;
                                          Posts.Content := Posts.j_content j;
                                          Posts.CreatedAt := now;
                                          Posts.MediaIDs := Posts.j_media_ids j;
                                          Posts.IsDeleted := false |}]> m) |},
                 Reply StatusCreated (Posts.CreatedBody newID "Post created")))
    as ->.
  { subst out. unfold Posts.CreatePost. simpl. by rewrite Hc, Hm. }
  rewrite (entries_allocated h m Hm) in Hfresh.
  cbn [fst snd]. split; [done|]. split; [|split].
  - intros r Hr. unfold Posts.GetPost. rewrite Hr.
    rewrite (entries_allocated h m Hm), Hfresh. split; [done|].
    unfold Posts.entries. simpl. rewrite lookup_insert_eq. simpl. eauto.
  - intros r Hr. unfold Posts.GetPost, Posts.entries. rewrite Hm. simpl.
    by rewrite lookup_insert_ne.
  - intros visit visit' r r' st st' page page' total total' Hv Hv' Hg Hg'.
    apply (GetOwnPosts_total _ _ _ _ _ _ Hv) in Hg.
    apply (GetOwnPosts_total _ _ _ _ _ _ Hv') in Hg'.
    rewrite Hg, Hg', (entries_allocated h m Hm).
    unfold Posts.entries. cbn [Posts.Posts from_option id].
    rewrite posts_of_user_insert_new by done.
    unfold Posts.posts_of_user at 1. simpl. lia.
Qed.

(** The first post of a handler is found under the id 1. *)
Lemma created_post_is_found_and_counted_witness :
  let out :=
    Posts.CreatePost Samples.empty_posts Samples.now_str
      (Some (Samples.json "hello" None)) in
  Posts.GetPost Samples.empty_posts (Samples.post_request "1")
  = Reply StatusNotFound (Posts.ErrorBody "Post not found")
  ∧ ∃ p, Posts.GetPost out.1 (Samples.post_request "1")
         = Reply StatusOK (Posts.PostBody p)
         ∧ Posts.Content p = "hello".
Proof.
  intros out.
  assert (Posts.j_content (Samples.json "hello" None) ≠ "") as Hc by done.
  destruct (created_post_is_found_and_counted [] Samples.now_str
              (Samples.json "hello" None) Hc) as (_ & Hget & _).
  destruct (Hget (Samples.post_request "1")) as [Hbefore (p & Hp & _ & Hcontent)];
    [by_running|].
  split; [exact Hbefore|]. exists p. split; [exact Hp | exact Hcontent].
Defined.

(** X15. A handler that starts with no post serves any sequence of
    requests, and [DeletePost] then succeeds on an id. The total that
    [GetOwnPosts] reports is one lower than before the deletion, and the
    deletion is final: after any further sequence of requests [UpdatePost]
    and [DeletePost] on that id fail with Forbidden and change nothing, and
    no post that [CreatePost] makes gets the id. *)
Theorem deleted_post_is_final (h0 : Posts.PostsHandler)
    (before after : list Posts.Op) (r : Request) (h2 : Posts.PostsHandler)
    (b : Posts.Body) :
  Posts.initial h0 →
  Posts.DeletePost (Posts.run before h0) r = (h2, Reply StatusOK b) →
  let h := Posts.run before h0 in
  let h3 := Posts.run after h2 in
  (∀ visit visit' r1 r2 st st' page page' total total',
     Posts.ranges_over visit h → Posts.ranges_over visit' h2 →
     Posts.GetOwnPosts h visit r1 = Reply st (Posts.PageBody page total) →
     Posts.GetOwnPosts h2 visit' r2 = Reply st' (Posts.PageBody page' total') →
     total' = total - 1)
  ∧ (∀ r' body,
       Posts.postID_of r' = Posts.postID_of r →
       Posts.UpdatePost h3 r' body = (h3, Posts.forbidden)
       ∧ Posts.DeletePost h3 r' = (h3, Posts.forbidden))
  ∧ (∀ now body h4 id msg,
       Posts.CreatePost h3 now body
       = (h4, Reply StatusCreated (Posts.CreatedBody id msg)) →
       id ≠ Posts.postID_of r).
Proof.
  intros Hinit Hdel h h3.
  assert (Posts.well_keyed h) as Hwk
    by by apply well_keyed_run, initial_well_keyed.
  pose proof Hdel as Hdel'.
  apply DeletePost_tombstone in Hdel' as [Ht Hstep].
  assert (Posts.well_keyed h2) as Hwk2 by (rewrite Hstep; by apply well_keyed_step).
  assert (Posts.well_keyed h3) as Hwk3 by by apply well_keyed_run.
  assert (Posts.tombstone h3 (Posts.postID_of r)) as Ht3 by by apply tombstone_run.
  split; [|split].
  - intros visit visit' r1 r2 st st' page page' total total' Hv Hv' Hg Hg'.
    apply (GetOwnPosts_total _ _ _ _ _ _ Hv) in Hg.
    apply (GetOwnPosts_total _ _ _ _ _ _ Hv') in Hg'.
    revert Hdel. unfold Posts.DeletePost. fold h.
    destruct (Posts.editable h _) as [p|] eqn:He; [|done].
    apply editable_Some in He as (Hp & Hd & Hu). intros [= <- _].
    pose proof (posts_of_user_store h _ p
                  {| Posts.PostID := Posts.PostID p; Posts.UserID := Posts.UserID p;
                     Posts.Content := Posts.Content p;
                     Posts.CreatedAt := Posts.CreatedAt p;
                     Posts.MediaIDs := Posts.MediaIDs p;
                     Posts.IsDeleted := true |} 1 Hp) as Hcount.
    unfold Posts.posts_of_user at 2 4 in Hcount. simpl in Hcount.
    rewrite Hd, (proj2 (Z.eqb_eq _ _) Hu) in Hcount. simpl in Hcount. lia.
  - intros r' body Hr. unfold Posts.UpdatePost, Posts.DeletePost. rewrite Hr.
    by rewrite (tombstone_not_editable h3).
  - intros now body h4 id msg. unfold Posts.CreatePost.
    destruct body as [j|]; [|done]. case_match; [done|].
    destruct (Posts.Posts h3); [|done]. intros [= _ <- _].
    destruct Ht3 as (p & Hp & _). apply Hwk3 in Hp. lia.
Qed.

(** Post 1 is created and deleted; a second post gets the id 2, and post 1
    cannot be updated. *)
Lemma deleted_post_is_final_witness :
  let r := Samples.post_request "1" in
  let create := Posts.OpCreate Samples.now_str (Some (Samples.json "hello" None)) in
  let h2 := (Posts.DeletePost (Posts.run [create] Samples.empty_posts) r).1 in
  let h3 := Posts.run [create] h2 in
  Posts.UpdatePost h3 r (Some (Samples.json "again" None))
  = (h3, Posts.forbidden)
  ∧ Posts.DeletePost h3 r = (h3, Posts.forbidden).
Proof.
  intros r create h2 h3.
  assert (Posts.initial Samples.empty_posts) as Hinit by by right.
  assert (Posts.DeletePost (Posts.run [create] Samples.empty_posts) r
          = (h2, Reply StatusOK (Posts.MessageBody "Post soft deleted")))
    as Hdel by by_running.
  destruct (deleted_post_is_final Samples.empty_posts [create] [create] r h2
              (Posts.MessageBody "Post soft deleted") Hinit Hdel)
    as (_ & Hfinal & _).
  apply (Hfinal r (Some (Samples.json "again" None)) eq_refl).
Defined.

(** ** Profiles: what an update can change, and the search *)

Lemma UpdateProfile_lookup h body k u :
  Profiles.entries h !! k = Some u →
  ∃ u', Profiles.entries (Profiles.UpdateProfile h body).1 !! k = Some u'
        ∧ Profiles.IsPrivate u' = Profiles.IsPrivate u
        ∧ Profiles.UserID u' = Profiles.UserID u
        ∧ Profiles.CreatedAt u' = Profiles.CreatedAt u
        ∧ (k ≠ 1 → u' = u).
Proof.
  intros Hu. unfold Profiles.UpdateProfile.
  destruct body as [req|]; [|by exists u].
  destruct (Profiles.entries h !! 1) as [me|] eqn:Hme; [|by exists u].
  cbn [fst]. unfold Profiles.entries at 1. cbn [Profiles.Users from_option id].
  destruct (decide (k = 1)) as [->|Hk].
  - rewrite lookup_insert_eq. eexists. split; [done|].
    assert (u = me) as -> by congruence. by repeat split.
  - rewrite lookup_insert_ne by done. by exists u.
Qed.

Lemma run_lookup bodies h k u :
  Profiles.entries h !! k = Some u →
  ∃ u', Profiles.entries (Profiles.run bodies h) !! k = Some u'
        ∧ Profiles.IsPrivate u' = Profiles.IsPrivate u
        ∧ Profiles.UserID u' = Profiles.UserID u
        ∧ Profiles.CreatedAt u' = Profiles.CreatedAt u
        ∧ (k ≠ 1 → u' = u).
Proof.
  unfold Profiles.run. revert h u.
  induction bodies as [|body bodies IH]; intros h u Hu; [by exists u|].
  simpl.
  destruct (UpdateProfile_lookup h body k u Hu) as (u1 & Hu1 & Hp & Hi & Hc & Ho).
  destruct (IH _ u1 Hu1) as (u2 & Hu2 & Hp2 & Hi2 & Hc2 & Ho2).
  exists u2. split; [done|].
  split; [congruence|]. split; [congruence|]. split; [congruence|].
  intros Hk. rewrite Ho2, Ho; done.
Qed.

(** X16. [UpdateProfile] is the only handler that writes to the profiles,
    and it writes the user name, the avatar and the biography of user 1
    only. So, after any sequence of updates, a profile that was private is
    still refused with Forbidden by [GetProfile], the profile of user 1
    itself included, and a profile that was public is still returned, with
    the id and the creation time it had, and unchanged when it is not the
    profile of user 1. *)
Theorem profile_privacy_is_fixed (h : Profiles.ProfileHandler)
    (bodies : list (option Profiles.UserProfile)) (r : Request) (userID : Z)
    (user : Profiles.UserProfile) :
  Strconv.Atoi (var r "user_id") = (userID, None) →
  Profiles.entries h !! userID = Some user →
  let h' := Profiles.run bodies h in
  (Profiles.IsPrivate user = true →
   Profiles.GetProfile h' r
   = Reply StatusForbidden (Profiles.ErrorText "Private profile"))
  ∧ (Profiles.IsPrivate user = false →
     ∃ user', Profiles.GetProfile h' r
              = Reply StatusOK (Profiles.ProfileJSON user')
              ∧ Profiles.UserID user' = Profiles.UserID user
              ∧ Profiles.CreatedAt user' = Profiles.CreatedAt user
              ∧ (userID ≠ 1 → user' = user)).
Proof.
  intros Hid Hu h'. subst h'.
  destruct (run_lookup bodies h userID user Hu) as (u' & Hu' & Hp & Hi & Hc & Ho).
  unfold Profiles.GetProfile. rewrite Hid, Hu', Hp. split.
  - by intros ->.
  - intros ->. by exists u'.
Qed.

(** User 1 has a private profile and tries to show it: its own profile is
    refused before and after. *)
Lemma profile_privacy_is_fixed_witness :
  let r := Fixtures.user_request "1" in
  let public := Some (Fixtures.profile 1 "Alice" "now public" false) in
  Profiles.GetProfile (Profiles.run [public] Fixtures.private_owner) r
  = Reply StatusForbidden (Profiles.ErrorText "Private profile").
Proof.
  intros r public.
  assert (Strconv.Atoi (var r "user_id") = (1, None)) as Hid by by_running.
  assert (Profiles.entries Fixtures.private_owner !! 1
          = Some (Fixtures.profile 1 "Alice" "hi" true)) as Hu by by_running.
  destruct (profile_privacy_is_fixed Fixtures.private_owner [public] r 1
              (Fixtures.profile 1 "Alice" "hi" true) Hid Hu) as [Hprivate _].
  by apply Hprivate.
Defined.

Lemma UpdateProfile_Some h req me :
  Profiles.entries h !! 1 = Some me →
  Profiles.UpdateProfile h (Some req)
  = ({| Profiles.Users :=
          Some (<[1 := {| Profiles.UserID := Profiles.UserID me;
                          Profiles.Username :=
                            if decide (Profiles.Username req = "")
                            then Profiles.Username me else Profiles.Username req;
                          Profiles.Avatar :=
                            if decide (Profiles.Avatar req = "")
                            then Profiles.Avatar me else Profiles.Avatar req;
                          Profiles.Bio :=
                            if decide (Profiles.Bio req = "")
                            then Profiles.Bio me else Profiles.Bio req;
                          Profiles.CreatedAt := Profiles.CreatedAt me;
                          Profiles.IsPrivate := Profiles.IsPrivate me |}]>
                  (Profiles.entries h)) |},
     Reply StatusOK (Profiles.MessageJSON "Profile updated")).
Proof.
  intros Hme. unfold Profiles.UpdateProfile. rewrite Hme.
  assert (∀ a b : string,
            (if negb (String.eqb a "") then a else b)
            = if decide (a = "") then b else a) as Hif.
  { intros a b. destruct (String.eqb_spec a ""); by case_decide. }
  by rewrite !Hif.
Qed.

(** X17. [UpdateProfile] with a body that decodes, for a handler that has
    user 1: the answer is OK, a user name, avatar or biography of the body
    that is not empty replaces the one of user 1, and one that is empty
    leaves it, so that a body with the three empty changes nothing and no
    field can be emptied. The same body a second time changes nothing
    more. *)
Theorem update_profile_fills_what_is_given (h : Profiles.ProfileHandler)
    (req me : Profiles.UserProfile) :
  Profiles.entries h !! 1 = Some me →
  let out := Profiles.UpdateProfile h (Some req) in
  out.2 = Reply StatusOK (Profiles.MessageJSON "Profile updated")
  ∧ (∃ me', Profiles.entries out.1 !! 1 = Some me'
            ∧ Profiles.Username me'
              = (if decide (Profiles.Username req = "") then Profiles.Username me
                 else Profiles.Username req)
            ∧ Profiles.Avatar me'
              = (if decide (Profiles.Avatar req = "") then Profiles.Avatar me
                 else Profiles.Avatar req)
            ∧ Profiles.Bio me'
              = (if decide (Profiles.Bio req = "") then Profiles.Bio me
                 else Profiles.Bio req))
  ∧ (Profiles.Username req = "" → Profiles.Avatar req = "" →
     Profiles.Bio req = "" → Profiles.entries out.1 = Profiles.entries h)
  ∧ Profiles.UpdateProfile out.1 (Some req) = out.
Proof.
  intros Hme out. subst out. rewrite (UpdateProfile_Some h req me Hme).
  cbn [fst snd]. split; [done|]. split; [|split].
  - eexists. unfold Profiles.entries at 1. cbn [Profiles.Users from_option id].
    rewrite lookup_insert_eq. done.
  - intros -> -> ->. unfold Profiles.entries at 1.
    cbn [Profiles.Users from_option id]. rewrite !decide_True by done.
    apply insert_id. rewrite Hme. by destruct me.
  - erewrite UpdateProfile_Some;
      [|unfold Profiles.entries at 1; cbn [Profiles.Users from_option id];
        apply lookup_insert_eq].
    unfold Profiles.entries at 1. cbn [Profiles.Users from_option id].
    rewrite insert_insert_eq.
    cbn [Profiles.Username Profiles.Avatar Profiles.Bio Profiles.UserID
         Profiles.CreatedAt Profiles.IsPrivate].
    do 4 f_equal. repeat case_decide; done.
Qed.

(** Alice changes her biography and keeps her name. *)
Lemma update_profile_fills_what_is_given_witness :
  let req := Fixtures.profile 0 "" "new bio" true in
  let out := Profiles.UpdateProfile Fixtures.two_profiles (Some req) in
  Profiles.GetProfile out.1 (Fixtures.user_request "1")
  = Reply StatusOK
      (Profiles.ProfileJSON (Fixtures.profile 1 "Alice" "new bio" false))
  ∧ Profiles.UpdateProfile out.1 (Some req) = out.
Proof.
  intros req out.
  assert (Profiles.entries Fixtures.two_profiles !! 1
          = Some (Fixtures.profile 1 "Alice" "hi" false)) as Hme by by_running.
  destruct (update_profile_fills_what_is_given Fixtures.two_profiles req
              (Fixtures.profile 1 "Alice" "hi" false) Hme)
    as (_ & _ & _ & Hagain).
  split; [by_running | exact Hagain].
Defined.



(** ** Media: the ids of the uploads *)

(** What one upload does to the list: nothing, or one media more, with
    the id [nextID], a post id above 0 and one of the two types. *)
Lemma UploadMedia_state Base Join Create h u :
  (Medias.UploadMedia Base Join Create h u).1 = h
  ∨ ∃ m, (Medias.UploadMedia Base Join Create h u).1
         = {| Medias.nextID := GoInt.add (Medias.nextID h) 1;
              Medias.medias := Medias.medias h ++ [m] |}
         ∧ (Medias.UploadMedia Base Join Create h u).2
           = Reply StatusCreated
               {| Medias.MediaID := Medias.nextID h;
                  Medias.Message := "Media uploaded"; Medias.Error := "" |}
         ∧ Medias.ID m = Medias.nextID h
         ∧ 0 < Medias.PostID m
         ∧ (Medias.Type_ m = "image" ∨ Medias.Type_ m = "video").
Proof.
  unfold Medias.UploadMedia. destruct u as [|values file]; [by left|].
  destruct (String.eqb_spec (Medias.FormValue values "type") "image") as [Hi|Hi];
    destruct (String.eqb_spec (Medias.FormValue values "type") "video") as [Hv|Hv];
    simpl; try (by left);
    (destruct (Strconv.Atoi _) as [postID [e|]]; [by left|];
     destruct (Z.leb_spec postID 0); [by left|];
     destruct file as [name|]; [|by left];
     destruct (Create _); simpl; [|by left];
     right; eexists; split; [done|]; split; [done|]; simpl;
     split; [done|]; split; [lia|]; tauto).
Qed.

Lemma UploadMedia_Created Base Join Create h u h' resp :
  Medias.UploadMedia Base Join Create h u = (h', Reply StatusCreated resp) →
  Medias.MediaID resp = Medias.nextID h
  ∧ ∃ m, Medias.medias h' = Medias.medias h ++ [m]
         ∧ Medias.ID m = Medias.MediaID resp.
Proof.
  unfold Medias.UploadMedia. destruct u as [|values file]; [done|].
  destruct (_ && _); [done|].
  destruct (Strconv.Atoi _) as [postID [e|]]; [done|].
  destruct (postID <=? 0); [done|]. destruct file as [name|]; [|done].
  destruct (Create _); simpl; [|done].
  intros [= <- <-]. simpl. split; [done|]. eauto.
Qed.

Lemma run_fresh Base Join uploads :
  Z.of_nat (length uploads) < GoInt.maxInt →
  let h := Medias.run Base Join uploads Medias.NewMediaHandler in
  Medias.nextID h = GoInt.len (Medias.medias h) + 1
  ∧ GoInt.len (Medias.medias h) <= Z.of_nat (length uploads)
  ∧ (∀ i m, Medias.medias h !! i = Some m →
            Medias.ID m = Z.of_nat i + 1
            ∧ 0 < Medias.PostID m
            ∧ (Medias.Type_ m = "image" ∨ Medias.Type_ m = "video")).
Proof.
  unfold Medias.run. induction uploads as [|[Create u] uploads IH] using rev_ind.
  - intros _. simpl. split; [done|]. split; [done|]. intros i m.
    by rewrite lookup_nil.
  - rewrite length_app, foldl_app. simpl. intros Hn.
    destruct IH as (Hnext & Hlen & Hall); [lia|].
    set (h := foldl _ _ uploads) in *.
    destruct (UploadMedia_state Base Join Create h u)
      as [->|(m & -> & _ & Hid & Hpost & Htype)].
    + split; [done|]. split; [lia | done].
    + simpl. unfold GoInt.add, GoInt.len in *.
      rewrite wrap_exact by (unfold GoInt.minInt, GoInt.maxInt in *; lia).
      rewrite length_app. simpl. split; [lia|]. split; [lia|].
      intros i m'. rewrite lookup_app_Some. intros [Hi|[Hi Hm']].
      * by apply Hall.
      * apply list_lookup_singleton_Some in Hm' as [Hi' <-].
        split; [lia | done].
Qed.

(** X19. A handler built by [NewMediaHandler] that has served fewer
    uploads than the largest [int] numbers its media 1, 2, 3, ... in the
    order of the uploads that succeeded: an upload that fails uses no id.
    Every media has a post id above 0 and the type image or video, and the
    next upload that succeeds is answered with the id that follows. *)
Theorem media_ids_count_the_uploads (Base : string → string)
    (Join : string → string → string)
    (uploads : list ((string → bool) * Medias.Upload)) :
  Z.of_nat (length uploads) < GoInt.maxInt →
  let h := Medias.run Base Join uploads Medias.NewMediaHandler in
  GoInt.len (Medias.medias h) <= Z.of_nat (length uploads)
  ∧ (∀ i m, Medias.medias h !! i = Some m →
            Medias.ID m = Z.of_nat i + 1
            ∧ 0 < Medias.PostID m
            ∧ (Medias.Type_ m = "image" ∨ Medias.Type_ m = "video"))
  ∧ (∀ Create u h' resp,
       Medias.UploadMedia Base Join Create h u = (h', Reply StatusCreated resp) →
       Medias.MediaID resp = GoInt.len (Medias.medias h) + 1
       ∧ ∃ m, Medias.medias h' = Medias.medias h ++ [m]
              ∧ Medias.ID m = Medias.MediaID resp).
Proof.
  intros Hn h. destruct (run_fresh Base Join uploads Hn) as (Hnext & Hlen & Hall).
  fold h in Hnext, Hlen, Hall. split; [done|]. split; [done|].
  intros Create u h' resp Hup.
  apply UploadMedia_Created in Hup as [Hid (m & Hm & Hidm)].
  rewrite Hid, Hnext in *. split; [done|]. by exists m.
Qed.

(** An upload without a file between two uploads that succeed: the ids
    are 1 and 2. *)
Lemma media_ids_count_the_uploads_witness :
  let uploads :=
    [(Samples.create_ok, Fixtures.image_upload "3");
     (Samples.create_ok, Samples.upload "image" "3" None);
     (Samples.create_ok, Fixtures.image_upload "4")] in
  let h := Medias.run Samples.base_id Samples.join_slash uploads
             Medias.NewMediaHandler in
  Medias.ID <$> Medias.medias h = [1; 2]
  ∧ ∀ i m, Medias.medias h !! i = Some m → Medias.ID m = Z.of_nat i + 1.
Proof.
  intros uploads h. split; [by_running|].
  assert (Z.of_nat (length uploads) < GoInt.maxInt) as Hn by by_running.
  destruct (media_ids_count_the_uploads Samples.base_id Samples.join_slash
              uploads Hn) as (_ & Hall & _).
  intros i m Hm. by apply Hall.
Defined.

(** ** User names: what a post adds *)

Lemma PostUsername_fold (visit : list (string * string)) (init : list string) :
  foldl (λ usernames entry,
           if negb (String.eqb entry.2 "") then usernames ++ [entry.2]
           else usernames)
    init visit
  = init ++ List.filter (λ v, negb (String.eqb v "")) visit.*2.
Proof.
  revert init. induction visit as [|[k v] visit IH]; intros init; simpl.
  - by rewrite app_nil_r.
  - rewrite IH. destruct (negb (String.eqb v "")); [|done].
    by rewrite <- app_assoc.
Qed.

(** X20. [PostUsername] with a body that decodes to a map answers OK and
    appends to the list the values of the map that are not empty, one entry
    for each key that has such a value, in the order of the iteration: the
    names that were there stay in front, in their order, and no empty name
    is added. A body that cannot be read or decoded changes nothing. *)
Theorem post_username_appends_the_names (h : Usernames.Handler)
    (visit : list (string * string)) (data : gmap string string) :
  Usernames.ranges_over visit (Usernames.Data data) →
  let out := Usernames.PostUsername h visit (Usernames.Data data) in
  out.2 = Reply StatusOK (Usernames.Message "added successfully")
  ∧ (∃ added,
       Usernames.GetUsername out.1
       = Reply StatusOK (Usernames.Names (Usernames.Usernames h ++ added))
       ∧ added ≡ₚ List.filter (λ v, negb (String.eqb v ""))
                    (map_to_list data).*2
       ∧ (∀ v, v ∈ added ↔ v ≠ "" ∧ ∃ k, data !! k = Some v)
       ∧ (length added <= size data)%nat)
  ∧ Usernames.PostUsername h visit Usernames.Unreadable
    = (h, Reply StatusInternalServerError (Usernames.Text "Failed to read body"))
  ∧ Usernames.PostUsername h visit Usernames.InvalidJSON
    = (h, Reply StatusBadRequest (Usernames.Text "Invalid JSON")).
Proof.
  intros Hv out. subst out. simpl in Hv.
  unfold Usernames.PostUsername, Usernames.GetUsername. cbn [fst snd].
  rewrite PostUsername_fold. cbn [Usernames.Usernames].
  split; [done|]. split; [|done].
  exists (List.filter (λ v, negb (String.eqb v "")) visit.*2).
  split; [done|]. split; [|split].
  - apply filter_Permutation. by rewrite Hv.
  - intros v. rewrite list_elem_of_In, filter_In, <- list_elem_of_In.
    rewrite list_elem_of_fmap, negb_true_iff, String.eqb_neq. split.
    + intros [([k v'] & -> & Hin) Hne]. split; [done|]. exists k.
      rewrite Hv in Hin. by apply elem_of_map_to_list in Hin.
    + intros [Hne [k Hk]]. split; [|done]. exists (k, v). split; [done|].
      rewrite Hv. by apply elem_of_map_to_list.
  - etrans; [apply filter_length_le|].
    by rewrite length_fmap, Hv, length_map_to_list.
Qed.

(** A body with a name and an empty value adds the name. *)
Lemma post_username_appends_the_names_witness :
  let h := {| Usernames.Usernames := ["alice"; "bob"] |} in
  let out :=
    Usernames.PostUsername h (map_to_list Fixtures.two_names)
      (Usernames.Data Fixtures.two_names) in
  out.2 = Reply StatusOK (Usernames.Message "added successfully")
  ∧ Usernames.GetUsername out.1
    = Reply StatusOK (Usernames.Names ["alice"; "bob"; "carol"]).
Proof.
  intros h out.
  assert (Usernames.ranges_over (map_to_list Fixtures.two_names)
            (Usernames.Data Fixtures.two_names)) as Hv by (simpl; reflexivity).
  destruct (post_username_appends_the_names h (map_to_list Fixtures.two_names)
              Fixtures.two_names Hv) as (Hok & _).
  split; [exact Hok | by_running].
Defined.

(** ** Profiles: the handler that [main] builds *)

Lemma run_main_profiles bodies :
  Profiles.run bodies Fixtures.main_profiles = Fixtures.main_profiles.
Proof.
  unfold Profiles.run. induction bodies as [|body bodies IH]; [done|].
  simpl. rewrite <- IH at 2. f_equal. by destruct body.
Qed.

(** X21. [main] builds the profile handler as [&ProfileHandler{}], without
    users, and no handler adds one: whatever updates are sent, every
    [UpdateProfile] with a body that decodes is refused with Forbidden,
    [GetProfile] of every numeric id answers NotFound, and [SearchUsers]
    finds nobody. *)
Theorem main_profiles_stay_empty (ToLower : string → string)
    (Contains : string → string → bool)
    (bodies : list (option Profiles.UserProfile)) (r : Request) :
  let h := Profiles.run bodies Fixtures.main_profiles in
  h = Fixtures.main_profiles
  ∧ (∀ req, Profiles.UpdateProfile h (Some req)
            = (h, Reply StatusForbidden (Profiles.ErrorText "Unauthorized")))
  ∧ ((Strconv.Atoi (var r "user_id")).2 = None →
     Profiles.GetProfile h r
     = Reply StatusNotFound (Profiles.ErrorText "User not found"))
  ∧ (∀ visit, Profiles.ranges_over visit h →
       0 <= (Strconv.Atoi (query_get r "offset")).1 →
       0 <= (Strconv.Atoi (query_get r "limit")).1 →
       (Strconv.Atoi (query_get r "offset")).1
       + (Strconv.Atoi (query_get r "limit")).1 <= GoInt.maxInt →
       Profiles.SearchUsers ToLower Contains h visit r
       = Reply StatusOK (Profiles.UsersBody [] 0)).
Proof.
  intros h. subst h. rewrite run_main_profiles.
  split; [done|]. split; [done|]. split.
  - unfold Profiles.GetProfile. destruct (Strconv.Atoi _) as [id [e|]]; [done|].
    done.
  - intros visit Hv Ho Hl Hsum. unfold Profiles.ranges_over in Hv.
    change (Profiles.entries Fixtures.main_profiles) with (∅ : gmap Z Profiles.UserProfile) in Hv.
    rewrite map_to_list_empty in Hv. apply Permutation_nil_r in Hv. subst visit.
    unfold Profiles.SearchUsers. simpl. rewrite clamped_window by done.
    unfold Spec.window. by rewrite drop_nil, take_nil.
Qed.

(** An update and a look at user 1, on the handler of [main]. *)
Lemma main_profiles_stay_empty_witness :
  let me := Fixtures.profile 1 "Alice" "hi" false in
  Profiles.GetProfile (Profiles.run [Some me] Fixtures.main_profiles)
    (Fixtures.user_request "1")
  = Reply StatusNotFound (Profiles.ErrorText "User not found").
Proof.
  intros me.
  destruct (main_profiles_stay_empty Fixtures.lower_ascii Fixtures.contains
              [Some me] (Fixtures.user_request "1")) as (_ & _ & Hget & _).
  apply Hget. by_running.
Defined.

(** ** Accounts: the ids of the registrations *)

Lemma entries_Some m : Auth.entries {| Auth.Users := Some m |} = m.
Proof. done. Qed.

(** X22. The id of a registration is the number of keys of the map plus
    one, not the number of accounts. A registration under a user name and
    an e-mail address that are both keys already adds no key: the next
    registration is answered with the same id, also when it is the
    registration of another user, whose account then has the id of the
    first. A registration under two keys that are new moves the id of the
    next one by two. *)
Theorem register_ids_count_the_keys (ToLower : string → string)
    (h : Auth.AuthHandler) (clock1 clock2 : string)
    (req1 req2 : Auth.RegisterRequest) :
  Auth.valid_registration req1 → Auth.valid_registration req2 →
  let name1 := ToLower (Auth.reg_username req1) in
  let mail1 := ToLower (Auth.reg_email req1) in
  let out1 := Auth.Register ToLower h "POST" clock1 (Some req1) in
  let out2 := Auth.Register ToLower out1.1 "POST" clock2 (Some req2) in
  let id := Z.of_nat (size (Auth.entries h)) + 1 in
  out1.2 = (Auth.StatusOK, Auth.Registered id (Auth.token_of clock1))
  ∧ (is_Some (Auth.entries h !! name1) → is_Some (Auth.entries h !! mail1) →
     out2.2 = (Auth.StatusOK, Auth.Registered id (Auth.token_of clock2))
     ∧ (ToLower (Auth.reg_username req2) ≠ name1 →
        ToLower (Auth.reg_email req2) ≠ name1 →
        ∃ u1 u2,
          Auth.entries out2.1 !! name1 = Some u1
          ∧ Auth.entries out2.1 !! ToLower (Auth.reg_username req2) = Some u2
          ∧ Auth.Username u1 = Auth.reg_username req1
          ∧ Auth.Username u2 = Auth.reg_username req2
          ∧ Auth.ID u1 = id ∧ Auth.ID u2 = id))
  ∧ (Auth.entries h !! name1 = None → Auth.entries h !! mail1 = None →
     name1 ≠ mail1 →
     out2.2 = (Auth.StatusOK, Auth.Registered (id + 2) (Auth.token_of clock2))).
Proof.
  intros Hv1 Hv2 name1 mail1 out1 out2 id. subst out2 out1.
  rewrite (Register_valid ToLower h clock1 req1 Hv1). cbv zeta. cbn [fst snd].
  fold name1 mail1 id.
  set (user1 := {| Auth.ID := id; Auth.Username := Auth.reg_username req1 |}).
  rewrite (Register_valid ToLower _ clock2 req2 Hv2). cbv zeta. cbn [fst snd].
  rewrite !entries_Some.
  split; [done|]. split.
  - intros Hname Hmail.
    assert (size (<[mail1 := user1]> (<[name1 := user1]> (Auth.entries h)))
            = size (Auth.entries h)) as Hsize.
    { rewrite map_size_insert_Some.
      - by rewrite map_size_insert_Some.
      - rewrite lookup_insert. case_decide; [by eexists | done]. }
    rewrite Hsize. fold id. split; [done|].
    intros Hn1 Hn2.
    exists user1,
      {| Auth.ID := id; Auth.Username := Auth.reg_username req2;
         Auth.Email := Auth.reg_email req2;
         Auth.Password := Auth.reg_password req2; Auth.IsDeleted := false |}.
    split; [|split; [|done]].
    + rewrite !lookup_insert_ne by done. rewrite lookup_insert.
      case_decide; [done|]. apply lookup_insert_eq.
    + rewrite lookup_insert. case_decide; [done|]. apply lookup_insert_eq.
  - intros Hname Hmail Hne.
    rewrite map_size_insert_None by (by rewrite lookup_insert_ne).
    rewrite map_size_insert_None by done.
    replace (Z.of_nat (S (S (size (Auth.entries h)))) + 1) with (id + 2)
      by (subst id; lia).
    done.
Qed.

(** Alice registers twice, and Mallory after her: Mallory is answered with
    the id of Alice's second registration. *)
Lemma register_ids_count_the_keys_witness :
  let h := (Auth.Register Fixtures.lower_ascii Fixtures.new_auth "POST" "120000"
              (Some Fixtures.alice_request)).1 in
  let again := Auth.Register Fixtures.lower_ascii h "POST" "120001"
                 (Some Fixtures.alice_request) in
  let other := Auth.Register Fixtures.lower_ascii again.1 "POST" "120002"
                 (Some Fixtures.bob_request) in
  again.2 = (Auth.StatusOK, Auth.Registered 3 (Auth.token_of "120001"))
  ∧ other.2 = (Auth.StatusOK, Auth.Registered 3 (Auth.token_of "120002")).
Proof.
  intros h again other.
  assert (Auth.valid_registration Fixtures.alice_request) as Hv1 by by_running.
  assert (Auth.valid_registration Fixtures.bob_request) as Hv2 by by_running.
  destruct (register_ids_count_the_keys Fixtures.lower_ascii h "120001" "120002"
              Fixtures.alice_request Fixtures.bob_request Hv1 Hv2)
    as (Hfirst & Hsame & _).
  destruct Hsame as [Hsecond _]; [vm_compute; eauto | vm_compute; eauto |].
  split; [exact Hfirst | exact Hsecond].
Defined.

(** ** The posts and the reactions of the handlers that [main] builds *)

(** X23. [main] builds the posts handler as [&PostsHandler{}], with the
    nil map. Whatever requests it serves, nothing is ever stored:
    [CreatePost] with a body that has content panics on the assignment,
    [GetPost] answers NotFound, [UpdatePost] and [DeletePost] answer
    Forbidden, [GetUserPosts] answers NotFound and [GetOwnPosts] the empty
    page with total 0. *)
Theorem main_posts_store_nothing (ops : list Posts.Op) (now : string)
    (j : Posts.PostJSON) (body : option Posts.PostJSON) (r : Request)
    (visit : list (Z * Posts.Post)) :
  let h := Posts.run ops Samples.zero_posts in
  h = Samples.zero_posts
  ∧ (Posts.j_content j ≠ "" → Posts.CreatePost h now (Some j) = (h, Panic))
  ∧ Posts.GetPost h r = Reply StatusNotFound (Posts.ErrorBody "Post not found")
  ∧ Posts.UpdatePost h r body = (h, Posts.forbidden)
  ∧ Posts.DeletePost h r = (h, Posts.forbidden)
  ∧ (Posts.ranges_over visit h →
     Posts.GetUserPosts h visit r
     = Reply StatusNotFound (Posts.ErrorBody "User not found")
     ∧ (0 <= Posts.offset_of r → 0 <= Posts.limit_of r →
        Posts.offset_of r + Posts.limit_of r <= GoInt.maxInt →
        Posts.GetOwnPosts h visit r = Reply StatusOK (Posts.PageBody [] 0))).
Proof.
  intros h. subst h. rewrite zero_value_stores_nothing.
  split; [done|]. split; [|split; [done|split; [done|split; [done|]]]].
  - intros Hc. apply String.eqb_neq in Hc. unfold Posts.CreatePost. simpl.
    by rewrite Hc.
  - unfold Posts.ranges_over.
    change (Posts.entries Samples.zero_posts) with (∅ : gmap Z Posts.Post).
    rewrite map_to_list_empty. intros ->%Permutation_nil_r.
    split; [done|]. intros Ho Hl Hsum. unfold Posts.GetOwnPosts.
    change (Posts.posts_of_user [] 1) with (@nil Posts.Post).
    rewrite page_of_window by done. unfold Spec.window.
    by rewrite drop_nil, take_nil.
Qed.

(** A post is sent to the handler of [main] and looked for. *)
Lemma main_posts_store_nothing_witness :
  let create := Posts.OpCreate Samples.now_str (Some (Samples.json "hello" None)) in
  let h := Posts.run [create] Samples.zero_posts in
  Posts.CreatePost h Samples.now_str (Some (Samples.json "hello" None))
  = (h, Panic)
  ∧ Posts.GetPost h (Samples.post_request "1")
    = Reply StatusNotFound (Posts.ErrorBody "Post not found").
Proof.
  intros create h.
  destruct (main_posts_store_nothing [create] Samples.now_str
              (Samples.json "hello" None) None (Samples.post_request "1") [])
    as (_ & Hcreate & Hget & _).
  split; [by apply Hcreate | exact Hget].
Defined.

Lemma run_main_reactions TrimSpace ops :
  Reactions.run TrimSpace ops Fixtures.main_reactions = Fixtures.main_reactions.
Proof.
  unfold Reactions.run. induction ops as [|o ops IH]; [done|].
  simpl. rewrite <- IH at 2. f_equal. destruct o as [r body|r body]; [|done].
  simpl. unfold Reactions.ReactToPost. destruct body as [q|]; [|done].
  by destruct (String.eqb _ _).
Qed.

(** X24. [main] builds the reactions handler as [&ReactionsHandler{}], with
    the nil map. Whatever requests it serves, no reaction is ever stored:
    [ReactToPost] with a type that is not blank panics on the assignment,
    [RemoveReaction] answers NotFound and so does [GetReactions]. *)
Theorem main_reactions_store_nothing (TrimSpace : string → string)
    (ops : list Reactions.Op) (r : Request) (q : Reactions.ReactionRequest)
    (body : option Reactions.ReactionRequest)
    (visit : list (string * string)) (visit_types : list string) :
  let h := Reactions.run TrimSpace ops Fixtures.main_reactions in
  h = Fixtures.main_reactions
  ∧ (TrimSpace (Reactions.ReactionType q) ≠ "" →
     Reactions.ReactToPost TrimSpace h r (Some q) = (h, Panic))
  ∧ Reactions.RemoveReaction h r body
    = (h, Reply StatusNotFound (Reactions.error "Reaction not found"))
  ∧ Reactions.GetReactions h visit visit_types r
    = Reply StatusNotFound (Reactions.Failure (Reactions.error "Post not found")).
Proof.
  intros h. subst h. rewrite run_main_reactions.
  split; [done|]. split; [|done].
  intros Ht. apply String.eqb_neq in Ht. unfold Reactions.ReactToPost.
  by rewrite Ht.
Qed.

(** A like is sent to the handler of [main]. *)
Lemma main_reactions_store_nothing_witness :
  let r := Samples.post_request "10" in
  let h := Reactions.run Reactions.TrimSpaceASCII
             [Reactions.OpReact r (Samples.react "like")]
             Fixtures.main_reactions in
  Reactions.ReactToPost Reactions.TrimSpaceASCII h r (Samples.react "like")
  = (h, Panic)
  ∧ Reactions.GetReactions h [] [] r
    = Reply StatusNotFound (Reactions.Failure (Reactions.error "Post not found")).
Proof.
  intros r h.
  destruct (main_reactions_store_nothing Reactions.TrimSpaceASCII
              [Reactions.OpReact r (Samples.react "like")] r
              {| Reactions.ReactionType := "like" |} None [] [])
    as (_ & Hreact & _ & Hget).
  split; [apply Hreact; by_running | exact Hget].
Defined.
